(** * Forecast pipeline of [prophet_forecast_script.py]

    A shallow embedding of [ProphetForecaster] and [main]: the cleaner
    ([clean_and_prepare_data]), the forecast engine and its diagnostics
    ([train_and_forecast]), the result store ([save_forecasts_to_database])
    and the orchestrator ([run_forecasting_for_user]).

    Numbers.  pandas and numpy compute on binary64 floats; the embedding
    idealises them as exact rationals ([Q]).  A missing value (NULL, NaN) is
    [None].  The one irrational operation, the square root inside
    [Series.std], is a parameter [sqrt_fn] of the cleaner: every theorem
    about the cleaner holds for each square-root routine.

    External collaborators.  Prophet ([fit], [predict]), the PostgreSQL
    server (failures of connect, execute, commit) and the wall clock
    ([datetime.now]) are not code of this repository: Prophet is a pair of
    section variables, the server and the clock are read from an explicit
    environment record. *)

From Stdlib Require Import String Ascii DecimalString DecimalNat.
From Stdlib Require Import ZArith QArith Qround Qabs Qminmax Lia Lqa Bool.
From Stdlib Require Import List Permutation Sorted.
Import ListNotations.

Set Implicit Arguments.
Local Open Scope Z_scope.
Local Open Scope Q_scope.

(* ================================================================== *)
(** * Numbers, series and dictionaries *)

(** [x > y] on floats, as a boolean. *)
Definition Qgtb (x y : Q) : bool := negb (Qle_bool x y).

(** [Series.sum()]. *)
Definition Qsum (l : list Q) : Q := fold_right Qplus 0 l.

(** [Series.mean()] on a series without NaN.  The cleaner calls it on a
    series of length at least 2. *)
Definition mean (l : list Q) : Q := Qsum l / inject_Z (Z.of_nat (length l)).

(** Sample variance, [ddof = 1], the square of pandas' [Series.std()]. *)
Definition variance (l : list Q) : Q :=
  Qsum (map (fun v => (v - mean l) * (v - mean l)) l)
  / inject_Z (Z.of_nat (length l) - 1).

(** A Python [dict] with insertion order: assigning to an existing key
    replaces its value in place, a new key goes to the end. *)
Section Dict.
Variable V : Type.

Definition dict := list (string * V).

Fixpoint dict_set (k : string) (v : V) (d : dict) : dict :=
    match d with
    | [] => [(k, v)]
    | (k', v') :: d' =>
        if String.eqb k' k then (k, v) :: d' else (k', v') :: dict_set k v d'
    end.

Fixpoint dict_get (k : string) (d : dict) : option V :=
    match d with
    | [] => None
    | (k', v') :: d' => if String.eqb k' k then Some v' else dict_get k d'
    end.

Definition dict_keys (d : dict) : list string := map fst d.

End Dict.

(* ================================================================== *)
(** * Data model *)

(** One row of the [sales_data] query. *)
Record SalesRecord := mkSale {
  product_id : string;
  product_name : string;
  date : Z;                      (* calendar day, as a day number *)
  quantity_sold : option Q;      (* [None] is NULL *)
  unit_price : Q
}.

(** The frame returned by [fetch_sales_data]; row [i] carries the index
    label [i] ([RangeIndex]). *)
Definition DataFrame := list SalesRecord.

(** A row of [product_data]: the index label inherited from the frame and
    the two Prophet columns.  [A] is [option Q] before [fillna] and [Q]
    after it. *)
Record Row (A : Type) := mkRow { idx : nat; ds : Z; y : A }.

Record ProductInfo := mkInfo {
  data : list (Row Q);
  info_product_name : string
}.

Inductive Exn :=
| OperationalError (what : string)
| ProphetError
| KeyError (key : string)
| UnboundLocalError (name : string).

Inductive Level := INFO | WARNING | ERROR.

(** The messages the script logs, one constructor per [logger] call. *)
Inductive LogMsg :=
| MsgConnected
| MsgConnectFailed (e : Exn)
| MsgFetched (n : nat) (user : string)
| MsgFetchError (e : Exn)
| MsgCleaning (name pid : string)
| MsgInsufficient (name : string)
| MsgCleaned (name : string) (n : nat)
| MsgTraining
| MsgPeriodForecast (period : nat) (units : Z)
| MsgTrained (mae mape : option Q)
| MsgTrainError (e : Exn)
| MsgSaved (pid : string)
| MsgSaveError (e : Exn)
| MsgStart (user : string)
| MsgNoSales (user : string)
| MsgNoValid (user : string)
| MsgGenerating (name : string)
| MsgProductFailed (pid : string) (e : Exn)
| MsgCompleted (successful total : nat)
| MsgPipelineError (e : Exn).

Definition level (m : LogMsg) : Level :=
  match m with
  | MsgConnectFailed _ | MsgFetchError _ | MsgTrainError _ | MsgSaveError _
  | MsgProductFailed _ _ | MsgPipelineError _ => ERROR
  | MsgInsufficient _ | MsgNoSales _ | MsgNoValid _ => WARNING
  | _ => INFO
  end.

Definition Log := list LogMsg.

(* ================================================================== *)
(** * Cleaner: [clean_and_prepare_data] *)

(** [drop_duplicates(subset=['ds'])]: keep, for each date, the first row
    in frame order. *)
Fixpoint drop_duplicates_from (A : Type) (seen : list Z) (rows : list (Row A))
  : list (Row A) :=
  match rows with
  | [] => []
  | r :: rs =>
      if existsb (Z.eqb (ds r)) seen then drop_duplicates_from seen rs
      else r :: drop_duplicates_from (ds r :: seen) rs
  end.

Definition drop_duplicates (A : Type) (rows : list (Row A)) : list (Row A) :=
  drop_duplicates_from [] rows.

(** [sort_values('ds')]: ascending by date.  Insertion from the right
    keeps rows of equal date in their original order. *)
Fixpoint insert_row (A : Type) (r : Row A) (rows : list (Row A)) : list (Row A) :=
  match rows with
  | [] => [r]
  | r' :: rs => if (ds r <=? ds r')%Z then r :: r' :: rs else r' :: insert_row r rs
  end.

Fixpoint sort_values (A : Type) (rows : list (Row A)) : list (Row A) :=
  match rows with
  | [] => []
  | r :: rs => insert_row r (sort_values rs)
  end.

(** [product_data['y'].fillna(0)]. *)
Definition fill_value (v : option Q) : Q :=
  match v with Some q => q | None => 0 end.

Definition fillna (rows : list (Row (option Q))) : list (Row Q) :=
  map (fun r => mkRow (idx r) (ds r) (fill_value (y r))) rows.

(** Lines 105-106: the columns [ds] and [y] of a group. *)
Definition to_rows (group : list (nat * SalesRecord)) : list (Row (option Q)) :=
  map (fun ir => mkRow (fst ir) (date (snd ir)) (quantity_sold (snd ir))) group.

Definition ys (rows : list (Row Q)) : list Q := map (@y Q) rows.

(** [product_data.loc[product_data['y'] > threshold, 'y'] = threshold]. *)
Definition clip_above (threshold : Q) (rows : list (Row Q)) : list (Row Q) :=
  map (fun r => if Qgtb (y r) threshold
                then mkRow (idx r) (ds r) threshold else r) rows.

(** [df.groupby('product_id')]: one group per distinct key, keys in
    ascending order, rows of a group in frame order with their labels. *)
Fixpoint unique_keys (seen : list string) (df : DataFrame) : list string :=
  match df with
  | [] => []
  | r :: rs =>
      if existsb (String.eqb (product_id r)) seen then unique_keys seen rs
      else product_id r :: unique_keys (product_id r :: seen) rs
  end.

Fixpoint insert_key (k : string) (ks : list string) : list string :=
  match ks with
  | [] => [k]
  | k' :: ks' => if String.leb k k' then k :: k' :: ks' else k' :: insert_key k ks'
  end.

Definition sort_keys (ks : list string) : list string :=
  fold_right insert_key [] ks.

Definition labelled (df : DataFrame) : list (nat * SalesRecord) :=
  combine (seq 0 (length df)) df.

Definition group_of (k : string) (df : DataFrame) : list (nat * SalesRecord) :=
  filter (fun ir => String.eqb (product_id (snd ir)) k) (labelled df).

Definition groupby (df : DataFrame) : list (string * list (nat * SalesRecord)) :=
  map (fun k => (k, group_of k df)) (sort_keys (unique_keys [] df)).

Section Cleaner.
  (** The square root used by [Series.std]. *)
Variable sqrt_fn : Q -> Q.

Definition std (l : list Q) : Q := sqrt_fn (variance l).

  (** Lines 104-112: the two Prophet columns, deduplicated, sorted,
      missing quantities filled. *)
Definition prepare (group : list (nat * SalesRecord)) : list (Row Q) :=
    let product_data := to_rows group in
    let product_data := sort_values (drop_duplicates product_data) in
    fillna product_data.

  (** Lines 119-124. *)
Definition cap_outliers (product_data : list (Row Q)) : list (Row Q) :=
    let mean_sales := mean (ys product_data) in
    let std_sales := std (ys product_data) in
    if Qgtb std_sales 0 then
      let outlier_threshold := mean_sales + 3 * std_sales in
      clip_above outlier_threshold product_data
    else product_data.

  (** The body of the loop for one group: the cleaned series, when the
      product is kept, and the messages logged. *)
Definition clean_group (pid : string) (group : list (nat * SalesRecord))
    : option ProductInfo * Log :=
    match group with
    | [] => (None, [])        (* no group is empty: see [groupby_nonempty] *)
    | first :: _ =>
        let name := product_name (snd first) in
        let product_data := prepare group in
        if (length product_data <? 2)%nat then
          (None, [MsgCleaning name pid; MsgInsufficient name])
        else
          let product_data := cap_outliers product_data in
          (Some (mkInfo product_data name),
           [MsgCleaning name pid; MsgCleaned name (length product_data)])
    end.

Fixpoint clean_groups (groups : list (string * list (nat * SalesRecord)))
    (cleaned_data : dict ProductInfo) (log : Log) : dict ProductInfo * Log :=
    match groups with
    | [] => (cleaned_data, log)
    | (pid, group) :: rest =>
        match clean_group pid group with
        | (Some info, msgs) =>
            clean_groups rest (dict_set pid info cleaned_data) (log ++ msgs)
        | (None, msgs) => clean_groups rest cleaned_data (log ++ msgs)
        end
    end.

Definition clean_and_prepare_data (df : DataFrame) : dict ProductInfo * Log :=
    clean_groups (groupby df) [] [].
End Cleaner.

(* ================================================================== *)
(** * Effects: results, the world, and the monad of the script *)

Inductive result (A : Type) :=
| Ok (a : A)
| Raise (e : Exn).
Arguments Ok {A} a.
Arguments Raise {A} e.

Inductive TrendStatus := trending | declining | stable.

(** One row of table [forecast_data]; timestamps in microseconds. *)
Record ForecastRow := mkForecastRow {
  row_user_id : string;
  row_product_id : string;
  forecast_7d : Z;
  forecast_30d : Z;
  forecast_90d : Z;
  forecast_365d : Z;
  row_trend_status : TrendStatus;
  row_confidence_score : Q;
  generated_at : Z;
  expires_at : Z
}.

(** What one call of the store meets at the server. *)
Inductive DbFault :=
| NoFault
| CursorFails
| DeleteFails
| InsertFails
| CommitFails.

(** The behaviour of the collaborators during one run. *)
Record Env := mkEnv {
  clock : nat -> Z;                       (* reading of the n-th [datetime.now()] *)
  connect_result : result unit;           (* [psycopg2.connect] *)
  fetch_result : string -> result DataFrame;  (* [pd.read_sql_query] *)
  save_fault : string -> DbFault          (* the fault met when saving a product *)
}.

(** The lines [main] prints. *)
Inductive Output :=
| OutUsage
| OutCompleted (user : string)
| OutFailed (e : Exn).

(** The mutable state the script acts on. *)
Record World := mkWorld {
  committed : list ForecastRow;   (* [forecast_data] as committed *)
  working : list ForecastRow;     (* the connection's view inside its transaction *)
  connection : bool;              (* [self.connection] is not [None] *)
  closed : bool;                  (* [connection.close()] has run *)
  ticks : nat;                    (* calls of [datetime.now()] so far *)
  log : Log;
  stdout : list Output
}.

Definition M (A : Type) : Type := World -> result A * World.

Definition ret {A} (a : A) : M A := fun w => (Ok a, w).

Definition raise {A} (e : Exn) : M A := fun w => (Raise e, w).

Definition bind {A B} (c : M A) (k : A -> M B) : M B :=
  fun w => match c w with
           | (Ok a, w') => k a w'
           | (Raise e, w') => (Raise e, w')
           end.

Notation "x <- c ;; k" := (bind c (fun x => k))
  (at level 61, c at next level, right associativity).
Notation "c ;;; k" := (bind c (fun _ => k))
  (at level 61, right associativity).

(** [try: c  except Exception as e: h e]. *)
Definition try_except {A} (c : M A) (h : Exn -> M A) : M A :=
  fun w => match c w with
           | (Ok a, w') => (Ok a, w')
           | (Raise e, w') => h e w'
           end.

(** [try: c  finally: f]; an exception of [f] replaces the outcome of [c]. *)
Definition try_finally {A} (c : M A) (f : M unit) : M A :=
  fun w => match c w with
           | (r, w') =>
               match f w' with
               | (Ok _, w'') => (r, w'')
               | (Raise e, w'') => (Raise e, w'')
               end
           end.

Definition logger (m : LogMsg) : M unit :=
  fun w => (Ok tt, mkWorld (committed w) (working w) (connection w) (closed w)
                     (ticks w) (log w ++ [m]) (stdout w)).

Definition logger_all (ms : Log) : M unit :=
  fun w => (Ok tt, mkWorld (committed w) (working w) (connection w) (closed w)
                     (ticks w) (log w ++ ms) (stdout w)).

Definition print (s : Output) : M unit :=
  fun w => (Ok tt, mkWorld (committed w) (working w) (connection w) (closed w)
                     (ticks w) (log w) (stdout w ++ [s])).

Definition lift {A} (r : result A) : M A := fun w => (r, w).

(* ================================================================== *)
(** * Forecast engine and diagnostics: [train_and_forecast] *)

Record ProphetConfig := mkConfig {
  daily_seasonality : bool;
  weekly_seasonality : bool;
  yearly_seasonality : bool;
  multiplicative_seasonality : bool;
  changepoint_prior_scale : Q;
  seasonality_prior_scale : Q;
  interval_width : Q
}.

(** One row of the frame returned by [model.predict]. *)
Record PredRow := mkPred {
  pred_ds : Z;
  yhat : Q;
  yhat_lower : Q;
  yhat_upper : Q;
  trend : Q
}.

(** The value stored under [forecast_<period>d]. *)
Record Horizon := mkHorizon {
  value : Z;
  lower_bound : Z;
  upper_bound : Z
}.

Record ForecastResult := mkResult {
  forecasts : dict Horizon;
  trend_status : TrendStatus;
  confidence_score : Q;
  mae : option Q;
  mape : option Q
}.

(** Python's [round(x)]: nearest integer, ties to the even one. *)
Definition py_round (x : Q) : Z :=
  let f := Qfloor x in
  match Qcompare (x - inject_Z f) (1 # 2) with
  | Lt => f
  | Gt => (f + 1)%Z
  | Eq => if Z.even f then f else (f + 1)%Z
  end.

(** [max(0, x)] with a float [x]. *)
Definition max0 (x : Q) : Q := if Qgtb x 0 then x else 0.

(** [df.tail(n)] and [df.head(n)]. *)
Definition tail (A : Type) (n : nat) (l : list A) : list A :=
  skipn (length l - n) l.

Definition head (A : Type) (n : nat) (l : list A) : list A := firstn n l.

(** [Series.mean()] of a series that may be empty: NaN on no value. *)
Definition series_mean (l : list Q) : option Q :=
  match l with
  | [] => None
  | _ => Some (mean l)
  end.

(** [f'forecast_{period}d']. *)
Definition forecast_key (period : nat) : string :=
  ("forecast_" ++ NilEmpty.string_of_uint (Nat.to_uint period) ++ "d")%string.

(** Modelled from the spec: [Prophet.make_future_dataframe(periods, freq='D')]
    is code of the Prophet library; "extend the series by H future calendar
    days at daily granularity": the dates of the history followed by the
    [periods] days after its last date. *)
Definition make_future_dataframe (history : list Z) (periods : nat) : list Z :=
  history ++ map (fun i => (last history 0 + Z.of_nat i)%Z) (seq 1 periods).

(** Lines 178-191: the entry of one horizon, from the extended prediction. *)
Definition horizon_entry (forecast : list PredRow) (period : nat) : Horizon :=
  let future_forecast := tail period forecast in
  let total_forecast := max0 (Qsum (map yhat future_forecast)) in
  let lower := Qsum (map yhat_lower future_forecast) in
  let upper := Qsum (map yhat_upper future_forecast) in
  mkHorizon (py_round total_forecast) (Z.max 0 (py_round lower)) (py_round upper).

(** [a - b] on two series: values are paired by index label.  The
    prediction is labelled [0 .. n-1]; [product_data] keeps the labels of
    the fetched frame.  A label present on one side only gives NaN, which
    [np.mean] then skips. *)
Definition aligned (f : Q -> Q -> Q) (product_data : list (Row Q))
  (in_sample : list PredRow) : list Q :=
  flat_map (fun r => match nth_error in_sample (idx r) with
                     | Some p => [f (y r) (yhat p)]
                     | None => []
                     end) product_data.

Definition abs_error (actual predicted : Q) : Q := Qabs (actual - predicted).

Definition abs_pct_error (actual predicted : Q) : Q :=
  Qabs ((actual - predicted) / Qmax actual 1).

(** Lines 202-208.  A comparison with NaN is false. *)
Definition classify_trend (forecast : list PredRow) : TrendStatus :=
  match series_mean (map trend (tail 30 forecast)),
        series_mean (map trend (head 30 forecast)) with
  | Some last30, Some first30 =>
      let recent_trend := last30 - first30 in
      if Qgtb recent_trend (1 # 10) then trending
      else if Qgtb (- (1 # 10)) recent_trend then declining
      else stable
  | _, _ => stable
  end.

(** Line 211: [max(0.3, min(0.95, 1 - mape / 100))], with Python's [min]
    and [max], which keep their first argument unless the second compares
    strictly below (above) it; [None] is a NaN [mape]. *)
Definition confidence_of (mape : option Q) : Q :=
  let inner :=
    match mape with
    | Some m => let x := 1 - m / 100 in if Qgtb (95 # 100) x then x else 95 # 100
    | None => 95 # 100
    end in
  if Qgtb inner (3 # 10) then inner else 3 # 10.

Definition default_periods : list nat := [7; 30; 90; 365]%nat.

(** Lines 153-161: the fixed configuration of the model. *)
Definition model_config (product_data : list (Row Q)) : ProphetConfig :=
  mkConfig true true (365 <? length product_data)%nat true (1 # 10) 10 (8 # 10).

(** Lines 197-199. *)
Definition in_sample_mae (product_data : list (Row Q))
  (in_sample_forecast : list PredRow) : option Q :=
  series_mean (aligned abs_error product_data in_sample_forecast).

Definition in_sample_mape (product_data : list (Row Q))
  (in_sample_forecast : list PredRow) : option Q :=
  option_map (fun m => m * 100)
    (series_mean (aligned abs_pct_error product_data in_sample_forecast)).

Definition day_us : Z := 86400000000.   (* [timedelta(hours=24)] in microseconds *)

Section Pipeline.
Variable sqrt_fn : Q -> Q.

  (** Prophet: a fitted model, [model.fit] and [model.predict]. *)
Variable Model : Type.
Variable fit : ProphetConfig -> list (Row Q) -> result Model.
Variable predict : Model -> list Z -> result (list PredRow).

Variable env : Env.

  (** The loop of lines 170-193; [forecast] is the loop variable that
      survives the loop. *)
Fixpoint forecast_loop (model : Model) (history : list Z) (periods : list nat)
    (forecasts : dict Horizon) (forecast : option (list PredRow))
    : M (dict Horizon * option (list PredRow)) :=
    match periods with
    | [] => ret (forecasts, forecast)
    | period :: rest =>
        let future := make_future_dataframe history period in
        fc <- lift (predict model future) ;;
        let entry := horizon_entry fc period in
        logger (MsgPeriodForecast period (value entry)) ;;;
        forecast_loop model history rest
          (dict_set (forecast_key period) entry forecasts) (Some fc)
    end.

Definition train_and_forecast (product_data : list (Row Q))
  (forecast_periods : list nat) : M ForecastResult :=
    try_except
      (logger MsgTraining ;;;
       model <- lift (fit (model_config product_data) product_data) ;;
       lp <- forecast_loop model (map (@ds Q) product_data) forecast_periods [] None ;;
       in_sample_forecast <- lift (predict model (map (@ds Q) product_data)) ;;
       let mae := in_sample_mae product_data in_sample_forecast in
       let mape := in_sample_mape product_data in_sample_forecast in
       match snd lp with
       | None => raise (UnboundLocalError "forecast")
       | Some forecast =>
           let trend_status := classify_trend forecast in
           let confidence_score := confidence_of mape in
           logger (MsgTrained mae mape) ;;;
           ret (mkResult (fst lp) trend_status confidence_score mae mape)
       end)
      (fun e => logger (MsgTrainError e) ;;; raise e).

  (** ** Result store: [save_forecasts_to_database] *)

Definition set_tables (c wk : list ForecastRow) : M unit :=
    fun w => (Ok tt, mkWorld c wk (connection w) (closed w) (ticks w) (log w) (stdout w)).

Definition same_key (user_id product_id : string) (r : ForecastRow) : bool :=
    String.eqb (row_user_id r) user_id && String.eqb (row_product_id r) product_id.

Definition open_cursor (fault : DbFault) : M unit :=
    match fault with
    | CursorFails => raise (OperationalError "cursor")
    | _ => ret tt
    end.

Definition execute_delete (fault : DbFault) (user_id product_id : string) : M unit :=
    match fault with
    | DeleteFails => raise (OperationalError "delete")
    | _ => fun w =>
        set_tables (committed w)
          (filter (fun r => negb (same_key user_id product_id r)) (working w)) w
    end.

Definition execute_insert (fault : DbFault) (r : ForecastRow) : M unit :=
    match fault with
    | InsertFails => raise (OperationalError "insert")
    | _ => fun w => set_tables (committed w) (working w ++ [r]) w
    end.

Definition commit (fault : DbFault) : M unit :=
    match fault with
    | CommitFails => raise (OperationalError "commit")
    | _ => fun w => set_tables (working w) (working w) w
    end.

Definition rollback : M unit :=
    fun w => set_tables (committed w) (committed w) w.

  (** [cursor.close()] in the [finally] clause: the name is unbound when
      [connection.cursor()] itself raised. *)
Definition close_cursor (fault : DbFault) : M unit :=
    match fault with
    | CursorFails => raise (UnboundLocalError "cursor")
    | _ => ret tt
    end.

Definition now : M Z :=
    fun w => (Ok (clock env (ticks w)),
              mkWorld (committed w) (working w) (connection w) (closed w)
                (S (ticks w)) (log w) (stdout w)).

  (** [forecasts_data['forecasts'][key]['value']]. *)
Definition lookup_value (key : string) (forecasts_data : ForecastResult) : M Z :=
    match dict_get key (forecasts forecasts_data) with
    | Some h => ret (value h)
    | None => raise (KeyError key)
    end.

Definition save_forecasts_to_database (user_id product_id : string)
    (forecasts_data : ForecastResult) : M unit :=
    let fault := save_fault env product_id in
    try_finally
      (try_except
         (open_cursor fault ;;;
          execute_delete fault user_id product_id ;;;
          t <- now ;;
          let expires := (t + day_us)%Z in
          f7 <- lookup_value "forecast_7d" forecasts_data ;;
          f30 <- lookup_value "forecast_30d" forecasts_data ;;
          f90 <- lookup_value "forecast_90d" forecasts_data ;;
          f365 <- lookup_value "forecast_365d" forecasts_data ;;
          generated <- now ;;
          execute_insert fault
            (mkForecastRow user_id product_id f7 f30 f90 f365
               (trend_status forecasts_data) (confidence_score forecasts_data)
               generated expires) ;;;
          commit fault ;;;
          logger (MsgSaved product_id))
         (fun e => logger (MsgSaveError e) ;;; rollback ;;; raise e))
      (close_cursor fault).

  (** ** Orchestrator: [run_forecasting_for_user] and [main] *)

Definition set_connection (conn cl : bool) : M unit :=
    fun w => (Ok tt, mkWorld (committed w) (working w) conn cl (ticks w) (log w) (stdout w)).

Definition connect_to_database : M unit :=
    try_except
      (lift (connect_result env) ;;;
       set_connection true false ;;;
       rollback ;;;                  (* a new connection sees the committed table *)
       logger MsgConnected)
      (fun e => logger (MsgConnectFailed e) ;;; raise e).

Definition fetch_sales_data (user_id : string) : M DataFrame :=
    try_except
      (df <- lift (fetch_result env user_id) ;;
       logger (MsgFetched (length df) user_id) ;;;
       ret df)
      (fun e => logger (MsgFetchError e) ;;; raise e).

  (** The body of the [for] loop of lines 313-327 for one product: the
    counter after the [try] block or after its [except] clause. *)
Definition attempt_product (user_id product_id : string)
  (product_info : ProductInfo) (successful_forecasts : nat) : M nat :=
    try_except
      (logger (MsgGenerating (info_product_name product_info)) ;;;
       forecast_results <-
         train_and_forecast (data product_info) default_periods ;;
       save_forecasts_to_database user_id product_id forecast_results ;;;
       ret (S successful_forecasts))
      (fun e => logger (MsgProductFailed product_id e) ;;;
                ret successful_forecasts).

Fixpoint product_loop (user_id : string) (items : dict ProductInfo)
  (successful_forecasts : nat) : M nat :=
    match items with
    | [] => ret successful_forecasts
    | (product_id, product_info) :: rest =>
        n <- attempt_product user_id product_id product_info successful_forecasts ;;
        product_loop user_id rest n
    end.

Definition close_connection : M unit :=
    fun w => if connection w then set_connection true true w else (Ok tt, w).

Definition run_forecasting_for_user (user_id : string) : M unit :=
    try_finally
      (try_except
         (logger (MsgStart user_id) ;;;
          connect_to_database ;;;
          sales_data <- fetch_sales_data user_id ;;
          match sales_data with
          | [] => logger (MsgNoSales user_id)
          | _ =>
              let cleaned := clean_and_prepare_data sqrt_fn sales_data in
              logger_all (snd cleaned) ;;;
              match fst cleaned with
              | [] => logger (MsgNoValid user_id)
              | cleaned_data =>
                  let total_products := length cleaned_data in
                  successful_forecasts <- product_loop user_id cleaned_data 0 ;;
                  logger (MsgCompleted successful_forecasts total_products)
              end
          end)
         (fun e => logger (MsgPipelineError e) ;;; raise e))
      close_connection.

  (** [main]: the exit code of the process.  [argv] is [sys.argv]. *)
Definition main (argv : list string) : M Z :=
    match argv with
    | [_; user_id] =>
        try_except
          (set_connection false false ;;;       (* [ProphetForecaster()] *)
           run_forecasting_for_user user_id ;;;
           print (OutCompleted user_id) ;;;
           ret 0%Z)
          (fun e => print (OutFailed e) ;;; ret 1%Z)
    | _ => print OutUsage ;;; ret 1%Z
    end.
End Pipeline.

(* ================================================================== *)
(** * Vocabulary of the statements *)

(** The first row of a given date. *)
Definition first_of_date (A : Type) (d : Z) (rows : list (Row A)) : option (Row A) :=
  find (fun r => (ds r =? d)%Z) rows.

(** Dates in ascending order. *)
Definition ascending (A : Type) (rows : list (Row A)) : Prop :=
  StronglySorted (fun r r' => (ds r <= ds r')%Z) rows.

(** The value the outlier step leaves in place of [v], for a series
    whose quantities before the step are [series]. *)
Definition outlier_cap (sqrt_fn : Q -> Q) (series : list Q) (v : Q) : Q :=
  let threshold := mean series + 3 * std sqrt_fn series in
  if Qgtb (std sqrt_fn series) 0 then (if Qgtb v threshold then threshold else v)
  else v.

(** The groups the cleaner keeps, in the order it meets them. *)
Definition kept_groups (sqrt_fn : Q -> Q)
  (groups : list (string * list (nat * SalesRecord))) : dict ProductInfo :=
  flat_map (fun g => match fst (clean_group sqrt_fn (fst g) (snd g)) with
                     | Some info => [(fst g, info)]
                     | None => []
                     end) groups.

(** A concrete square root for the examples: truncated to six decimals. *)
Definition sqrt_micro (x : Q) : Q :=
  inject_Z (Z.sqrt (Qfloor (x * 1000000000000))) / 1000000.

(* ================================================================== *)
(** * Example inputs *)

(** One product, a duplicated first day: 10 then 20 on day 1, 12 on day 2. *)
Definition dup_df : DataFrame :=
  [ mkSale "p" "Widget" 1 (Some 10) 1;
    mkSale "p" "Widget" 1 (Some 20) 1;
    mkSale "p" "Widget" 2 (Some 12) 1 ].

Definition dup_info : ProductInfo :=
  Eval vm_compute in
    match dict_get "p" (fst (clean_and_prepare_data sqrt_micro dup_df)) with
    | Some info => info
    | None => mkInfo [] ""
    end.

(** One product with a negative quantity (a return) on each of two days. *)
Definition returns_df : DataFrame :=
  [ mkSale "p" "Widget" 1 (Some (-5)) 1;
    mkSale "p" "Widget" 2 (Some (-5)) 1 ].

Definition returns_info : ProductInfo :=
  Eval vm_compute in
    match dict_get "p" (fst (clean_and_prepare_data sqrt_micro returns_df)) with
    | Some info => info
    | None => mkInfo [] ""
    end.

(** Ten days without a sale and one day with 100. *)
Definition spike_df : DataFrame :=
  map (fun d => mkSale "p" "Widget" (Z.of_nat d) (Some 0) 1) (seq 1 10)
  ++ [ mkSale "p" "Widget" 11 (Some 100) 1 ].

Definition spike_info : ProductInfo :=
  Eval vm_compute in
    match dict_get "p" (fst (clean_and_prepare_data sqrt_micro spike_df)) with
    | Some info => info
    | None => mkInfo [] ""
    end.

(** The world with further messages logged and nothing else changed. *)
Definition add_log (w : World) (ms : Log) : World :=
  mkWorld (committed w) (working w) (connection w) (closed w) (ticks w)
    (log w ++ ms) (stdout w).

(** A computation that only logs: its result does not depend on the world. *)
Definition logs_only (A : Type) (c : M A) (r : result A) (ms : Log) : Prop :=
  forall w, c w = (r, add_log w ms).

(** [clamp(x, lo, hi)]. *)
Definition clamp (x lo hi : Q) : Q := Qmax lo (Qmin hi x).

(** The row a successful save inserts, given the two clock readings. *)
Definition stored_row (user_id product_id : string) (r : ForecastResult)
  (f7 f30 f90 f365 : Z) (first_reading second_reading : Z) : ForecastRow :=
  mkForecastRow user_id product_id f7 f30 f90 f365
    (trend_status r) (confidence_score r) second_reading (first_reading + day_us)%Z.

(** The summaries stored for a (tenant, product) key. *)
Definition stored_for (user_id product_id : string) (table : list ForecastRow)
  : list ForecastRow :=
  filter (same_key user_id product_id) table.

(** The keys the store reads. *)
Definition persisted_keys : list string :=
  ["forecast_7d"; "forecast_30d"; "forecast_90d"; "forecast_365d"]%string.

(** A clock that advances one microsecond between two readings. *)
Definition steady_clock (n : nat) : Z := Z.of_nat n.

(** A server that answers every call. *)
Definition quiet_env (df : DataFrame) : Env :=
  mkEnv steady_clock (Ok tt) (fun _ => Ok df) (fun _ => NoFault).

(** A server on which every save meets the given fault. *)
Definition faulty_env (fault : DbFault) : Env :=
  mkEnv steady_clock (Ok tt) (fun _ => Ok []) (fun _ => fault).

Definition empty_world : World := mkWorld [] [] false false 0 [] [].

Definition sample_result : ForecastResult :=
  mkResult
    [ ("forecast_7d", mkHorizon 14 7 21); ("forecast_30d", mkHorizon 60 30 90);
      ("forecast_90d", mkHorizon 180 90 270);
      ("forecast_365d", mkHorizon 730 365 1095) ]%string
    trending (95 # 100) None None.

Definition other_result : ForecastResult :=
  mkResult
    [ ("forecast_7d", mkHorizon 7 0 15); ("forecast_30d", mkHorizon 31 2 70);
      ("forecast_90d", mkHorizon 93 40 150);
      ("forecast_365d", mkHorizon 360 100 700) ]%string
    stable (3 # 10) None None.

(** A stand-in for Prophet: every fit succeeds; the prediction for a date
    is 2 units a day within [1, 3], on a trend that grows by one a day. *)
Definition stub_fit (c : ProphetConfig) (product_data : list (Row Q)) : result unit :=
  Ok tt.

Definition stub_predict (m : unit) (dates : list Z) : result (list PredRow) :=
  Ok (map (fun d => mkPred d 2 1 3 (inject_Z d)) dates).

Definition two_points : list (Row Q) := [mkRow 0%nat 1%Z 10; mkRow 1%nat 2%Z 12].

Definition stub_result : ForecastResult :=
  Eval vm_compute in
    match fst (train_and_forecast stub_fit stub_predict two_points default_periods
                 empty_world) with
    | Ok r => r
    | Raise _ => mkResult [] stable 0 None None
    end.

Definition stub_world : World :=
  Eval vm_compute in
    snd (train_and_forecast stub_fit stub_predict two_points default_periods empty_world).

(** The stand-in asked for the horizons 7 and 30 only. *)
Definition short_result : ForecastResult :=
  Eval vm_compute in
    match fst (train_and_forecast stub_fit stub_predict two_points [7; 30]%nat
                 empty_world) with
    | Ok r => r
    | Raise _ => mkResult [] stable 0 None None
    end.

Definition short_world : World :=
  Eval vm_compute in
    snd (train_and_forecast stub_fit stub_predict two_points [7; 30]%nat empty_world).

(** Whether the [try] block of a product completes.  The outcome does not
    depend on the world the block runs in (see [attempt_product_step]). *)
Definition product_succeeds (Model : Type)
  (fit : ProphetConfig -> list (Row Q) -> result Model)
  (predict : Model -> list Z -> result (list PredRow)) (env : Env)
  (user_id : string) (item : string * ProductInfo) : bool :=
  match fst (train_and_forecast fit predict (data (snd item)) default_periods
               empty_world) with
  | Ok r =>
      match fst (save_forecasts_to_database env user_id (fst item) r empty_world) with
      | Ok _ => true
      | Raise _ => false
      end
  | Raise _ => false
  end.

(** Three products; the second has three days of sales. *)
Definition three_df : DataFrame :=
  [ mkSale "a" "Anvil" 1 (Some 4) 1;  mkSale "a" "Anvil" 2 (Some 6) 1;
    mkSale "b" "Bolt" 1 (Some 1) 1;   mkSale "b" "Bolt" 2 (Some 2) 1;
    mkSale "b" "Bolt" 3 (Some 3) 1;
    mkSale "c" "Crate" 1 (Some 9) 1;  mkSale "c" "Crate" 2 (Some 8) 1 ].

(** A stand-in whose fit fails on a series of three points. *)
Definition flaky_fit (c : ProphetConfig) (product_data : list (Row Q)) : result unit :=
  if (length product_data =? 3)%nat then Raise ProphetError else Ok tt.

(** Two products; the first has a single day of sales. *)
Definition one_day_df : DataFrame :=
  [ mkSale "a" "Anvil" 1 (Some 4) 1;
    mkSale "b" "Bolt" 1 (Some 1) 1;   mkSale "b" "Bolt" 2 (Some 2) 1 ].

(** A server that refuses the connection. *)
Definition down_env : Env :=
  mkEnv steady_clock (Raise (OperationalError "connection refused"))
    (fun _ => Ok []) (fun _ => NoFault).

(** A server whose sales query fails. *)
Definition unreadable_env : Env :=
  mkEnv steady_clock (Ok tt) (fun _ => Raise (OperationalError "sales_data"))
    (fun _ => NoFault).

(** One product with a single day of sales. *)
Definition lone_df : DataFrame := [ mkSale "a" "Anvil" 1 (Some 4) 1 ].

(** A stand-in whose prediction fails. *)
Definition failing_predict (m : unit) (dates : list Z) : result (list PredRow) :=
  Raise ProphetError.

(** The stand-in asked for the horizon 7 only. *)
Definition week_result : ForecastResult :=
  Eval vm_compute in
    match fst (train_and_forecast stub_fit stub_predict two_points [7]%nat
                 empty_world) with
    | Ok r => r
    | Raise _ => mkResult [] stable 0 None None
    end.

Definition week_world : World :=
  Eval vm_compute in
    snd (train_and_forecast stub_fit stub_predict two_points [7]%nat empty_world).

(** The series of a product whose records are rows 2 and 3 of the frame. *)
Definition late_points : list (Row Q) := [mkRow 2%nat 1%Z 9; mkRow 3%nat 2%Z 8].

Definition late_result : ForecastResult :=
  Eval vm_compute in
    match fst (train_and_forecast stub_fit stub_predict late_points default_periods
                 empty_world) with
    | Ok r => r
    | Raise _ => mkResult [] stable 0 None None
    end.

Definition late_world : World :=
  Eval vm_compute in
    snd (train_and_forecast stub_fit stub_predict late_points default_periods
           empty_world).

(** A table that already holds a summary of tenant v and an old summary of
    product b of tenant u. *)
Definition busy_table : list ForecastRow :=
  [ mkForecastRow "v" "a" 1 2 3 4 stable (1 # 2) 0 day_us;
    mkForecastRow "u" "b" 5 6 7 8 trending (1 # 2) 0 day_us ].

Definition busy_world : World := mkWorld busy_table busy_table false false 0 [] [].

(** Two predicted days. *)
Definition two_days : list PredRow := [mkPred 3 2 1 3 3; mkPred 4 2 1 3 4].

(** The stand-in asked for the horizons in the order 365, 7. *)
Definition reversed_result : ForecastResult :=
  Eval vm_compute in
    match fst (train_and_forecast stub_fit stub_predict two_points [365; 7]%nat
                 empty_world) with
    | Ok r => r
    | Raise _ => mkResult [] stable 0 None None
    end.

Definition reversed_world : World :=
  Eval vm_compute in
    snd (train_and_forecast stub_fit stub_predict two_points [365; 7]%nat empty_world).

(* ================================================================== *)
(** * Facts about numbers and dictionaries *)

Lemma Qgtb_true (x y : Q) : Qgtb x y = true <-> y < x.
Proof.
  unfold Qgtb. rewrite negb_true_iff. split; intro H.
  - apply Qnot_le_lt. intro L. apply Qle_bool_iff in L. congruence.
  - destruct (Qle_bool x y) eqn:E; [|reflexivity].
    apply Qle_bool_iff in E. exfalso. apply (Qlt_not_le _ _ H E).
Qed.

Lemma Qgtb_false (x y : Q) : Qgtb x y = false <-> x <= y.
Proof.
  unfold Qgtb. rewrite negb_false_iff. apply Qle_bool_iff.
Qed.


Section DictFacts.
Variable V : Type.
Implicit Types (k : string) (v : V) (d : dict V).

Lemma dict_get_set_same k v d : dict_get k (dict_set k v d) = Some v.
  Proof.
    induction d as [|[k' v'] d IH]; simpl.
    - now rewrite String.eqb_refl.
    - destruct (String.eqb k' k) eqn:E; simpl.
      + now rewrite String.eqb_refl.
      + now rewrite E.
  Qed.

Lemma dict_get_set_other k k' v d :
    k <> k' -> dict_get k' (dict_set k v d) = dict_get k' d.
  Proof.
    intro N. induction d as [|[k0 v0] d IH]; simpl.
    - destruct (String.eqb_spec k k'); [contradiction | reflexivity].
    - destruct (String.eqb_spec k0 k) as [->|N0]; simpl.
      + destruct (String.eqb_spec k k'); [contradiction | reflexivity].
      + destruct (String.eqb k0 k'); [reflexivity | exact IH].
  Qed.

Lemma dict_get_In k d :
    (exists v, dict_get k d = Some v) <-> In k (dict_keys d).
  Proof.
    induction d as [|[k' v'] d IH]; simpl.
    - split; [intros [v H]; discriminate | tauto].
    - destruct (String.eqb_spec k' k) as [->|N].
      + split; [auto | eauto].
      + rewrite IH. tauto.
  Qed.

Lemma dict_get_None k d : dict_get k d = None <-> ~ In k (dict_keys d).
  Proof.
    rewrite <- dict_get_In. destruct (dict_get k d).
    - split; [discriminate | intro N; exfalso; apply N; eauto].
    - split; [intros _ [v H]; discriminate | reflexivity].
  Qed.

Lemma dict_set_new k v d :
    ~ In k (dict_keys d) -> dict_set k v d = d ++ [(k, v)].
  Proof.
    induction d as [|[k' v'] d IH]; simpl; intro N; [reflexivity|].
    destruct (String.eqb_spec k' k) as [->|N'].
    - tauto.
    - f_equal. apply IH. tauto.
  Qed.

Lemma dict_keys_set k v d k' :
    In k' (dict_keys (dict_set k v d)) <-> k' = k \/ In k' (dict_keys d).
  Proof.
    induction d as [|[k0 v0] d IH]; simpl.
    - intuition.
    - destruct (String.eqb_spec k0 k) as [->|N]; simpl.
      + intuition.
      + rewrite IH. intuition.
  Qed.
End DictFacts.

(* ================================================================== *)
(** * Facts about the cleaner *)

Section CleanerFacts.
Variable A : Type.
Implicit Types (r : Row A) (rows : list (Row A)).

Lemma drop_duplicates_from_In seen rows r :
    In r (drop_duplicates_from seen rows) -> In r rows /\ ~ In (ds r) seen.
  Proof.
    revert seen. induction rows as [|r1 rs IH]; simpl; intros seen H; [tauto|].
    destruct (existsb (Z.eqb (ds r1)) seen) eqn:E.
    - apply IH in H. tauto.
    - destruct H as [<- | H].
      + split; [now left|]. intro I.
        assert (existsb (Z.eqb (ds r1)) seen = true) as C.
        { apply existsb_exists. exists (ds r1). split; [exact I | apply Z.eqb_refl]. }
        congruence.
      + apply IH in H. simpl in H. tauto.
  Qed.

Lemma drop_duplicates_from_NoDup seen rows :
    NoDup (map (@ds A) (drop_duplicates_from seen rows)).
  Proof.
    revert seen. induction rows as [|r1 rs IH]; simpl; intro seen; [constructor|].
    destruct (existsb (Z.eqb (ds r1)) seen); [apply IH|].
    simpl. constructor; [|apply IH].
    intro I. apply in_map_iff in I. destruct I as [r [E I]].
    apply drop_duplicates_from_In in I. simpl in I. intuition congruence.
  Qed.

Lemma drop_duplicates_from_first seen rows r :
    In r (drop_duplicates_from seen rows) -> first_of_date (ds r) rows = Some r.
  Proof.
    unfold first_of_date.
    revert seen. induction rows as [|r1 rs IH]; simpl; intros seen H; [tauto|].
    destruct (existsb (Z.eqb (ds r1)) seen) eqn:E.
    - pose proof (drop_duplicates_from_In _ _ _ H) as [_ N].
      apply existsb_exists in E. destruct E as [d [I Ed]].
      apply Z.eqb_eq in Ed. subst d.
      destruct (Z.eqb_spec (ds r1) (ds r)) as [Eq|_]; [congruence|].
      eapply IH; eassumption.
    - destruct H as [<- | H]; [now rewrite Z.eqb_refl|].
      pose proof (drop_duplicates_from_In _ _ _ H) as [_ N]. simpl in N.
      destruct (Z.eqb_spec (ds r1) (ds r)) as [Eq|_]; [tauto|].
      eapply IH; eassumption.
  Qed.

Lemma insert_row_first d x rows :
    first_of_date d (insert_row x rows) =
    if (ds x =? d)%Z then Some x else first_of_date d rows.
  Proof.
    unfold first_of_date.
    induction rows as [|r1 rs IH]; simpl; [reflexivity|].
    destruct (Z.leb_spec (ds x) (ds r1)) as [L|L]; simpl; [reflexivity|].
    rewrite IH.
    destruct (Z.eqb_spec (ds r1) d) as [E1|N1]; [|reflexivity].
    destruct (Z.eqb_spec (ds x) d) as [E2|N2]; [lia | reflexivity].
  Qed.

  (** Sorting by date keeps, for each date, the row that came first. *)
Lemma sort_values_first d rows :
    first_of_date d (sort_values rows) = first_of_date d rows.
  Proof.
    induction rows as [|r1 rs IH]; simpl; [reflexivity|].
    rewrite insert_row_first, IH. reflexivity.
  Qed.

Lemma insert_row_perm x rows : Permutation (insert_row x rows) (x :: rows).
  Proof.
    induction rows as [|r1 rs IH]; simpl; [reflexivity|].
    destruct (ds x <=? ds r1)%Z; [reflexivity|].
    rewrite IH. apply perm_swap.
  Qed.

Lemma sort_values_perm rows : Permutation (sort_values rows) rows.
  Proof.
    induction rows as [|r1 rs IH]; simpl; [reflexivity|].
    rewrite insert_row_perm. now constructor.
  Qed.

Lemma insert_row_ascending x rows :
    ascending rows -> ascending (insert_row x rows).
  Proof.
    unfold ascending.
    induction rows as [|r1 rs IH]; simpl; intro S.
    - repeat constructor.
    - inversion S as [|? ? S' F]; subst.
      destruct (Z.leb_spec (ds x) (ds r1)) as [L|L].
      + constructor; [exact S|]. constructor; [exact L|].
        eapply Forall_impl; [|exact F]. simpl. intros; lia.
      + constructor; [apply IH; exact S'|].
        eapply Permutation_Forall; [symmetry; apply insert_row_perm|].
        constructor; [lia | exact F].
  Qed.

Lemma sort_values_ascending rows : ascending (sort_values rows).
  Proof.
    induction rows as [|r1 rs IH]; simpl; [constructor|].
    now apply insert_row_ascending.
  Qed.

  (** What the cleaner keeps after [drop_duplicates] and [sort_values]. *)
Lemma dedup_sorted_spec rows :
    let kept := sort_values (drop_duplicates rows) in
    NoDup (map (@ds A) kept) /\ ascending kept /\
    forall r, In r kept -> first_of_date (ds r) (sort_values rows) = Some r.
  Proof.
    simpl. split; [|split].
    - eapply Permutation_NoDup.
      + apply Permutation_map. symmetry. apply sort_values_perm.
      + apply drop_duplicates_from_NoDup.
    - apply sort_values_ascending.
    - intros r I. rewrite sort_values_first.
      eapply drop_duplicates_from_first.
      eapply Permutation_in; [apply sort_values_perm | exact I].
  Qed.
End CleanerFacts.

Section CleanFacts.
Variable sqrt_fn : Q -> Q.

Lemma fillna_ds rows : map (@ds Q) (fillna rows) = map (@ds (option Q)) rows.
Proof. unfold fillna. rewrite map_map. reflexivity. Qed.

Lemma cap_outliers_map pd :
  cap_outliers sqrt_fn pd =
  map (fun r => mkRow (idx r) (ds r) (outlier_cap sqrt_fn (ys pd) (y r))) pd.
Proof.
  unfold cap_outliers, outlier_cap, clip_above.
  destruct (Qgtb (std sqrt_fn (ys pd)) 0).
  - apply map_ext. intros [i d v]; simpl.
    destruct (Qgtb v _); reflexivity.
  - rewrite <- (map_id pd) at 1. apply map_ext. intros [i d v]; reflexivity.
Qed.

Lemma cap_outliers_ds pd : map (@ds Q) (cap_outliers sqrt_fn pd) = map (@ds Q) pd.
Proof. rewrite cap_outliers_map, map_map. reflexivity. Qed.

Lemma cap_outliers_length pd : length (cap_outliers sqrt_fn pd) = length pd.
Proof. rewrite cap_outliers_map. apply length_map. Qed.

Lemma clean_group_Some pid group info msgs :
  clean_group sqrt_fn pid group = (Some info, msgs) ->
  (2 <= length (prepare group))%nat /\
  data info = cap_outliers sqrt_fn (prepare group).
Proof.
  unfold clean_group. destruct group as [|first rest]; [discriminate|].
  destruct (Nat.ltb_spec (length (prepare (first :: rest))) 2); [discriminate|].
  intro E. injection E as <- _. simpl. split; [assumption | reflexivity].
Qed.

Lemma clean_group_None pid group :
  (length (prepare group) < 2)%nat -> fst (clean_group sqrt_fn pid group) = None.
Proof.
  unfold clean_group. destruct group as [|first rest]; [reflexivity|].
  intro L. destruct (Nat.ltb_spec (length (prepare (first :: rest))) 2); [reflexivity | lia].
Qed.

Lemma clean_groups_lookup groups : forall d lg pid info,
  dict_get pid (fst (clean_groups sqrt_fn groups d lg)) = Some info ->
  dict_get pid d = Some info \/
  exists group, In (pid, group) groups /\
                fst (clean_group sqrt_fn pid group) = Some info.
Proof.
  induction groups as [|[k g] rest IH]; simpl; intros d lg pid info H; [now left|].
  destruct (clean_group sqrt_fn k g) as [[i|] msgs] eqn:E.
  - apply IH in H. destruct H as [H | [group [I F]]].
    + destruct (string_dec k pid) as [->|N].
      * rewrite dict_get_set_same in H. injection H as ->.
        right. exists g. rewrite E. auto.
      * rewrite dict_get_set_other in H by exact N. now left.
    + right. exists group. auto.
  - apply IH in H. destruct H as [H | [group [I F]]]; [now left|].
    right. exists group. auto.
Qed.

Lemma clean_groups_kept groups : forall d lg,
  NoDup (map fst groups) ->
  (forall k, In k (dict_keys d) -> ~ In k (map fst groups)) ->
  fst (clean_groups sqrt_fn groups d lg) = d ++ kept_groups sqrt_fn groups.
Proof.
  induction groups as [|[k g] rest IH]; simpl; intros d lg ND Dj.
  - now rewrite app_nil_r.
  - inversion ND as [|? ? Nk ND']; subst.
    destruct (clean_group sqrt_fn k g) as [[i|] msgs] eqn:E; simpl.
    + rewrite IH; [|exact ND'|].
      * rewrite dict_set_new; [now rewrite <- app_assoc|].
        intro I. apply (Dj _ I). now left.
      * intros k' I. apply dict_keys_set in I. destruct I as [->|I]; [exact Nk|].
        intro I'. apply (Dj _ I). now right.
    + apply IH; [exact ND'|]. intros k' I I'. apply (Dj _ I). now right.
Qed.

Lemma unique_keys_In seen df k :
  In k (unique_keys seen df) -> ~ In k seen /\ exists r, In r df /\ product_id r = k.
Proof.
  revert seen. induction df as [|r rs IH]; simpl; intros seen H; [tauto|].
  destruct (existsb (String.eqb (product_id r)) seen) eqn:E.
  - apply IH in H. destruct H as [N [r' [I Ek]]]. eauto.
  - destruct H as [<- | H].
    + split; [|eauto]. intro I.
      assert (existsb (String.eqb (product_id r)) seen = true) as C.
      { apply existsb_exists. exists (product_id r). split; [exact I | apply String.eqb_refl]. }
      congruence.
    + apply IH in H. destruct H as [N [r' [I Ek]]]. simpl in N. split; [tauto | eauto].
Qed.

Lemma unique_keys_NoDup seen df : NoDup (unique_keys seen df).
Proof.
  revert seen. induction df as [|r rs IH]; simpl; intro seen; [constructor|].
  destruct (existsb (String.eqb (product_id r)) seen); [apply IH|].
  constructor; [|apply IH]. intro I. apply unique_keys_In in I. simpl in I. tauto.
Qed.

Lemma insert_key_perm k ks : Permutation (insert_key k ks) (k :: ks).
Proof.
  induction ks as [|k' ks IH]; simpl; [reflexivity|].
  destruct (String.leb k k'); [reflexivity|].
  rewrite IH. apply perm_swap.
Qed.

Lemma sort_keys_perm ks : Permutation (sort_keys ks) ks.
Proof.
  induction ks as [|k ks IH]; simpl; [reflexivity|].
  rewrite insert_key_perm. now constructor.
Qed.

Lemma groupby_keys df : map fst (groupby df) = sort_keys (unique_keys [] df).
Proof. unfold groupby. rewrite map_map. simpl. apply map_id. Qed.

Lemma groupby_NoDup df : NoDup (map fst (groupby df)).
Proof.
  rewrite groupby_keys. eapply Permutation_NoDup.
  - symmetry. apply sort_keys_perm.
  - apply unique_keys_NoDup.
Qed.

Lemma groupby_In df pid group :
  In (pid, group) (groupby df) -> group = group_of pid df.
Proof.
  unfold groupby. intro I. apply in_map_iff in I.
  destruct I as [k [E _]]. now injection E as <- <-.
Qed.

(** The dictionary the cleaner returns: the kept groups, in group order. *)
Lemma clean_and_prepare_data_kept df :
  fst (clean_and_prepare_data sqrt_fn df) = kept_groups sqrt_fn (groupby df).
Proof.
  unfold clean_and_prepare_data.
  rewrite clean_groups_kept; [reflexivity | apply groupby_NoDup | intros k []].
Qed.

(** A product is in the result only with at least two cleaned points, and
    its series is the capped, prepared group. *)
Lemma clean_and_prepare_data_lookup df pid info :
  dict_get pid (fst (clean_and_prepare_data sqrt_fn df)) = Some info ->
  (2 <= length (prepare (group_of pid df)))%nat /\
  data info = cap_outliers sqrt_fn (prepare (group_of pid df)).
Proof.
  unfold clean_and_prepare_data. intro H.
  apply clean_groups_lookup in H. destruct H as [H | [group [I F]]]; [discriminate|].
  apply groupby_In in I. subst group.
  destruct (clean_group sqrt_fn pid (group_of pid df)) as [o msgs] eqn:E.
  simpl in F. subst o. eapply clean_group_Some. exact E.
Qed.
End CleanFacts.

(* ================================================================== *)
(** * Cleaner: duplicate dates (C3) and outliers (C7) *)

Lemma Qsum_nonneg l : Forall (fun v => 0 <= v) l -> 0 <= Qsum l.
Proof.
  induction 1 as [|v l Hv _ IH]; simpl; [apply Qle_refl|]. lra.
Qed.

Lemma mean_nonneg l : Forall (fun v => 0 <= v) l -> 0 <= mean l.
Proof.
  intro F. unfold mean, Qdiv. apply Qmult_le_0_compat; [now apply Qsum_nonneg|].
  apply Qinv_le_0_compat. change 0 with (inject_Z 0). rewrite <- Zle_Qle. lia.
Qed.

Lemma outlier_cap_le sqrt_fn series v :
  0 < std sqrt_fn series ->
  outlier_cap sqrt_fn series v <= mean series + 3 * std sqrt_fn series.
Proof.
  intro P. unfold outlier_cap.
  apply Qgtb_true in P. rewrite P.
  destruct (Qgtb v _) eqn:E; [apply Qle_refl | now apply Qgtb_false].
Qed.

Lemma outlier_cap_nonneg sqrt_fn series v :
  Forall (fun u => 0 <= u) series -> 0 <= v -> 0 <= outlier_cap sqrt_fn series v.
Proof.
  intros F Hv. unfold outlier_cap.
  destruct (Qgtb (std sqrt_fn series) 0) eqn:S; [|exact Hv].
  destruct (Qgtb v _); [|exact Hv].
  apply Qgtb_true in S. pose proof (mean_nonneg F) as M. lra.
Qed.

Lemma group_of_In pid df i rec :
  In (i, rec) (group_of pid df) -> In rec df /\ product_id rec = pid.
Proof.
  unfold group_of, labelled. intro I. apply filter_In in I. simpl in I.
  destruct I as [I E]. apply String.eqb_eq in E. split; [|exact E].
  eapply in_combine_r. exact I.
Qed.

(** Every prepared row comes from a record of the group: its quantity
    filled, its date and label kept. *)
Lemma prepare_In group r :
  In r (prepare group) ->
  exists r0, In r0 (sort_values (drop_duplicates (to_rows group))) /\
             r = mkRow (idx r0) (ds r0) (fill_value (y r0)) /\
             exists ir, In ir group /\ r0 = mkRow (fst ir) (date (snd ir)) (quantity_sold (snd ir)).
Proof.
  unfold prepare, fillna. intro I. apply in_map_iff in I.
  destruct I as [r0 [<- I]]. exists r0. split; [exact I|]. split; [reflexivity|].
  assert (In r0 (to_rows group)) as I0.
  { eapply drop_duplicates_from_In.
    eapply Permutation_in; [apply sort_values_perm | exact I]. }
  unfold to_rows in I0. apply in_map_iff in I0. destruct I0 as [ir [<- Ii]]. eauto.
Qed.

(** C3.  In every cleaned series each date occurs at most once, and the row
    kept for a date is the first row of that date once the group's records
    are sorted in ascending date order (rows of equal date in their frame
    order): the cleaned point carries that row's label and that row's
    quantity, a missing quantity filled with 0 and then passed through
    the outlier cap. *)
Theorem C3_duplicate_dates_keep_first
  (sqrt_fn : Q -> Q) (df : DataFrame) (pid : string) (info : ProductInfo) :
  dict_get pid (fst (clean_and_prepare_data sqrt_fn df)) = Some info ->
  NoDup (map (@ds Q) (data info)) /\
  forall r, In r (data info) ->
    exists r0,
      first_of_date (ds r) (sort_values (to_rows (group_of pid df))) = Some r0 /\
      idx r = idx r0 /\
      y r = outlier_cap sqrt_fn (ys (prepare (group_of pid df))) (fill_value (y r0)).
Proof.
  intro H. apply clean_and_prepare_data_lookup in H. destruct H as [_ D].
  rewrite D. pose proof (dedup_sorted_spec (to_rows (group_of pid df))) as [ND [_ F]].
  split.
  - rewrite cap_outliers_ds. unfold prepare. rewrite fillna_ds. exact ND.
  - intros r I. rewrite cap_outliers_map in I. apply in_map_iff in I.
    destruct I as [r1 [<- I]]. simpl.
    apply prepare_In in I. destruct I as [r0 [I0 [-> _]]]. simpl.
    exists r0. split; [apply F; exact I0 | split; reflexivity].
Qed.

Lemma C3_witness :
  dict_get "p" (fst (clean_and_prepare_data sqrt_micro dup_df)) = Some dup_info /\
  map (@y Q) (data dup_info) = [10; 12] /\
  NoDup (map (@ds Q) (data dup_info)) /\
  forall r, In r (data dup_info) ->
    exists r0,
      first_of_date (ds r) (sort_values (to_rows (group_of "p" dup_df))) = Some r0 /\
      idx r = idx r0 /\
      y r = outlier_cap sqrt_micro (ys (prepare (group_of "p" dup_df))) (fill_value (y r0)).
Proof.
  split; [vm_compute; reflexivity|]. split; [vm_compute; reflexivity|].
  apply (@C3_duplicate_dates_keep_first sqrt_micro dup_df "p" dup_info).
  vm_compute. reflexivity.
Defined.

(** C7, as the code has it.  The outlier step caps and never drops: the
    cleaned series has the length and the dates of the series before the
    step, and each value is the cap of the value before.  Whenever the
    standard deviation of the quantities before the step is positive, no
    cleaned value exceeds their mean plus three standard deviations.  The
    cleaned values are non-negative when the product's recorded quantities
    are: the cleaner fills missing quantities with 0 and clips from above
    only. *)
Theorem C7_capped_and_nonneg_when_input_is
  (sqrt_fn : Q -> Q) (df : DataFrame) (pid : string) (info : ProductInfo) :
  dict_get pid (fst (clean_and_prepare_data sqrt_fn df)) = Some info ->
  let before := prepare (group_of pid df) in
  let threshold := mean (ys before) + 3 * std sqrt_fn (ys before) in
  length (data info) = length before /\
  map (@ds Q) (data info) = map (@ds Q) before /\
  map (@y Q) (data info) = map (outlier_cap sqrt_fn (ys before)) (ys before) /\
  (0 < std sqrt_fn (ys before) -> Forall (fun r => y r <= threshold) (data info)) /\
  ((forall rec q, In rec df -> product_id rec = pid ->
                  quantity_sold rec = Some q -> 0 <= q) ->
   Forall (fun r => 0 <= y r) (data info)).
Proof.
  intro H. apply clean_and_prepare_data_lookup in H. destruct H as [_ D].
  simpl. rewrite D.
  split; [apply cap_outliers_length|]. split; [apply cap_outliers_ds|].
  split; [rewrite cap_outliers_map; unfold ys; rewrite !map_map; reflexivity|].
  split.
  - intro P. rewrite cap_outliers_map. apply Forall_forall. intros r I.
    apply in_map_iff in I. destruct I as [r1 [<- _]]. simpl.
    now apply outlier_cap_le.
  - intro NN.
    assert (Forall (fun r => 0 <= y r) (prepare (group_of pid df))) as B.
    { apply Forall_forall. intros r I. apply prepare_In in I.
      destruct I as [r0 [_ [-> [[i rec] [Ii ->]]]]]. simpl.
      apply group_of_In in Ii. destruct Ii as [Id Ep].
      destruct (quantity_sold rec) as [q|] eqn:Eq; simpl; [|apply Qle_refl].
      eapply NN; eassumption. }
    rewrite cap_outliers_map. apply Forall_forall. intros r I.
    apply in_map_iff in I. destruct I as [r1 [<- I]]. simpl.
    apply outlier_cap_nonneg.
    + unfold ys. apply Forall_map. exact B.
    + eapply Forall_forall in B; eassumption.
Qed.

Lemma C7_witness :
  dict_get "p" (fst (clean_and_prepare_data sqrt_micro spike_df)) = Some spike_info /\
  Qeq (y (last (data spike_info) (mkRow 0%nat 0%Z 0))) (mean (ys (prepare (group_of "p" spike_df)))
       + 3 * std sqrt_micro (ys (prepare (group_of "p" spike_df)))) /\
  let before := prepare (group_of "p" spike_df) in
  let threshold := mean (ys before) + 3 * std sqrt_micro (ys before) in
  length (data spike_info) = length before /\
  map (@ds Q) (data spike_info) = map (@ds Q) before /\
  map (@y Q) (data spike_info) = map (outlier_cap sqrt_micro (ys before)) (ys before) /\
  (0 < std sqrt_micro (ys before) -> Forall (fun r => y r <= threshold) (data spike_info)) /\
  ((forall rec q, In rec spike_df -> product_id rec = "p"%string ->
                  quantity_sold rec = Some q -> 0 <= q) ->
   Forall (fun r => 0 <= y r) (data spike_info)).
Proof.
  split; [vm_compute; reflexivity|]. split; [vm_compute; reflexivity|].
  apply (@C7_capped_and_nonneg_when_input_is sqrt_micro spike_df "p" spike_info).
  vm_compute. reflexivity.
Defined.

(** C7 as stated fails: a product whose records carry the quantity -5 on
    two days is kept by the cleaner with both values -5. *)
Lemma C7_counterexample :
  dict_get "p" (fst (clean_and_prepare_data sqrt_micro returns_df)) = Some returns_info /\
  map (@y Q) (data returns_info) = [-5; -5] /\
  ~ Forall (fun r => 0 <= y r) (data returns_info).
Proof.
  split; [vm_compute; reflexivity|]. split; [vm_compute; reflexivity|].
  intro F. inversion F as [|r l H _]; subst. vm_compute in H. now apply H.
Qed.

(* ================================================================== *)
(** * Facts about the monad *)

Lemma add_log_nil w : add_log w [] = w.
Proof. destruct w. unfold add_log. simpl. now rewrite app_nil_r. Qed.

Lemma add_log_app w a b : add_log (add_log w a) b = add_log w (a ++ b).
Proof. unfold add_log. simpl. now rewrite app_assoc. Qed.

Lemma logs_only_ret A (a : A) : logs_only (ret a) (Ok a) [].
Proof. intro w. now rewrite add_log_nil. Qed.

Lemma logs_only_raise A e : logs_only (@raise A e) (Raise e) [].
Proof. intro w. now rewrite add_log_nil. Qed.

Lemma logs_only_lift A (r : result A) : logs_only (lift r) r [].
Proof. intro w. now rewrite add_log_nil. Qed.

Lemma logs_only_logger m : logs_only (logger m) (Ok tt) [m].
Proof. intro w. reflexivity. Qed.

Lemma logs_only_bind_Ok A B (c : M A) (k : A -> M B) a ms r ms' :
  logs_only c (Ok a) ms -> logs_only (k a) r ms' ->
  logs_only (bind c k) r (ms ++ ms').
Proof.
  intros Hc Hk w. unfold bind. rewrite Hc, Hk. now rewrite add_log_app.
Qed.

Lemma logs_only_bind_Raise A B (c : M A) (k : A -> M B) e ms :
  logs_only c (Raise e) ms -> logs_only (bind c k) (Raise e) ms.
Proof. intros Hc w. unfold bind. now rewrite Hc. Qed.

Lemma logs_only_try_Ok A (c : M A) h a ms :
  logs_only c (Ok a) ms -> logs_only (try_except c h) (Ok a) ms.
Proof. intros Hc w. unfold try_except. now rewrite Hc. Qed.

Lemma logs_only_try_Raise A (c : M A) h e ms r ms' :
  logs_only c (Raise e) ms -> logs_only (h e) r ms' ->
  logs_only (try_except c h) r (ms ++ ms').
Proof.
  intros Hc Hh w. unfold try_except. rewrite Hc, Hh. now rewrite add_log_app.
Qed.

(** Case analysis on a computation that only logs, after a [bind]. *)
Lemma logs_only_bind A B (c : M A) (k : A -> M B) :
  (exists r ms, logs_only c r ms) ->
  (forall a, exists r ms, logs_only (k a) r ms) ->
  exists r ms, logs_only (bind c k) r ms.
Proof.
  intros [[a|e] [ms Hc]] Hk.
  - destruct (Hk a) as [r [ms' Hr]]. exists r, (ms ++ ms').
    eapply logs_only_bind_Ok; eassumption.
  - exists (Raise e), ms. now apply logs_only_bind_Raise.
Qed.

Lemma logs_only_try A (c : M A) h :
  (exists r ms, logs_only c r ms) ->
  (forall e, exists r ms, logs_only (h e) r ms) ->
  exists r ms, logs_only (try_except c h) r ms.
Proof.
  intros [[a|e] [ms Hc]] Hh.
  - exists (Ok a), ms. now apply logs_only_try_Ok.
  - destruct (Hh e) as [r [ms' Hr]]. exists r, (ms ++ ms').
    eapply logs_only_try_Raise; eassumption.
Qed.

(* ================================================================== *)
(** * Facts about the forecast engine *)

Lemma append_inv_tail (s s' t : string) :
  (s ++ t)%string = (s' ++ t)%string -> s = s'.
Proof.
  assert (L : forall a b, String.length (a ++ b) = (String.length a + String.length b)%nat).
  { induction a; simpl; intro b; [reflexivity | now rewrite IHa]. }
  revert s'. induction s as [|a s IH]; intros [|a' s']; simpl; intro E.
  - reflexivity.
  - apply (f_equal String.length) in E. simpl in E. rewrite L in E. lia.
  - apply (f_equal String.length) in E. simpl in E. rewrite L in E. lia.
  - injection E as -> E. f_equal. now apply IH.
Qed.

Lemma forecast_key_inj p q : forecast_key p = forecast_key q -> p = q.
Proof.
  unfold forecast_key. simpl. intro E. injection E as E.
  apply append_inv_tail in E.
  apply DecimalNat.Unsigned.to_uint_inj.
  pose proof (NilEmpty.usu (Nat.to_uint p)) as Hp.
  pose proof (NilEmpty.usu (Nat.to_uint q)) as Hq.
  rewrite E in Hp. congruence.
Qed.

Section EngineFacts.
Variable Model : Type.
Variable fit : ProphetConfig -> list (Row Q) -> result Model.
Variable predict : Model -> list Z -> result (list PredRow).

Lemma forecast_loop_logs_only model history periods : forall forecasts forecast,
  exists r ms, logs_only (forecast_loop predict model history periods forecasts forecast) r ms.
Proof.
  induction periods as [|p rest IH]; intros fs fc; simpl.
  - exists (Ok (fs, fc)), []. apply logs_only_ret.
  - apply logs_only_bind; [eexists; eexists; apply logs_only_lift|].
    intro f. apply logs_only_bind; [eexists; eexists; apply logs_only_logger|].
    intros _. apply IH.
Qed.

Lemma train_and_forecast_logs_only pd periods :
  exists r ms, logs_only (train_and_forecast fit predict pd periods) r ms.
Proof.
  unfold train_and_forecast. apply logs_only_try.
  - apply logs_only_bind; [eexists; eexists; apply logs_only_logger|]. intros _.
    apply logs_only_bind; [eexists; eexists; apply logs_only_lift|]. intro model.
    apply logs_only_bind; [apply forecast_loop_logs_only|]. intros [fs [fc|]]; simpl.
    + apply logs_only_bind; [eexists; eexists; apply logs_only_lift|]. intro ins.
      apply logs_only_bind; [eexists; eexists; apply logs_only_logger|]. intros _.
      eexists; eexists; apply logs_only_ret.
    + apply logs_only_bind; [eexists; eexists; apply logs_only_lift|]. intro ins.
      eexists; eexists; apply logs_only_raise.
  - intro e. apply logs_only_bind; [eexists; eexists; apply logs_only_logger|].
    intros _. eexists; eexists; apply logs_only_raise.
Qed.

(** What a successful loop over the horizons leaves behind. *)
Lemma forecast_loop_Ok model history periods : forall forecasts forecast w fs fc w',
  forecast_loop predict model history periods forecasts forecast w = (Ok (fs, fc), w') ->
  (forall p, In p periods ->
     exists f, predict model (make_future_dataframe history p) = Ok f /\
               dict_get (forecast_key p) fs = Some (horizon_entry f p)) /\
  (forall k, (forall p, In p periods -> forecast_key p <> k) ->
     dict_get k fs = dict_get k forecasts) /\
  (match periods with
   | [] => fc = forecast
   | _ => exists f, predict model (make_future_dataframe history (last periods 0%nat)) = Ok f /\
                    fc = Some f
   end).
Proof.
  induction periods as [|p rest IH]; intros fs0 fc0 w fs fc w'; simpl.
  - unfold ret. intro E. injection E as <- <- _.
    split; [intros p []|]. split; [reflexivity | reflexivity].
  - unfold bind at 1, lift.
    destruct (predict model (make_future_dataframe history p)) as [f|e] eqn:P;
      [|discriminate].
    unfold bind at 1, logger. intro E. apply IH in E.
    destruct E as [E1 [E2 E3]].
    split; [|split].
    + intros q [<-|I]; [|apply E1; exact I].
      destruct (in_dec Nat.eq_dec p rest) as [I|N].
      * destruct (E1 p I) as [f' [P' G]]. exists f'. split; [exact P' | exact G].
      * exists f. split; [exact P|].
        rewrite E2, dict_get_set_same; [reflexivity|].
        intros q I Eq. apply forecast_key_inj in Eq. subst q. contradiction.
    + intros k Hk. rewrite E2.
      * apply dict_get_set_other. apply Hk. now left.
      * intros q I. apply Hk. now right.
    + destruct rest as [|p' rest'].
      * exists f. split; [exact P | exact E3].
      * exact E3.
Qed.

(** What a successful [train_and_forecast] has computed. *)
Lemma train_and_forecast_Ok pd periods w r w' :
  train_and_forecast fit predict pd periods w = (Ok r, w') ->
  exists model fs forecast ins w1 w2,
    fit (model_config pd) pd = Ok model /\
    forecast_loop predict model (map (@ds Q) pd) periods [] None w1
      = (Ok (fs, Some forecast), w2) /\
    predict model (map (@ds Q) pd) = Ok ins /\
    r = mkResult fs (classify_trend forecast)
          (confidence_of (in_sample_mape pd ins))
          (in_sample_mae pd ins) (in_sample_mape pd ins).
Proof.
  unfold train_and_forecast, try_except.
  unfold bind at 1, logger. unfold bind at 1, lift.
  destruct (fit (model_config pd) pd) as [model|e] eqn:F; [|discriminate].
  unfold bind at 1.
  match goal with |- context [forecast_loop _ _ _ _ _ _ ?w1] => set (w1' := w1) end.
  destruct (forecast_loop predict model (map (@ds Q) pd) periods [] None w1')
    as [[[fs fc]|e] w2] eqn:L; [|discriminate].
  unfold bind at 1.
  destruct (predict model (map (@ds Q) pd)) as [ins|e] eqn:P; [|discriminate].
  simpl. destruct fc as [forecast|]; [|discriminate].
  unfold bind, logger, ret. intro E. injection E as <- _.
  exists model, fs, forecast, ins, w1', w2. auto.
Qed.
End EngineFacts.

(* ================================================================== *)
(** * Facts about the result store *)

Section StoreFacts.
Variable env : Env.
Implicit Types (w : World) (r : ForecastResult).

(** Without a fault and with the four keys present, the delete and the
    insert are committed together. *)
Lemma save_success user_id product_id r w h7 h30 h90 h365 :
  save_fault env product_id = NoFault ->
  dict_get "forecast_7d" (forecasts r) = Some h7 ->
  dict_get "forecast_30d" (forecasts r) = Some h30 ->
  dict_get "forecast_90d" (forecasts r) = Some h90 ->
  dict_get "forecast_365d" (forecasts r) = Some h365 ->
  let table :=
    filter (fun x => negb (same_key user_id product_id x)) (working w)
    ++ [stored_row user_id product_id r (value h7) (value h30) (value h90) (value h365)
          (clock env (ticks w)) (clock env (S (ticks w)))] in
  save_forecasts_to_database env user_id product_id r w =
  (Ok tt, mkWorld table table (connection w) (closed w) (S (S (ticks w)))
            (log w ++ [MsgSaved product_id]) (stdout w)).
Proof.
  intros F H7 H30 H90 H365.
  unfold save_forecasts_to_database, try_finally, try_except, bind, lookup_value.
  rewrite F, H7, H30, H90, H365. reflexivity.
Qed.

(** In every other case the save raises, the transaction is rolled back
    and the failure is logged. *)
Lemma save_failure user_id product_id r w :
  save_fault env product_id <> NoFault \/
  (exists k, In k persisted_keys /\ dict_get k (forecasts r) = None) ->
  exists e e' w',
    save_forecasts_to_database env user_id product_id r w = (Raise e, w') /\
    committed w' = committed w /\ working w' = committed w /\
    log w' = log w ++ [MsgSaveError e'] /\
    (save_fault env product_id = NoFault ->
     e = e' /\ exists k, In k persisted_keys /\ dict_get k (forecasts r) = None /\
                         e = KeyError k).
Proof.
  intro H.
  unfold save_forecasts_to_database, try_finally, try_except, bind, lookup_value.
  destruct (save_fault env product_id) eqn:F.
  - destruct H as [H | [k [Ik Hk]]]; [congruence|].
    destruct (dict_get "forecast_7d" (forecasts r)) as [h7|] eqn:H7.
    2:{ do 3 eexists. simpl. split; [reflexivity|]. do 3 (split; [reflexivity|]).
        intros _. split; [reflexivity|].
        exists "forecast_7d"%string. simpl. auto 10. }
    destruct (dict_get "forecast_30d" (forecasts r)) as [h30|] eqn:H30.
    2:{ do 3 eexists. simpl. split; [reflexivity|]. do 3 (split; [reflexivity|]).
        intros _. split; [reflexivity|].
        exists "forecast_30d"%string. simpl. auto 10. }
    destruct (dict_get "forecast_90d" (forecasts r)) as [h90|] eqn:H90.
    2:{ do 3 eexists. simpl. split; [reflexivity|]. do 3 (split; [reflexivity|]).
        intros _. split; [reflexivity|].
        exists "forecast_90d"%string. simpl. auto 10. }
    destruct (dict_get "forecast_365d" (forecasts r)) as [h365|] eqn:H365.
    2:{ do 3 eexists. simpl. split; [reflexivity|]. do 3 (split; [reflexivity|]).
        intros _. split; [reflexivity|].
        exists "forecast_365d"%string. simpl. auto 10. }
    exfalso. simpl in Ik.
    destruct Ik as [<-|[<-|[<-|[<-|[]]]]]; congruence.
  - do 3 eexists. simpl. split; [reflexivity|]. do 3 (split; [reflexivity|]).
    discriminate.
  - do 3 eexists. simpl. split; [reflexivity|]. do 3 (split; [reflexivity|]).
    discriminate.
  - destruct (dict_get "forecast_7d" (forecasts r));
      [destruct (dict_get "forecast_30d" (forecasts r));
       [destruct (dict_get "forecast_90d" (forecasts r));
        [destruct (dict_get "forecast_365d" (forecasts r))|]|]|];
      do 3 eexists; simpl; (split; [reflexivity|]); do 3 (split; [reflexivity|]);
      discriminate.
  - destruct (dict_get "forecast_7d" (forecasts r));
      [destruct (dict_get "forecast_30d" (forecasts r));
       [destruct (dict_get "forecast_90d" (forecasts r));
        [destruct (dict_get "forecast_365d" (forecasts r))|]|]|];
      do 3 eexists; simpl; (split; [reflexivity|]); do 3 (split; [reflexivity|]);
      discriminate.
Qed.

Lemma persisted_keys_dec r :
  (exists h7 h30 h90 h365,
     dict_get "forecast_7d" (forecasts r) = Some h7 /\
     dict_get "forecast_30d" (forecasts r) = Some h30 /\
     dict_get "forecast_90d" (forecasts r) = Some h90 /\
     dict_get "forecast_365d" (forecasts r) = Some h365) \/
  (exists k, In k persisted_keys /\ dict_get k (forecasts r) = None).
Proof.
  destruct (dict_get "forecast_7d" (forecasts r)) as [h7|] eqn:H7;
    [|right; exists "forecast_7d"%string; split; [simpl; tauto | assumption]].
  destruct (dict_get "forecast_30d" (forecasts r)) as [h30|] eqn:H30;
    [|right; exists "forecast_30d"%string; split; [simpl; tauto | assumption]].
  destruct (dict_get "forecast_90d" (forecasts r)) as [h90|] eqn:H90;
    [|right; exists "forecast_90d"%string; split; [simpl; tauto | assumption]].
  destruct (dict_get "forecast_365d" (forecasts r)) as [h365|] eqn:H365;
    [|right; exists "forecast_365d"%string; split; [simpl; tauto | assumption]].
  left. exists h7, h30, h90, h365. auto.
Qed.

Lemma fault_dec (f : DbFault) : f = NoFault \/ f <> NoFault.
Proof. destruct f; [now left | right; discriminate ..]. Qed.

Lemma stored_for_after_write user_id product_id table row :
  same_key user_id product_id row = true ->
  stored_for user_id product_id
    (filter (fun x => negb (same_key user_id product_id x)) table ++ [row]) = [row].
Proof.
  intro K. unfold stored_for. rewrite filter_app. simpl. rewrite K.
  replace (filter _ (filter _ table)) with (@nil ForecastRow); [reflexivity|].
  symmetry. induction table as [|x t IH]; simpl; [reflexivity|].
  destruct (same_key user_id product_id x) eqn:E; simpl; [exact IH|].
  rewrite E. exact IH.
Qed.
End StoreFacts.

Section StoreClaims.
Variable env : Env.

Lemma save_Ok_inv user_id product_id r w w' :
  save_forecasts_to_database env user_id product_id r w = (Ok tt, w') ->
  exists h7 h30 h90 h365,
    save_fault env product_id = NoFault /\
    dict_get "forecast_7d" (forecasts r) = Some h7 /\
    dict_get "forecast_30d" (forecasts r) = Some h30 /\
    dict_get "forecast_90d" (forecasts r) = Some h90 /\
    dict_get "forecast_365d" (forecasts r) = Some h365 /\
    let table :=
      filter (fun x => negb (same_key user_id product_id x)) (working w)
      ++ [stored_row user_id product_id r (value h7) (value h30) (value h90)
            (value h365) (clock env (ticks w)) (clock env (S (ticks w)))] in
    w' = mkWorld table table (connection w) (closed w) (S (S (ticks w)))
           (log w ++ [MsgSaved product_id]) (stdout w).
Proof.
  intro E.
  destruct (fault_dec (save_fault env product_id)) as [F|F].
  - destruct (persisted_keys_dec r) as [[h7 [h30 [h90 [h365 [H7 [H30 [H90 H365]]]]]]] | K].
    + exists h7, h30, h90, h365.
      rewrite (@save_success env user_id product_id r w h7 h30 h90 h365 F H7 H30 H90 H365) in E.
      injection E as <-. auto 10.
    + destruct (@save_failure env user_id product_id r w (or_intror K))
        as [e [e' [w0 [S _]]]]. congruence.
  - destruct (@save_failure env user_id product_id r w (or_introl F))
      as [e [e' [w0 [S _]]]]. congruence.
Qed.

Lemma same_key_stored_row user_id product_id r a b c d t1 t2 :
  same_key user_id product_id (stored_row user_id product_id r a b c d t1 t2) = true.
Proof. unfold same_key, stored_row. simpl. now rewrite !String.eqb_refl. Qed.

Lemma filter_other_after_write user_id product_id table row :
  same_key user_id product_id row = true ->
  filter (fun x => negb (same_key user_id product_id x))
    (filter (fun x => negb (same_key user_id product_id x)) table ++ [row])
  = filter (fun x => negb (same_key user_id product_id x)) table.
Proof.
  intro K. rewrite filter_app. simpl. rewrite K. simpl. rewrite app_nil_r.
  induction table as [|x t IH]; simpl; [reflexivity|].
  destruct (same_key user_id product_id x) eqn:E; simpl; [exact IH|].
  rewrite E. simpl. now rewrite IH.
Qed.

Lemma complete_keys r :
  (forall k, In k persisted_keys -> dict_get k (forecasts r) <> None) ->
  exists h7 h30 h90 h365,
    dict_get "forecast_7d" (forecasts r) = Some h7 /\
    dict_get "forecast_30d" (forecasts r) = Some h30 /\
    dict_get "forecast_90d" (forecasts r) = Some h90 /\
    dict_get "forecast_365d" (forecasts r) = Some h365.
Proof.
  intro C. destruct (persisted_keys_dec r) as [S | [k [I N]]]; [exact S|].
  exfalso. exact (C k I N).
Qed.

Ltac key_missing :=
  match goal with
  | C : forall k, In k persisted_keys -> _ <> None, N : dict_get ?k _ = None |- _ =>
      exfalso; apply (C k); [simpl; tauto | exact N]
  end.

Ltac keys_present :=
  match goal with
  | N : ~ (forall k, In k persisted_keys -> _) |- _ =>
      exfalso; apply N; intros ? [<-|[<-|[<-|[<-|[]]]]]; congruence
  end.

Ltac name_key :=
  match goal with
  | |- exists k, _ /\ _ /\ KeyError ?x = KeyError k =>
      exists x; split; [simpl; tauto | split; [assumption | reflexivity]]
  end.

(** What a failing save leaves, and which error reaches the caller. *)
Lemma save_raises user_id product_id r w :
  save_fault env product_id <> NoFault \/
  ~ (forall k, In k persisted_keys -> dict_get k (forecasts r) <> None) ->
  exists e e' w',
    save_forecasts_to_database env user_id product_id r w = (Raise e, w') /\
    committed w' = committed w /\ working w' = committed w /\
    log w' = log w ++ [MsgSaveError e'] /\
    (save_fault env product_id = CursorFails ->
     e' = OperationalError "cursor" /\ e = UnboundLocalError "cursor") /\
    (save_fault env product_id <> CursorFails -> e = e') /\
    (save_fault env product_id = DeleteFails -> e = OperationalError "delete") /\
    (save_fault env product_id = InsertFails ->
     (forall k, In k persisted_keys -> dict_get k (forecasts r) <> None) ->
     e = OperationalError "insert") /\
    (save_fault env product_id = CommitFails ->
     (forall k, In k persisted_keys -> dict_get k (forecasts r) <> None) ->
     e = OperationalError "commit") /\
    (save_fault env product_id <> CursorFails ->
     save_fault env product_id <> DeleteFails ->
     ~ (forall k, In k persisted_keys -> dict_get k (forecasts r) <> None) ->
     exists k, In k persisted_keys /\ dict_get k (forecasts r) = None /\ e = KeyError k).
Proof.
  intro Hyp.
  unfold save_forecasts_to_database, try_finally, try_except, bind, lookup_value.
  destruct (save_fault env product_id) eqn:F;
    (destruct (dict_get "forecast_7d" (forecasts r)) eqn:H7;
     [destruct (dict_get "forecast_30d" (forecasts r)) eqn:H30;
      [destruct (dict_get "forecast_90d" (forecasts r)) eqn:H90;
       [destruct (dict_get "forecast_365d" (forecasts r)) eqn:H365|]|]|]);
    try (destruct Hyp as [Hyp|Hyp]; [congruence | keys_present]);
    do 3 eexists; (split; [reflexivity|]);
    cbn [committed working log];
    repeat (split; [try reflexivity; try discriminate; try congruence|]);
    try discriminate; try congruence;
    intros; try key_missing; try keys_present; try name_key.
Qed.

(** C9.  A save of a (tenant, product) summary without a server fault and
    with the four horizon values at hand succeeds, and only then: the
    rows stored under the key are deleted and the new summary inserted,
    both committed together, every other key's rows left as they were.
    In every other case (the cursor, the delete, the insert or the commit
    fails, or a value is missing) the transaction is rolled back, whatever
    it had already deleted or inserted: the committed table is unchanged,
    nothing is pending, the failure is logged and an error is raised to
    the caller.  Two saves for the same key leave exactly one summary
    under it, the one of the second write. *)
Theorem C9_upsert_commits_both_or_neither
  (user_id product_id : string) (r1 r2 : ForecastResult) (w : World) :
  working w = committed w ->
  let others := fun x => negb (same_key user_id product_id x) in
  let fault := save_fault env product_id in
  let complete := fun r =>
    forall k, In k persisted_keys -> dict_get k (forecasts r) <> None in
  let out := save_forecasts_to_database env user_id product_id r1 w in
  (fst out = Ok tt <-> fault = NoFault /\ complete r1) /\
  (fault = NoFault -> complete r1 ->
   exists h7 h30 h90 h365,
     dict_get "forecast_7d" (forecasts r1) = Some h7 /\
     dict_get "forecast_30d" (forecasts r1) = Some h30 /\
     dict_get "forecast_90d" (forecasts r1) = Some h90 /\
     dict_get "forecast_365d" (forecasts r1) = Some h365 /\
     let row := stored_row user_id product_id r1 (value h7) (value h30)
                  (value h90) (value h365)
                  (clock env (ticks w)) (clock env (S (ticks w))) in
     fst out = Ok tt /\
     committed (snd out) = filter others (committed w) ++ [row] /\
     working (snd out) = committed (snd out) /\
     stored_for user_id product_id (committed (snd out)) = [row] /\
     log (snd out) = log w ++ [MsgSaved product_id]) /\
  (fault <> NoFault \/ ~ complete r1 ->
   exists e e',
     fst out = Raise e /\
     committed (snd out) = committed w /\
     working (snd out) = committed w /\
     log (snd out) = log w ++ [MsgSaveError e'] /\
     (fault = CursorFails ->
      e' = OperationalError "cursor" /\ e = UnboundLocalError "cursor") /\
     (fault <> CursorFails -> e = e') /\
     (fault = DeleteFails -> e = OperationalError "delete") /\
     (fault = InsertFails -> complete r1 -> e = OperationalError "insert") /\
     (fault = CommitFails -> complete r1 -> e = OperationalError "commit") /\
     (fault <> CursorFails -> fault <> DeleteFails -> ~ complete r1 ->
      exists k, In k persisted_keys /\ dict_get k (forecasts r1) = None /\
                e = KeyError k)) /\
  (fault = NoFault -> complete r1 -> complete r2 ->
   let out2 := save_forecasts_to_database env user_id product_id r2 (snd out) in
   exists h7 h30 h90 h365,
     dict_get "forecast_7d" (forecasts r2) = Some h7 /\
     dict_get "forecast_30d" (forecasts r2) = Some h30 /\
     dict_get "forecast_90d" (forecasts r2) = Some h90 /\
     dict_get "forecast_365d" (forecasts r2) = Some h365 /\
     fst out2 = Ok tt /\
     stored_for user_id product_id (committed (snd out2)) =
       [stored_row user_id product_id r2 (value h7) (value h30) (value h90)
          (value h365) (clock env (ticks (snd out))) (clock env (S (ticks (snd out))))] /\
     filter others (committed (snd out2)) = filter others (committed w)).
Proof.
  intro WC. cbv zeta.
  assert (save_fault env product_id = NoFault ->
          (forall k, In k persisted_keys -> dict_get k (forecasts r1) <> None) ->
          exists h7 h30 h90 h365,
            dict_get "forecast_7d" (forecasts r1) = Some h7 /\
            dict_get "forecast_30d" (forecasts r1) = Some h30 /\
            dict_get "forecast_90d" (forecasts r1) = Some h90 /\
            dict_get "forecast_365d" (forecasts r1) = Some h365 /\
            save_forecasts_to_database env user_id product_id r1 w =
            (Ok tt,
             let table :=
               filter (fun x => negb (same_key user_id product_id x)) (committed w)
               ++ [stored_row user_id product_id r1 (value h7) (value h30) (value h90)
                     (value h365) (clock env (ticks w)) (clock env (S (ticks w)))] in
             mkWorld table table (connection w) (closed w) (S (S (ticks w)))
               (log w ++ [MsgSaved product_id]) (stdout w))) as Good.
  { intros F C. destruct (complete_keys r1 C) as [h7 [h30 [h90 [h365 [H7 [H30 [H90 H365]]]]]]].
    exists h7, h30, h90, h365. repeat (split; [assumption|]).
    rewrite (@save_success env user_id product_id r1 w h7 h30 h90 h365 F H7 H30 H90 H365).
    cbv zeta. now rewrite WC. }
  split; [|split; [|split]].
  - split.
    + intro E.
      destruct (fault_dec (save_fault env product_id)) as [F|F].
      * split; [exact F|]. intros k I N.
        destruct (@save_failure env user_id product_id r1 w
                    (or_intror (ex_intro _ k (conj I N)))) as [e [e' [w0 [S _]]]].
        rewrite S in E. discriminate.
      * destruct (@save_failure env user_id product_id r1 w (or_introl F))
          as [e [e' [w0 [S _]]]].
        rewrite S in E. discriminate.
    + intros [F C]. destruct (Good F C) as [h7 [h30 [h90 [h365 [_ [_ [_ [_ S]]]]]]]].
      now rewrite S.
  - intros F C. destruct (Good F C) as [h7 [h30 [h90 [h365 [H7 [H30 [H90 [H365 S]]]]]]]].
    exists h7, h30, h90, h365. repeat (split; [assumption|]).
    rewrite S. cbv zeta. cbn [fst snd committed working log].
    split; [reflexivity|]. split; [reflexivity|]. split; [reflexivity|].
    split; [|reflexivity].
    apply stored_for_after_write, same_key_stored_row.
  - intro Bad.
    destruct (@save_raises user_id product_id r1 w Bad) as [e [e' [w0 [S Rest]]]].
    exists e, e'. rewrite S. cbn [fst snd]. split; [reflexivity | exact Rest].
  - intros F C1 C2.
    destruct (Good F C1) as [a7 [a30 [a90 [a365 [_ [_ [_ [_ S]]]]]]]].
    destruct (complete_keys r2 C2) as [h7 [h30 [h90 [h365 [H7 [H30 [H90 H365]]]]]]].
    exists h7, h30, h90, h365. repeat (split; [assumption|]).
    rewrite (@save_success env user_id product_id r2 _ h7 h30 h90 h365 F H7 H30 H90 H365).
    cbv zeta. cbn [fst snd committed]. split; [reflexivity|]. split.
    + apply stored_for_after_write, same_key_stored_row.
    + rewrite filter_other_after_write by apply same_key_stored_row.
      rewrite S. cbv zeta. cbn [snd working].
      apply filter_other_after_write, same_key_stored_row.
Qed.
End StoreClaims.

Lemma C9_witness :
  let env := quiet_env [] in
  let out := save_forecasts_to_database env "u" "b" sample_result busy_world in
  let out2 := save_forecasts_to_database env "u" "b" other_result (snd out) in
  let bad := save_forecasts_to_database (faulty_env InsertFails) "u" "b" sample_result
               busy_world in
  let first_row := stored_row "u" "b" sample_result 14 60 180 730
                     (clock env 0) (clock env 1) in
  let second_row := stored_row "u" "b" other_result 7 31 93 360
                      (clock env 2) (clock env 3) in
  (fst out = Ok tt /\
   committed (snd out) =
     [mkForecastRow "v" "a" 1 2 3 4 stable (1 # 2) 0 day_us; first_row] /\
   working (snd out) = committed (snd out) /\
   stored_for "u" "b" (committed (snd out)) = [first_row]) /\
  (fst out2 = Ok tt /\
   stored_for "u" "b" (committed (snd out2)) = [second_row] /\
   filter (fun x => negb (same_key "u" "b" x)) (committed (snd out2)) =
   filter (fun x => negb (same_key "u" "b" x)) busy_table) /\
  (fst bad = Raise (OperationalError "insert") /\
   committed (snd bad) = busy_table /\
   working (snd bad) = busy_table /\
   log (snd bad) = [MsgSaveError (OperationalError "insert")]).
Proof.
  cbv zeta.
  assert (forall k, In k persisted_keys ->
                    dict_get k (forecasts sample_result) <> None) as C1.
  { intros k [<-|[<-|[<-|[<-|[]]]]]; vm_compute; discriminate. }
  assert (forall k, In k persisted_keys ->
                    dict_get k (forecasts other_result) <> None) as C2.
  { intros k [<-|[<-|[<-|[<-|[]]]]]; vm_compute; discriminate. }
  destruct (@C9_upsert_commits_both_or_neither (quiet_env []) "u" "b"
              sample_result other_result busy_world eq_refl)
    as [_ [Good [_ Twice]]].
  destruct (@C9_upsert_commits_both_or_neither (faulty_env InsertFails) "u" "b"
              sample_result other_result busy_world eq_refl)
    as [_ [_ [Bad _]]].
  split; [|split].
  - destruct (Good eq_refl C1)
      as [h7 [h30 [h90 [h365 [H7 [H30 [H90 [H365 [E [Cm [Wk [St _]]]]]]]]]]]].
    vm_compute in H7, H30, H90, H365.
    injection H7 as <-. injection H30 as <-. injection H90 as <-. injection H365 as <-.
    split; [exact E|]. split; [rewrite Cm; reflexivity|].
    split; [exact Wk|]. rewrite St. reflexivity.
  - destruct (Twice eq_refl C1 C2)
      as [h7 [h30 [h90 [h365 [H7 [H30 [H90 [H365 [E [St Oth]]]]]]]]]].
    vm_compute in H7, H30, H90, H365.
    injection H7 as <-. injection H30 as <-. injection H90 as <-. injection H365 as <-.
    split; [exact E|]. split; [rewrite St; reflexivity | exact Oth].
  - destruct Bad as [e [e' [E [Cm [Wk [Lg [_ [Same [_ [Ins _]]]]]]]]]].
    { left. discriminate. }
    assert (e = OperationalError "insert") as -> by (apply Ins; [reflexivity | exact C1]).
    assert (OperationalError "insert" = e') as <- by (apply Same; discriminate).
    split; [exact E|]. split; [exact Cm|]. split; [exact Wk | exact Lg].
Defined.

(** Two saves on a quiet server, and a save that meets a failing insert. *)
Example save_twice_leaves_second :
  let w1 := snd (save_forecasts_to_database (quiet_env []) "u" "p" sample_result empty_world) in
  let w2 := snd (save_forecasts_to_database (quiet_env []) "u" "p" other_result w1) in
  map forecast_7d (committed w1) = [14%Z] /\
  map forecast_7d (committed w2) = [7%Z] /\
  map row_trend_status (committed w2) = [stable].
Proof. vm_compute. repeat split. Qed.

Example failed_insert_rolls_back :
  let w1 := snd (save_forecasts_to_database (quiet_env []) "u" "p" sample_result empty_world) in
  let out := save_forecasts_to_database (faulty_env InsertFails) "u" "p" other_result w1 in
  fst out = Raise (OperationalError "insert") /\
  committed (snd out) = committed w1 /\ working (snd out) = committed w1.
Proof. vm_compute. repeat split. Qed.

(* ================================================================== *)
(** * The expiry of a stored summary (C4) *)

(** The two timestamps of a stored summary come from two readings of the
    clock: their difference is 24 hours less the time between the two. *)
Lemma save_expiry_offset env user_id product_id r w w' row :
  save_forecasts_to_database env user_id product_id r w = (Ok tt, w') ->
  In row (stored_for user_id product_id (committed w')) ->
  (expires_at row - generated_at row =
   day_us - (clock env (S (ticks w)) - clock env (ticks w)))%Z.
Proof.
  intros S I. apply save_Ok_inv in S.
  destruct S as [h7 [h30 [h90 [h365 [_ [_ [_ [_ [_ E]]]]]]]]].
  cbv zeta in E. subst w'. simpl in I.
  rewrite stored_for_after_write in I by apply same_key_stored_row.
  destruct I as [<-|[]]. unfold stored_row. cbn [expires_at generated_at]. lia.
Qed.

(** C4 on a clock that advances one microsecond between two readings: the
    summary is stored with [expires_at - generated_at] one microsecond
    short of 24 hours. *)
Theorem C4_expiry_short_of_24_hours :
  let out := save_forecasts_to_database (quiet_env []) "u" "p" sample_result empty_world in
  fst out = Ok tt /\
  map (fun row => (expires_at row - generated_at row)%Z) (committed (snd out))
    = [(day_us - 1)%Z] /\
  (day_us - 1)%Z <> day_us.
Proof. vm_compute. repeat split. discriminate. Qed.

(* ================================================================== *)
(** * The keys the store reads (C10) *)

Section KeysClaim.
Variable Model : Type.
Variable fit : ProphetConfig -> list (Row Q) -> result Model.
Variable predict : Model -> list Z -> result (list PredRow).
Variable env : Env.

(** The keys of a forecast result are those of the horizons asked for. *)
Lemma train_and_forecast_keys pd periods w r w' :
  train_and_forecast fit predict pd periods w = (Ok r, w') ->
  forall p, (In p periods -> exists h, dict_get (forecast_key p) (forecasts r) = Some h) /\
            (~ In p periods -> dict_get (forecast_key p) (forecasts r) = None).
Proof.
  intros T p. apply train_and_forecast_Ok in T.
  destruct T as [model [fs [fc [ins [w1 [w2 [_ [L [_ ->]]]]]]]]]. simpl.
  apply forecast_loop_Ok in L. destruct L as [L1 [L2 _]]. split.
  - intro I. destruct (L1 p I) as [f [_ G]]. eauto.
  - intro N. rewrite L2; [reflexivity|].
    intros q I E. apply forecast_key_inj in E. subst q. contradiction.
Qed.

(** C10.  The save reads the forecast dictionary at the four keys
    [forecast_7d], [forecast_30d], [forecast_90d], [forecast_365d] and
    nowhere else.  For a result of [train_and_forecast] on horizons that
    miss one of 7, 30, 90, 365 the save raises and stores nothing; when no
    server fault comes first the error is the [KeyError] of a missing key.
    When the horizons include all four, the lookups succeed: without a
    server fault the save completes. *)
Theorem C10_persist_reads_the_four_default_keys
  (pd : list (Row Q)) (periods : list nat) (w w1 : World) (r : ForecastResult)
  (user_id product_id : string) :
  train_and_forecast fit predict pd periods w = (Ok r, w1) ->
  (forall r' w2,
     (forall k, In k persisted_keys ->
                dict_get k (forecasts r') = dict_get k (forecasts r)) ->
     trend_status r' = trend_status r ->
     confidence_score r' = confidence_score r ->
     save_forecasts_to_database env user_id product_id r' w2 =
     save_forecasts_to_database env user_id product_id r w2) /\
  (forall p, In p default_periods -> ~ In p periods ->
     forall w2, exists e w3,
       save_forecasts_to_database env user_id product_id r w2 = (Raise e, w3) /\
       committed w3 = committed w2 /\
       (save_fault env product_id = NoFault ->
        exists q, In q default_periods /\ ~ In q periods /\
                  e = KeyError (forecast_key q))) /\
  ((forall p, In p default_periods -> In p periods) ->
   save_fault env product_id = NoFault ->
   forall w2, exists w3,
     save_forecasts_to_database env user_id product_id r w2 = (Ok tt, w3)).
Proof.
  intro T. pose proof (train_and_forecast_keys _ _ _ T) as K. split; [|split].
  - intros r' w2 Hk Ht Hc.
    unfold save_forecasts_to_database, lookup_value.
    rewrite Ht, Hc.
    rewrite !Hk by (simpl; tauto). reflexivity.
  - intros p Ip Np w2.
    assert (exists k, In k persisted_keys /\ dict_get k (forecasts r) = None) as Miss.
    { exists (forecast_key p). split; [|apply K; exact Np].
      simpl in Ip. destruct Ip as [<-|[<-|[<-|[<-|[]]]]]; simpl; tauto. }
    destruct (@save_failure env user_id product_id r w2 (or_intror Miss))
      as [e [e' [w3 [S [C [_ [_ NF]]]]]]].
    exists e, w3. split; [exact S|]. split; [exact C|].
    intro F. destruct (NF F) as [_ [k [Ik [Hk ->]]]].
    simpl in Ik.
    destruct Ik as [<-|[<-|[<-|[<-|[]]]]];
      [exists 7%nat | exists 30%nat | exists 90%nat | exists 365%nat];
      (split; [simpl; tauto|]); (split; [|reflexivity]);
      intro I; apply K in I; destruct I as [h I];
      match goal with H : dict_get ?k _ = None |- _ =>
        change k with (forecast_key 7) in H || change k with (forecast_key 30) in H
        || change k with (forecast_key 90) in H || change k with (forecast_key 365) in H
      end; congruence.
  - intros All F w2.
    destruct (proj1 (K 7%nat) (All _ (or_introl eq_refl))) as [h7 H7].
    destruct (proj1 (K 30%nat) (All _ (or_intror (or_introl eq_refl)))) as [h30 H30].
    destruct (proj1 (K 90%nat) (All _ (or_intror (or_intror (or_introl eq_refl)))))
      as [h90 H90].
    destruct (proj1 (K 365%nat)
                (All _ (or_intror (or_intror (or_intror (or_introl eq_refl))))))
      as [h365 H365].
    eexists. apply (@save_success env user_id product_id r w2 h7 h30 h90 h365 F H7 H30 H90 H365).
Qed.
End KeysClaim.

(* ================================================================== *)
(** * Horizon totals (C5), trend (C6) and confidence (C8) *)

Lemma py_round_nearest x : Qabs (inject_Z (py_round x) - x) <= 1 # 2.
Proof.
  pose proof (Qfloor_le x) as Lo. pose proof (Qlt_floor x) as Hi.
  rewrite inject_Z_plus in Hi. change (inject_Z 1) with 1 in Hi.
  apply Qabs_Qle_condition. unfold py_round.
  destruct (Qcompare (x - inject_Z (Qfloor x)) (1 # 2)) eqn:C.
  - apply Qeq_alt in C. destruct (Z.even (Qfloor x)).
    + split; lra.
    + rewrite inject_Z_plus. change (inject_Z 1) with 1. split; lra.
  - apply Qlt_alt in C. split; lra.
  - apply Qgt_alt in C. rewrite inject_Z_plus. change (inject_Z 1) with 1.
    split; lra.
Qed.

Lemma py_round_nonneg x : 0 <= x -> (0 <= py_round x)%Z.
Proof.
  intro P. assert (0 <= Qfloor x)%Z as F.
  { change 0%Z with (Qfloor 0). now apply Qfloor_resp_le. }
  unfold py_round. destruct (Qcompare _ _); [destruct (Z.even _)|..]; lia.
Qed.

Lemma max0_nonneg x : 0 <= max0 x.
Proof.
  unfold max0. destruct (Qgtb x 0) eqn:E; [|apply Qle_refl].
  apply Qgtb_true in E. lra.
Qed.

Lemma max0_spec x : max0 x == Qmax 0 x.
Proof.
  unfold max0. destruct (Qgtb x 0) eqn:E.
  - apply Qgtb_true in E. symmetry. apply Q.max_r. lra.
  - apply Qgtb_false in E. symmetry. apply Q.max_l. exact E.
Qed.

Lemma py_round_max0_nearest x :
  Qabs (inject_Z (py_round (max0 x)) - Qmax 0 x) <= 1 # 2.
Proof.
  pose proof (py_round_nearest (max0 x)) as N.
  assert (E : inject_Z (py_round (max0 x)) - Qmax 0 x
              == inject_Z (py_round (max0 x)) - max0 x).
  { apply Qplus_comp; [reflexivity|]. apply Qopp_comp. symmetry. apply max0_spec. }
  rewrite E. exact N.
Qed.

Lemma series_mean_nonempty l : l <> [] -> series_mean l = Some (mean l).
Proof. destruct l; [congruence | reflexivity]. Qed.

Lemma tail_of_extension (history future : list Z) (forecast : list PredRow) :
  map pred_ds forecast = history ++ future ->
  length (tail (length future) forecast) = length future /\
  map pred_ds (tail (length future) forecast) = future.
Proof.
  intro E. unfold tail.
  assert (length forecast = (length history + length future)%nat) as L.
  { rewrite <- (length_map pred_ds), E. apply length_app. }
  replace (length forecast - length future)%nat with (length history) by lia.
  split.
  - rewrite length_skipn. lia.
  - rewrite <- skipn_map, E, skipn_app, skipn_all, Nat.sub_diag. reflexivity.
Qed.

Lemma classify_trend_spec forecast :
  forecast <> [] ->
  let d := mean (map trend (tail 30 forecast)) - mean (map trend (head 30 forecast)) in
  (1 # 10 < d -> classify_trend forecast = trending) /\
  (d < - (1 # 10) -> classify_trend forecast = declining) /\
  (- (1 # 10) <= d <= 1 # 10 -> classify_trend forecast = stable).
Proof.
  intro NE. simpl. unfold classify_trend.
  assert (map trend (tail 30 forecast) <> []) as T.
  { intro E. apply (f_equal (@length Q)) in E. rewrite length_map in E.
    unfold tail in E. rewrite length_skipn in E.
    change (length (@nil Q)) with 0%nat in E.
    destruct forecast as [|p f]; [congruence|]. cbn [length] in E. lia. }
  assert (map trend (head 30 forecast) <> []) as Hd.
  { destruct forecast; [congruence | discriminate]. }
  rewrite (series_mean_nonempty T), (series_mean_nonempty Hd).
  set (d := mean _ - mean _).
  destruct (Qgtb d (1 # 10)) eqn:G1.
  - apply Qgtb_true in G1. repeat split; intros; try reflexivity; lra.
  - apply Qgtb_false in G1. destruct (Qgtb (- (1 # 10)) d) eqn:G2.
    + apply Qgtb_true in G2. repeat split; intros; try reflexivity; lra.
    + apply Qgtb_false in G2. repeat split; intros; try reflexivity; lra.
Qed.

Lemma confidence_of_bounds mape :
  3 # 10 <= confidence_of mape /\ confidence_of mape <= 95 # 100.
Proof.
  unfold confidence_of. destruct mape as [m|].
  - destruct (Qgtb (95 # 100) (1 - m / 100)) eqn:A.
    + apply Qgtb_true in A.
      destruct (Qgtb (1 - m / 100) (3 # 10)) eqn:B.
      * apply Qgtb_true in B. split; lra.
      * split; [apply Qle_refl | discriminate].
    + split; discriminate.
  - split; discriminate.
Qed.

Lemma confidence_of_clamp m :
  confidence_of (Some m) == clamp (1 - m / 100) (3 # 10) (95 # 100).
Proof.
  unfold confidence_of, clamp.
  destruct (Qgtb (95 # 100) (1 - m / 100)) eqn:A.
  - apply Qgtb_true in A. rewrite (Q.min_r (95 # 100) (1 - m / 100)) by lra.
    destruct (Qgtb (1 - m / 100) (3 # 10)) eqn:B.
    + apply Qgtb_true in B. symmetry. apply Q.max_r. lra.
    + apply Qgtb_false in B. symmetry. apply Q.max_l. exact B.
  - apply Qgtb_false in A. rewrite (Q.min_l (95 # 100) (1 - m / 100)) by exact A.
    simpl. symmetry. apply Q.max_r. discriminate.
Qed.

Section EngineClaims.
Variable Model : Type.
Variable fit : ProphetConfig -> list (Row Q) -> result Model.
Variable predict : Model -> list Z -> result (list PredRow).

(** C5.  For every horizon H asked for, the entry stored under
    [forecast_<H>d] is computed from the prediction over the history
    extended by H days, and only from its last H rows, which are the rows
    of the H appended days: the point total is the sum of [yhat] clipped
    at 0 and rounded, the lower bound the sum of [yhat_lower] rounded and
    clipped at 0, the upper bound the sum of [yhat_upper] rounded and not
    clipped; each rounding is to a nearest integer. *)
Theorem C5_horizon_totals_over_future_days
  (pd : list (Row Q)) (periods : list nat) (w w' : World) (r : ForecastResult) :
  (forall m l f, predict m l = Ok f -> map pred_ds f = l) ->
  train_and_forecast fit predict pd periods w = (Ok r, w') ->
  forall H, In H periods ->
  exists model forecast entry,
    fit (model_config pd) pd = Ok model /\
    predict model (make_future_dataframe (map (@ds Q) pd) H) = Ok forecast /\
    dict_get (forecast_key H) (forecasts r) = Some entry /\
    let future := tail H forecast in
    length future = H /\
    map pred_ds future =
      map (fun i => (last (map (@ds Q) pd) 0 + Z.of_nat i)%Z) (seq 1 H) /\
    value entry = py_round (max0 (Qsum (map yhat future))) /\
    lower_bound entry = Z.max 0 (py_round (Qsum (map yhat_lower future))) /\
    upper_bound entry = py_round (Qsum (map yhat_upper future)) /\
    (0 <= value entry)%Z /\ (0 <= lower_bound entry)%Z /\
    Qabs (inject_Z (value entry) - Qmax 0 (Qsum (map yhat future))) <= 1 # 2 /\
    Qabs (inject_Z (py_round (Qsum (map yhat_lower future)))
          - Qsum (map yhat_lower future)) <= 1 # 2 /\
    Qabs (inject_Z (upper_bound entry) - Qsum (map yhat_upper future)) <= 1 # 2.
Proof.
  intros Contract T H I. apply train_and_forecast_Ok in T.
  destruct T as [model [fs [fc [ins [w1 [w2 [F [L [_ ->]]]]]]]]]. simpl.
  apply forecast_loop_Ok in L. destruct L as [L1 _].
  destruct (L1 H I) as [forecast [P G]].
  exists model, forecast, (horizon_entry forecast H).
  split; [exact F|]. split; [exact P|]. split; [exact G|].
  apply Contract in P. unfold make_future_dataframe in P.
  apply tail_of_extension in P. rewrite length_map, length_seq in P.
  destruct P as [P1 P2].
  split; [exact P1|]. split; [exact P2|].
  unfold horizon_entry. simpl.
  split; [reflexivity|]. split; [reflexivity|]. split; [reflexivity|].
  split; [apply py_round_nonneg, max0_nonneg|]. split; [lia|].
  split; [apply py_round_max0_nearest|].
  split; apply py_round_nearest.
Qed.

Lemma classify_trend_thresholds forecast :
  let d := mean (map trend (tail 30 forecast)) - mean (map trend (head 30 forecast)) in
  (1 # 10 < d -> classify_trend forecast = trending) /\
  (d < - (1 # 10) -> classify_trend forecast = declining) /\
  (- (1 # 10) <= d <= 1 # 10 -> classify_trend forecast = stable).
Proof.
  destruct forecast as [|p f].
  - vm_compute. repeat split; intros; try reflexivity; discriminate.
  - apply classify_trend_spec. discriminate.
Qed.

Lemma head_prefix (A : Type) (n : nat) (l : list A) :
  l = head n l ++ skipn n l /\ length (head n l) = Nat.min n (length l).
Proof.
  unfold head. split; [symmetry; apply firstn_skipn | apply length_firstn].
Qed.

Lemma tail_suffix (A : Type) (n : nat) (l : list A) :
  l = firstn (length l - n) l ++ tail n l /\
  length (tail n l) = Nat.min n (length l).
Proof.
  unfold tail. split; [symmetry; apply firstn_skipn|].
  rewrite length_skipn. lia.
Qed.

Lemma head_of_extension (history future : list Z) (forecast : list PredRow) (n : nat) :
  map pred_ds forecast = history ++ future ->
  (n <= length history)%nat ->
  map pred_ds (head n forecast) = firstn n history.
Proof.
  intros E L. unfold head. rewrite <- firstn_map, E, firstn_app.
  replace (n - length history)%nat with 0%nat by lia.
  simpl. apply app_nil_r.
Qed.

Lemma tail_of_future (history : list Z) (forecast : list PredRow) (H n : nat) :
  map pred_ds forecast = make_future_dataframe history H ->
  (n <= H)%nat ->
  map pred_ds (tail n forecast) =
  map (fun i => (last history 0 + Z.of_nat i)%Z) (seq (1 + (H - n)) n).
Proof.
  intros E L. unfold make_future_dataframe in E.
  replace H with ((H - n) + n)%nat in E at 1 by lia.
  rewrite seq_app, map_app, app_assoc in E.
  apply tail_of_extension in E. rewrite length_map, length_seq in E.
  apply E.
Qed.

(** C6.  The trend status is computed from the prediction of the last
    horizon of the list, the one the loop leaves behind, whether or not
    it is the longest: the mean trend over the last 30 rows of that
    prediction minus the mean trend over its first 30 rows (all its rows
    when it has fewer than 30), above 0.1 trending, below -0.1 declining,
    otherwise stable.  The first 30 rows are the start of the history
    when the history has 30 days, the last 30 rows are the last 30
    appended days when the horizon has 30 days. *)
Theorem C6_trend_from_last_horizon
  (pd : list (Row Q)) (periods : list nat) (w w' : World) (r : ForecastResult) :
  (forall m l f, predict m l = Ok f -> map pred_ds f = l) ->
  train_and_forecast fit predict pd periods w = (Ok r, w') ->
  let H := last periods 0%nat in
  let history := map (@ds Q) pd in
  periods <> [] /\
  exists model forecast first30 last30 before after,
    fit (model_config pd) pd = Ok model /\
    predict model (make_future_dataframe history H) = Ok forecast /\
    length forecast = (length pd + H)%nat /\
    forecast = first30 ++ after /\
    length first30 = Nat.min 30 (length forecast) /\
    forecast = before ++ last30 /\
    length last30 = Nat.min 30 (length forecast) /\
    ((30 <= length pd)%nat -> map pred_ds first30 = firstn 30 history) /\
    ((30 <= H)%nat ->
     map pred_ds last30 =
     map (fun i => (last history 0 + Z.of_nat i)%Z) (seq (H - 29) 30)) /\
    let d := mean (map trend last30) - mean (map trend first30) in
    (1 # 10 < d -> trend_status r = trending) /\
    (d < - (1 # 10) -> trend_status r = declining) /\
    (- (1 # 10) <= d <= 1 # 10 -> trend_status r = stable).
Proof.
  intros Contract T. cbv zeta. apply train_and_forecast_Ok in T.
  destruct T as [model [fs [fc [ins [w1 [w2 [F [L [_ ->]]]]]]]]].
  cbn [trend_status].
  apply forecast_loop_Ok in L. destruct L as [_ [_ L3]].
  destruct periods as [|p0 rest]; [discriminate|].
  split; [discriminate|].
  destruct L3 as [forecast [P E]]. injection E as ->.
  set (H := last (p0 :: rest) 0%nat) in *.
  exists model, forecast, (head 30 forecast), (tail 30 forecast),
    (firstn (length forecast - 30) forecast), (skipn 30 forecast).
  split; [exact F|]. split; [exact P|].
  pose proof (Contract _ _ _ P) as D.
  assert (length forecast = (length pd + H)%nat) as Len.
  { apply (f_equal (@length Z)) in D. unfold make_future_dataframe in D.
    rewrite length_map, length_app, !length_map, length_seq in D. exact D. }
  split; [exact Len|].
  split; [apply head_prefix|]. split; [apply head_prefix|].
  split; [apply tail_suffix|]. split; [apply tail_suffix|].
  split.
  { intro L30. apply (head_of_extension _ _ _ D). now rewrite length_map. }
  split.
  { intro H30. rewrite (tail_of_future _ _ D H30).
    replace (1 + (H - 30))%nat with (H - 29)%nat by lia. reflexivity. }
  apply classify_trend_thresholds.
Qed.

(** C8.  The confidence score of every produced result is
    [max(0.3, min(0.95, 1 - mape/100))]: the clamp of [1 - mape/100] to
    [0.3, 0.95] for every number [mape], 0.95 at [mape = 0] and 0.3 above
    100, and within [0.3, 0.95] also when [mape] is NaN. *)
Theorem C8_confidence_is_clamped
  (pd : list (Row Q)) (periods : list nat) (w w' : World) (r : ForecastResult) :
  train_and_forecast fit predict pd periods w = (Ok r, w') ->
  confidence_score r = confidence_of (mape r) /\
  (forall m, mape r = Some m ->
     confidence_score r == clamp (1 - m / 100) (3 # 10) (95 # 100)) /\
  3 # 10 <= confidence_score r /\ confidence_score r <= 95 # 100 /\
  (forall m, confidence_of (Some m) == clamp (1 - m / 100) (3 # 10) (95 # 100)) /\
  (forall mape, 3 # 10 <= confidence_of mape /\ confidence_of mape <= 95 # 100) /\
  confidence_of (Some 0) == 95 # 100 /\
  (forall m, 100 < m -> confidence_of (Some m) == 3 # 10).
Proof.
  intro T. apply train_and_forecast_Ok in T.
  destruct T as [model [fs [fc [ins [w1 [w2 [_ [_ [_ ->]]]]]]]]]. simpl.
  split; [reflexivity|]. split.
  { intros m E. rewrite E. apply confidence_of_clamp. }
  split; [apply confidence_of_bounds|]. split; [apply confidence_of_bounds|].
  split; [apply confidence_of_clamp|]. split; [apply confidence_of_bounds|].
  split; [reflexivity|].
  intros m Hm. rewrite confidence_of_clamp. unfold clamp.
  assert (1 < m / 100) as D by (apply Qlt_shift_div_l; lra).
  rewrite (Q.min_r (95 # 100) (1 - m / 100)) by lra.
  apply Q.max_l. lra.
Qed.
End EngineClaims.

Lemma stub_predict_dates (m : unit) (l : list Z) (f : list PredRow) :
  stub_predict m l = Ok f -> map pred_ds f = l.
Proof.
  unfold stub_predict. intro E. injection E as <-.
  rewrite map_map. simpl. apply map_id.
Qed.

Lemma stub_run :
  train_and_forecast stub_fit stub_predict two_points default_periods empty_world
  = (Ok stub_result, stub_world).
Proof. vm_compute. reflexivity. Qed.

Lemma C5_witness :
  In 7%nat default_periods /\
  exists entry,
    dict_get (forecast_key 7) (forecasts stub_result) = Some entry /\
    entry = mkHorizon 14 7 21 /\
    (0 <= value entry)%Z /\ (0 <= lower_bound entry)%Z.
Proof.
  assert (In 7%nat default_periods) as I by (simpl; tauto).
  split; [exact I|].
  destruct (@C5_horizon_totals_over_future_days unit stub_fit stub_predict
              two_points default_periods empty_world stub_world stub_result
              stub_predict_dates stub_run 7%nat I)
    as [model [forecast [entry [_ [_ [G [_ [_ [_ [_ [_ [V [Lw _]]]]]]]]]]]]].
  exists entry. split; [exact G|]. split; [|split; assumption].
  assert (dict_get (forecast_key 7) (forecasts stub_result)
          = Some (mkHorizon 14 7 21)) as G' by (vm_compute; reflexivity).
  congruence.
Defined.

Lemma C6_witness :
  let H := last default_periods 0%nat in
  let history := map (@ds Q) two_points in
  H = 365%nat /\
  default_periods <> [] /\
  exists model forecast first30 last30 before after,
    stub_fit (model_config two_points) two_points = Ok model /\
    stub_predict model (make_future_dataframe history H) = Ok forecast /\
    length forecast = (length two_points + H)%nat /\
    forecast = first30 ++ after /\
    length first30 = Nat.min 30 (length forecast) /\
    forecast = before ++ last30 /\
    length last30 = Nat.min 30 (length forecast) /\
    ((30 <= length two_points)%nat -> map pred_ds first30 = firstn 30 history) /\
    ((30 <= H)%nat ->
     map pred_ds last30 =
     map (fun i => (last history 0 + Z.of_nat i)%Z) (seq (H - 29) 30)) /\
    let d := mean (map trend last30) - mean (map trend first30) in
    (1 # 10 < d -> trend_status stub_result = trending) /\
    (d < - (1 # 10) -> trend_status stub_result = declining) /\
    (- (1 # 10) <= d <= 1 # 10 -> trend_status stub_result = stable).
Proof.
  split; [reflexivity|].
  apply (@C6_trend_from_last_horizon unit stub_fit stub_predict
           two_points default_periods empty_world stub_world stub_result).
  - exact stub_predict_dates.
  - exact stub_run.
Defined.

(** With the horizons in the order 365, 7 the longest horizon's prediction
    rises by more than 0.1 and would be classified as trending, yet the
    status returned is stable: it comes from the 7-day prediction. *)
Lemma C6_counterexample :
  exists longest,
    train_and_forecast stub_fit stub_predict two_points [365; 7]%nat empty_world
    = (Ok reversed_result, reversed_world) /\
    stub_predict tt (make_future_dataframe (map (@ds Q) two_points) 365) = Ok longest /\
    1 # 10 < mean (map trend (tail 30 longest)) - mean (map trend (head 30 longest)) /\
    classify_trend longest = trending /\
    trend_status reversed_result = stable.
Proof.
  eexists. split; [vm_compute; reflexivity|]. split; [reflexivity|].
  split; [vm_compute; reflexivity|]. split; vm_compute; reflexivity.
Qed.

Lemma C8_witness :
  confidence_score stub_result = confidence_of (mape stub_result) /\
  3 # 10 <= confidence_score stub_result /\
  confidence_score stub_result <= 95 # 100.
Proof.
  destruct (@C8_confidence_is_clamped unit stub_fit stub_predict
              two_points default_periods empty_world stub_world stub_result stub_run)
    as [E [_ [Lo [Hi _]]]].
  split; [exact E|]. split; assumption.
Defined.

Lemma C10_witness :
  train_and_forecast stub_fit stub_predict two_points [7; 30]%nat empty_world
  = (Ok short_result, short_world) /\
  exists e w3,
    save_forecasts_to_database (quiet_env []) "u" "p" short_result empty_world
    = (Raise e, w3) /\
    committed w3 = committed empty_world /\
    exists q, In q default_periods /\ ~ In q [7; 30]%nat /\
              e = KeyError (forecast_key q).
Proof.
  assert (train_and_forecast stub_fit stub_predict two_points [7; 30]%nat empty_world
          = (Ok short_result, short_world)) as T by (vm_compute; reflexivity).
  split; [exact T|].
  destruct (@C10_persist_reads_the_four_default_keys unit stub_fit stub_predict
              (quiet_env []) two_points [7; 30]%nat empty_world short_world
              short_result "u" "p" T) as [_ [Miss _]].
  assert (In 90%nat default_periods) as I by (simpl; tauto).
  assert (~ In 90%nat [7; 30]%nat) as N.
  { simpl. intros [E|[E|[]]]; discriminate. }
  destruct (Miss 90%nat I N empty_world) as [e [w3 [S [C K]]]].
  exists e, w3. split; [exact S|]. split; [exact C|].
  apply K. reflexivity.
Defined.

(** With the horizons 7 and 30 only, the first key the save misses is
    [forecast_90d]; the upper bound of a horizon is not clipped. *)
Example missing_horizon_raises_KeyError :
  fst (save_forecasts_to_database (quiet_env []) "u" "p" short_result empty_world)
  = Raise (KeyError "forecast_90d").
Proof. vm_compute. reflexivity. Qed.

Example upper_bound_may_be_negative :
  horizon_entry [mkPred 1 (-3) (-5) (-1) 0; mkPred 2 (-3) (-5) (-1) 0] 2
  = mkHorizon 0 0 (-2).
Proof. vm_compute. reflexivity. Qed.

Example py_round_ties_to_even :
  py_round (5 # 2) = 2%Z /\ py_round (7 # 2) = 4%Z /\ py_round (-(1 # 2)) = 0%Z.
Proof. vm_compute. repeat split. Qed.

(* ================================================================== *)
(** * Facts about the orchestrator *)

Lemma same_key_true user_id product_id x :
  same_key user_id product_id x = true ->
  row_user_id x = user_id /\ row_product_id x = product_id.
Proof.
  unfold same_key. intro H. apply andb_true_iff in H. destruct H as [A B].
  apply String.eqb_eq in A. apply String.eqb_eq in B. now split.
Qed.

Lemma stored_for_other user_id product_id other table row :
  other <> product_id ->
  same_key user_id product_id row = true ->
  stored_for user_id other
    (filter (fun x => negb (same_key user_id product_id x)) table ++ [row])
  = stored_for user_id other table.
Proof.
  intros N K. unfold stored_for. rewrite filter_app. simpl.
  assert (same_key user_id other row = false) as R.
  { destruct (same_key user_id other row) eqn:E; [|reflexivity].
    apply same_key_true in E. apply same_key_true in K.
    destruct E as [_ E]. destruct K as [_ K]. congruence. }
  rewrite R, app_nil_r.
  induction table as [|x t IH]; simpl; [reflexivity|].
  destruct (same_key user_id product_id x) eqn:E; simpl.
  - destruct (same_key user_id other x) eqn:E'; [|exact IH].
    apply same_key_true in E. apply same_key_true in E'.
    destruct E as [_ E]. destruct E' as [_ E']. congruence.
  - destruct (same_key user_id other x); [now rewrite IH | exact IH].
Qed.

Section OrchestratorFacts.
Variable sqrt_fn : Q -> Q.
Variable Model : Type.
Variable fit : ProphetConfig -> list (Row Q) -> result Model.
Variable predict : Model -> list Z -> result (list PredRow).
Variable env : Env.

Lemma save_frame user_id product_id r w :
  let w' := snd (save_forecasts_to_database env user_id product_id r w) in
  stdout w' = stdout w /\ connection w' = connection w /\ closed w' = closed w.
Proof.
  unfold save_forecasts_to_database, try_finally, try_except, bind, lookup_value.
  destruct (save_fault env product_id);
    destruct (dict_get "forecast_7d" (forecasts r));
    destruct (dict_get "forecast_30d" (forecasts r));
    destruct (dict_get "forecast_90d" (forecasts r));
    destruct (dict_get "forecast_365d" (forecasts r));
    cbn; auto.
Qed.

(** A result for the configured horizons has the four keys the store reads. *)
Lemma default_result_has_keys pd w r w' :
  train_and_forecast fit predict pd default_periods w = (Ok r, w') ->
  exists h7 h30 h90 h365,
    dict_get "forecast_7d" (forecasts r) = Some h7 /\
    dict_get "forecast_30d" (forecasts r) = Some h30 /\
    dict_get "forecast_90d" (forecasts r) = Some h90 /\
    dict_get "forecast_365d" (forecasts r) = Some h365.
Proof.
  intro T. pose proof (@train_and_forecast_keys _ fit predict _ _ _ _ _ T) as K.
  destruct (proj1 (K 7%nat)) as [h7 H7]; [simpl; tauto|].
  destruct (proj1 (K 30%nat)) as [h30 H30]; [simpl; tauto|].
  destruct (proj1 (K 90%nat)) as [h90 H90]; [simpl; tauto|].
  destruct (proj1 (K 365%nat)) as [h365 H365]; [simpl; tauto|].
  exists h7, h30, h90, h365. auto.
Qed.

(** A product fails exactly when the engine raises or the save meets a
    server fault. *)
Lemma product_succeeds_iff user_id pid info :
  product_succeeds fit predict env user_id (pid, info) = true <->
  (exists r, fst (train_and_forecast fit predict (data info) default_periods
                    empty_world) = Ok r) /\
  save_fault env pid = NoFault.
Proof.
  unfold product_succeeds. simpl.
  destruct (train_and_forecast fit predict (data info) default_periods empty_world)
    as [[r|e] w1] eqn:T; simpl.
  - destruct (@default_result_has_keys _ _ _ _ T) as [h7 [h30 [h90 [h365 [H7 [H30 [H90 H365]]]]]]].
    destruct (fault_dec (save_fault env pid)) as [F|F].
    + rewrite (@save_success env user_id pid r empty_world h7 h30 h90 h365 F H7 H30 H90 H365).
      simpl. split; [intros _; split; [eauto | exact F] | reflexivity].
    + destruct (@save_failure env user_id pid r empty_world (or_introl F))
        as [e [e' [w0 [S _]]]]. rewrite S. simpl.
      split; [discriminate | intros [_ F']; contradiction].
  - split; [discriminate | intros [[r R] _]; discriminate].
Qed.

(** One turn of the product loop never raises: it counts the product when
    its [try] block completes and logs the failure otherwise; it touches
    no other product's stored rows. *)
Lemma attempt_product_step user_id pid info n w :
  working w = committed w ->
  exists w' ms,
    attempt_product fit predict env user_id pid info n w =
      (Ok (if product_succeeds fit predict env user_id (pid, info) then S n else n), w') /\
    working w' = committed w' /\
    stdout w' = stdout w /\ connection w' = connection w /\ closed w' = closed w /\
    log w' = log w ++ ms /\
    In (MsgGenerating (info_product_name info)) ms /\
    (product_succeeds fit predict env user_id (pid, info) = true -> In (MsgSaved pid) ms) /\
    (product_succeeds fit predict env user_id (pid, info) = false ->
     exists e, In (MsgProductFailed pid e) ms) /\
    (forall other, other <> pid ->
       stored_for user_id other (committed w') = stored_for user_id other (committed w)).
Proof.
  intro WC.
  destruct (train_and_forecast_logs_only fit predict (data info) default_periods)
    as [rt [mst Ht]].
  unfold product_succeeds, attempt_product, try_except. simpl fst. simpl snd.
  unfold bind at 1. unfold logger at 1. unfold bind at 1.
  rewrite !Ht. cbn [fst].
  destruct rt as [r|e].
  - assert (exists w0, train_and_forecast fit predict (data info) default_periods
                         empty_world = (Ok r, w0)) as [w0 T] by (rewrite Ht; eauto).
    destruct (@default_result_has_keys _ _ _ _ T) as [h7 [h30 [h90 [h365 [H7 [H30 [H90 H365]]]]]]].
    unfold bind at 1.
    match goal with |- context [save_forecasts_to_database env user_id pid r ?x] =>
      set (w2 := x) end.
    destruct (fault_dec (save_fault env pid)) as [F|F].
    + rewrite (@save_success env user_id pid r w2 h7 h30 h90 h365 F H7 H30 H90 H365).
      rewrite (@save_success env user_id pid r empty_world h7 h30 h90 h365 F H7 H30 H90 H365).
      cbn [fst]. unfold ret.
      eexists. exists ([MsgGenerating (info_product_name info)] ++ mst ++ [MsgSaved pid]).
      split; [reflexivity|]. cbn [working committed stdout connection closed log].
      split; [reflexivity|]. do 3 (split; [reflexivity|]).
      split; [subst w2; simpl; now rewrite <- !app_assoc|].
      split; [now left|].
      split; [intros _; apply in_or_app; right; apply in_or_app; right; now left|].
      split; [discriminate|].
      intros other N. subst w2. cbn [working add_log]. rewrite WC.
      apply stored_for_other; [exact N | apply same_key_stored_row].
    + destruct (@save_failure env user_id pid r w2 (or_introl F))
        as [e [e' [w3 [S [C [W [L _]]]]]]].
      destruct (@save_failure env user_id pid r empty_world (or_introl F))
        as [e0 [e0' [w4 [S0 _]]]].
      pose proof (save_frame user_id pid r w2) as Fr. rewrite S in Fr. simpl in Fr.
      destruct Fr as [Fo [Fc Fl]].
      rewrite S, S0. cbn [fst]. unfold bind, logger, ret.
      eexists.
      exists ([MsgGenerating (info_product_name info)] ++ mst
              ++ [MsgSaveError e'; MsgProductFailed pid e]).
      split; [reflexivity|]. cbn [working committed stdout connection closed log].
      split; [congruence|]. split; [exact Fo|]. split; [exact Fc|]. split; [exact Fl|].
      split; [rewrite L; subst w2; simpl; now rewrite <- !app_assoc|].
      split; [now left|]. split; [discriminate|].
      split; [intros _; exists e; apply in_or_app; right; apply in_or_app; right;
              right; now left|].
      intros other N. rewrite C. reflexivity.
  - unfold bind, logger, ret.
    eexists. exists ([MsgGenerating (info_product_name info)] ++ mst
                     ++ [MsgProductFailed pid e]).
    split; [reflexivity|]. cbn [working committed stdout connection closed log add_log].
    split; [exact WC|]. do 3 (split; [reflexivity|]).
    split; [now rewrite <- !app_assoc|].
    split; [now left|]. split; [discriminate|].
    split; [intros _; exists e; apply in_or_app; right; apply in_or_app; right; now left|].
    reflexivity.
Qed.

Lemma product_loop_spec user_id items : forall n w,
  working w = committed w ->
  exists w' ms,
    product_loop fit predict env user_id items n w =
      (Ok (n + length (filter (product_succeeds fit predict env user_id) items))%nat, w') /\
    working w' = committed w' /\
    stdout w' = stdout w /\ connection w' = connection w /\ closed w' = closed w /\
    log w' = log w ++ ms /\
    (forall pid info, In (pid, info) items ->
       In (MsgGenerating (info_product_name info)) ms /\
       (product_succeeds fit predict env user_id (pid, info) = true ->
        In (MsgSaved pid) ms) /\
       (product_succeeds fit predict env user_id (pid, info) = false ->
        exists e, In (MsgProductFailed pid e) ms)) /\
    (forall other, ~ In other (dict_keys items) ->
       stored_for user_id other (committed w') = stored_for user_id other (committed w)).
Proof.
  induction items as [|[pid info] rest IH]; intros n w WC.
  - exists w, []. simpl. rewrite Nat.add_0_r, app_nil_r.
    repeat (split; [reflexivity || exact WC|]). split; [intros ? ? []|reflexivity].
  - destruct (@attempt_product_step user_id pid info n w WC)
      as [w1 [ms1 [A [WC1 [So [Sc [Sl [L1 [G1 [Sv1 [Fl1 St1]]]]]]]]]]].
    destruct (IH (if product_succeeds fit predict env user_id (pid, info)
                  then S n else n) w1 WC1)
      as [w2 [ms2 [B [WC2 [So2 [Sc2 [Sl2 [L2 [Each St2]]]]]]]]].
    exists w2, (ms1 ++ ms2).
    split.
    { cbn [product_loop]. unfold bind. rewrite A, B. f_equal. f_equal.
      cbn [filter]. destruct (product_succeeds fit predict env user_id (pid, info));
        cbn [length]; lia. }
    split; [exact WC2|]. split; [congruence|]. split; [congruence|]. split; [congruence|].
    split; [rewrite L2, L1; now rewrite app_assoc|].
    split.
    + intros p i [E|I].
      * injection E as <- <-. split; [apply in_or_app; now left|].
        split; [intro T; apply in_or_app; left; now apply Sv1|].
        intro T. destruct (Fl1 T) as [e He]. exists e. apply in_or_app. now left.
      * destruct (Each p i I) as [G [Sv Fl]]. split; [apply in_or_app; now right|].
        split; [intro T; apply in_or_app; right; now apply Sv|].
        intro T. destruct (Fl T) as [e He]. exists e. apply in_or_app. now right.
    + intros other N. simpl in N. rewrite St2 by tauto. apply St1.
      intro E. apply N. left. now symmetry.
Qed.
End OrchestratorFacts.

Lemma kept_groups_keys sqrt_fn groups k :
  In k (dict_keys (kept_groups sqrt_fn groups)) -> In k (map fst groups).
Proof.
  induction groups as [|[pid g] rest IH]; simpl; [tauto|].
  unfold dict_keys. rewrite map_app. intro I. apply in_app_or in I.
  destruct I as [I|I]; [|right; apply IH; exact I].
  destruct (fst (clean_group sqrt_fn pid g)); simpl in I; tauto.
Qed.

Lemma kept_groups_NoDup sqrt_fn groups :
  NoDup (map fst groups) -> NoDup (dict_keys (kept_groups sqrt_fn groups)).
Proof.
  induction groups as [|[pid g] rest IH]; simpl; intro ND; [constructor|].
  inversion ND as [|? ? N ND']; subst.
  unfold dict_keys. rewrite map_app.
  destruct (fst (clean_group sqrt_fn pid g)); simpl; [|now apply IH].
  constructor; [|now apply IH]. intro I. apply N.
  eapply kept_groups_keys. exact I.
Qed.

Lemma clean_group_kept sqrt_fn pid group :
  (exists info, fst (clean_group sqrt_fn pid group) = Some info) <->
  (2 <= length (prepare group))%nat.
Proof.
  unfold clean_group. destruct group as [|first rest].
  - simpl. split; [intros [i H]; discriminate | lia].
  - destruct (Nat.ltb_spec (length (prepare (first :: rest))) 2); simpl.
    + split; [intros [i E]; discriminate | lia].
    + split; [intros _; assumption | eauto].
Qed.

Lemma kept_groups_length sqrt_fn groups :
  length (kept_groups sqrt_fn groups) =
  length (filter (fun g => (2 <=? length (prepare (snd g)))%nat) groups).
Proof.
  unfold kept_groups.
  induction groups as [|[pid g] rest IH]; [reflexivity|].
  cbn [flat_map filter fst snd]. rewrite length_app, IH.
  pose proof (clean_group_kept sqrt_fn pid g) as K.
  destruct (Nat.leb_spec 2 (length (prepare g))) as [L|L].
  - destruct (proj2 K L) as [i E]. rewrite E. reflexivity.
  - destruct (fst (clean_group sqrt_fn pid g)) as [i|]; [|reflexivity].
    assert (2 <= length (prepare g))%nat by (apply K; eauto). lia.
Qed.

Lemma filter_length_lt (A : Type) (f : A -> bool) (l : list A) (a : A) :
  In a l -> f a = false -> (length (filter f l) < length l)%nat.
Proof.
  induction l as [|x l IH]; simpl; [tauto|]. intros [->|I] Fa.
  - rewrite Fa. pose proof (filter_length_le f l). lia.
  - specialize (IH I Fa). destruct (f x); simpl; lia.
Qed.

Section RunFacts.
Variable sqrt_fn : Q -> Q.
Variable Model : Type.
Variable fit : ProphetConfig -> list (Row Q) -> result Model.
Variable predict : Model -> list Z -> result (list PredRow).
Variable env : Env.

Lemma connect_to_database_Ok w :
  connect_result env = Ok tt ->
  connect_to_database env w =
  (Ok tt, mkWorld (committed w) (committed w) true false (ticks w)
            (log w ++ [MsgConnected]) (stdout w)).
Proof.
  intro H. unfold connect_to_database, try_except, bind, lift. rewrite H. reflexivity.
Qed.

Lemma fetch_sales_data_Ok user_id df w :
  fetch_result env user_id = Ok df ->
  fetch_sales_data env user_id w =
  (Ok df, add_log w [MsgFetched (length df) user_id]).
Proof.
  intro H. unfold fetch_sales_data, try_except, bind, lift. rewrite H. reflexivity.
Qed.

Lemma fit_failure_raises pd periods w e :
  fit (model_config pd) pd = Raise e ->
  fst (train_and_forecast fit predict pd periods w) = Raise e.
Proof.
  intro H. unfold train_and_forecast, try_except, bind, logger, lift.
  rewrite H. reflexivity.
Qed.

(** A run whose connection and fetch succeed completes without an error;
    with at least one cleaned series it ends by logging the run summary. *)
Lemma run_forecasting_for_user_spec user_id df w :
  connect_result env = Ok tt ->
  fetch_result env user_id = Ok df ->
  let cleaned := fst (clean_and_prepare_data sqrt_fn df) in
  let ok := product_succeeds fit predict env user_id in
  exists w' ms,
    run_forecasting_for_user sqrt_fn fit predict env user_id w = (Ok tt, w') /\
    stdout w' = stdout w /\
    log w' = log w ++ ms /\
    (forall other, ~ In other (dict_keys cleaned) ->
       stored_for user_id other (committed w') = stored_for user_id other (committed w)) /\
    (cleaned <> [] ->
     exists before during,
       ms = before ++ during ++
            [MsgCompleted (length (filter ok cleaned)) (length cleaned)] /\
       forall pid info, In (pid, info) cleaned ->
         In (MsgGenerating (info_product_name info)) during /\
         (ok (pid, info) = true -> In (MsgSaved pid) during) /\
         (ok (pid, info) = false -> exists e, In (MsgProductFailed pid e) during)).
Proof.
  intros HC HF. simpl.
  unfold run_forecasting_for_user, try_finally, try_except.
  unfold bind at 1. unfold logger at 1. unfold bind at 1.
  rewrite (connect_to_database_Ok _ HC).
  unfold bind at 1. rewrite (fetch_sales_data_Ok _ _ HF).
  remember (clean_and_prepare_data sqrt_fn df) as cl eqn:Ecl.
  destruct df as [|rec rest].
  - (* no sales data *)
    assert (fst cl = []) as E0 by (subst cl; reflexivity).
    rewrite E0. eexists. eexists. cbn.
    split; [reflexivity|]. split; [reflexivity|].
    split; [rewrite <- !app_assoc; reflexivity|].
    split; [reflexivity | congruence].
  - cbv beta iota. unfold bind at 1. unfold logger_all at 1.
    destruct (fst cl) as [|c cs] eqn:Efst.
    + eexists. eexists. cbn.
      split; [reflexivity|]. split; [reflexivity|].
      split; [rewrite <- !app_assoc; reflexivity|].
      split; [reflexivity | congruence].
    + cbv beta iota zeta. unfold bind at 1.
      match goal with |- context [product_loop fit predict env user_id (c :: cs) 0 ?x] =>
        set (w3 := x) end.
      destruct (@product_loop_spec Model fit predict env user_id (c :: cs) 0%nat w3
                  eq_refl)
        as [w4 [lms [P [WC [So [Sc [Sl [L [Each St]]]]]]]]].
      rewrite P. unfold logger, close_connection, set_connection.
      cbn [fst snd connection committed working closed ticks log stdout].
      rewrite Sc. subst w3. unfold add_log in *.
      cbn [fst snd connection committed working closed ticks log stdout] in *.
      eexists.
      exists (([MsgStart user_id; MsgConnected;
                MsgFetched (length (rec :: rest)) user_id] ++ snd cl) ++ lms ++
              [MsgCompleted
                 (length (filter (product_succeeds fit predict env user_id) (c :: cs)))
                 (length (c :: cs))]).
      split; [reflexivity|].
      cbn [fst snd connection committed working closed ticks log stdout].
      split; [exact So|].
      split; [rewrite L; rewrite <- !app_assoc; reflexivity|].
      split; [exact St|].
      intros _.
      exists ([MsgStart user_id; MsgConnected;
               MsgFetched (length (rec :: rest)) user_id] ++ snd cl), lms.
      split; [reflexivity | exact Each].
Qed.

Lemma main_spec prog user_id df w :
  connect_result env = Ok tt ->
  fetch_result env user_id = Ok df ->
  exists w',
    main sqrt_fn fit predict env [prog; user_id] w = (Ok 0%Z, w') /\
    stdout w' = stdout w ++ [OutCompleted user_id] /\
    exists w0, run_forecasting_for_user sqrt_fn fit predict env user_id
                 (mkWorld (committed w) (working w) false false (ticks w) (log w)
                    (stdout w)) = (Ok tt, w0) /\
               log w' = log w0 /\ committed w' = committed w0.
Proof.
  intros HC HF. unfold main, try_except.
  unfold bind at 1. unfold set_connection at 1.
  unfold bind at 1.
  destruct (@run_forecasting_for_user_spec user_id df
              (mkWorld (committed w) (working w) false false (ticks w) (log w)
                 (stdout w)) HC HF)
    as [w0 [ms [R [So _]]]].
  rewrite R. unfold bind, print, ret. eexists.
  split; [reflexivity|]. cbn [stdout log committed].
  split; [rewrite So; reflexivity|].
  exists w0. auto.
Qed.
End RunFacts.

(* ================================================================== *)
(** * Failure isolation (C1) and skipped products (C2) *)

Section OrchestratorClaims.
Variable sqrt_fn : Q -> Q.
Variable Model : Type.
Variable fit : ProphetConfig -> list (Row Q) -> result Model.
Variable predict : Model -> list Z -> result (list PredRow).
Variable env : Env.

Lemma fit_failure_fails_product user_id pid info e :
  fit (model_config (data info)) (data info) = Raise e ->
  product_succeeds fit predict env user_id (pid, info) = false.
Proof.
  intro H. destruct (product_succeeds fit predict env user_id (pid, info)) eqn:E;
    [|reflexivity].
  apply product_succeeds_iff in E. destruct E as [[r R] _].
  rewrite (fit_failure_raises fit predict _ _ _ H) in R. discriminate.
Qed.

Lemma dict_In_functional (V : Type) (d : dict V) k (v v' : V) :
  NoDup (dict_keys d) -> In (k, v) d -> In (k, v') d -> v = v'.
Proof.
  induction d as [|[k0 v0] d IH]; simpl; [tauto|].
  intros ND I I'. inversion ND as [|? ? N ND']; subst.
  assert (forall u, In (k, u) d -> In k (dict_keys d)) as K.
  { intros u Iu. apply (in_map fst) in Iu. exact Iu. }
  destruct I as [E|I]; destruct I' as [E'|I'].
  - congruence.
  - injection E as -> _. exfalso. apply N. eapply K. exact I'.
  - injection E' as -> _. exfalso. apply N. eapply K. exact I.
  - now apply IH.
Qed.

Lemma one_of_three_fails (ok : string * ProductInfo -> bool)
  (cleaned : dict ProductInfo) pid info :
  NoDup (dict_keys cleaned) -> length cleaned = 3%nat ->
  In (pid, info) cleaned -> ok (pid, info) = false ->
  (forall pid' info', In (pid', info') cleaned -> pid' <> pid -> ok (pid', info') = true) ->
  length (filter ok cleaned) = 2%nat.
Proof.
  intros ND Len I Bad Good.
  assert (forall p i, In (p, i) cleaned ->
                      ok (p, i) = if string_dec p pid then false else true) as V.
  { intros p i Ip. destruct (string_dec p pid) as [->|Np]; [|now apply Good].
    now rewrite (@dict_In_functional _ cleaned pid i info ND Ip I). }
  assert (In pid (dict_keys cleaned)) as Ik by (apply (in_map fst) in I; exact I).
  destruct cleaned as [|[p1 i1] [|[p2 i2] [|[p3 i3] [|x xs]]]]; try discriminate.
  cbn [filter].
  rewrite (V p1 i1), (V p2 i2), (V p3 i3) by (simpl; tauto).
  simpl in ND, Ik. inversion ND as [|? ? N1 ND1]; subst.
  inversion ND1 as [|? ? N2 ND2]; subst. simpl in N1, N2.
  destruct (string_dec p1 pid), (string_dec p2 pid), (string_dec p3 pid);
    try reflexivity; exfalso; intuition congruence.
Qed.

(** C1.  A run whose connection and fetch succeed ends with exit code 0
    and the success message, whatever happens to single products.  Each
    cleaned product is attempted; a product whose fit, prediction or save
    fails is logged as failed and not counted, and the others are
    unaffected: the run summary, logged last, reports as successful
    exactly the products whose own [try] block completes, out of all
    cleaned products.  With three cleaned products of which exactly one
    fails in fitting, the summary reports 2 of 3. *)
Theorem C1_product_failures_are_isolated
  (prog user_id : string) (df : DataFrame) (w : World) :
  connect_result env = Ok tt ->
  fetch_result env user_id = Ok df ->
  let cleaned := fst (clean_and_prepare_data sqrt_fn df) in
  let ok := product_succeeds fit predict env user_id in
  exists w',
    main sqrt_fn fit predict env [prog; user_id] w = (Ok 0%Z, w') /\
    stdout w' = stdout w ++ [OutCompleted user_id] /\
    (forall pid info,
       ok (pid, info) = true <->
       (exists r, fst (train_and_forecast fit predict (data info) default_periods
                         empty_world) = Ok r) /\
       save_fault env pid = NoFault) /\
    (cleaned <> [] ->
     exists before during,
       log w' = log w ++ before ++ during ++
                [MsgCompleted (length (filter ok cleaned)) (length cleaned)] /\
       (forall pid info, In (pid, info) cleaned ->
          In (MsgGenerating (info_product_name info)) during /\
          (ok (pid, info) = true -> In (MsgSaved pid) during) /\
          (ok (pid, info) = false -> exists e, In (MsgProductFailed pid e) during)) /\
       (length cleaned = 3%nat ->
        (exists pid info e,
           In (pid, info) cleaned /\
           fit (model_config (data info)) (data info) = Raise e /\
           forall pid' info', In (pid', info') cleaned -> pid' <> pid ->
                              ok (pid', info') = true) ->
        length (filter ok cleaned) = 2%nat)).
Proof.
  intros HC HF. simpl.
  destruct (@main_spec sqrt_fn Model fit predict env prog user_id df w HC HF)
    as [w' [Mn [So [w0 [R [Lg _]]]]]].
  exists w'. split; [exact Mn|]. split; [exact So|].
  split; [intros pid info; apply product_succeeds_iff|].
  intro NE.
  destruct (@run_forecasting_for_user_spec sqrt_fn Model fit predict env user_id df
              (mkWorld (committed w) (working w) false false (ticks w) (log w)
                 (stdout w)) HC HF)
    as [w1 [ms [R1 [_ [L1 [_ Sum]]]]]].
  rewrite R in R1. injection R1 as <-.
  destruct (Sum NE) as [before [during [Ems Each]]].
  exists before, during. split.
  { rewrite Lg, L1, Ems. reflexivity. }
  split; [exact Each|].
  intros Len [pid [info [e [I [Ff Others]]]]].
  eapply one_of_three_fails; try eassumption.
  - rewrite clean_and_prepare_data_kept. apply kept_groups_NoDup, groupby_NoDup.
  - eapply fit_failure_fails_product. exact Ff.
Qed.

(** C2, as the code has it.  A product with fewer than 2 cleaned points is
    left out of the cleaned data; the run raises no error and does not
    touch the product's stored rows.  [total_products] is the number of
    cleaned series, that is of products with at least 2 cleaned points, so
    the skipped product counts toward neither [total_products] nor the
    successful count. *)
Theorem C2_short_series_are_left_out_of_both_counts
  (user_id pid : string) (df : DataFrame) (w : World) :
  connect_result env = Ok tt ->
  fetch_result env user_id = Ok df ->
  In pid (map fst (groupby df)) ->
  (length (prepare (group_of pid df)) < 2)%nat ->
  let cleaned := fst (clean_and_prepare_data sqrt_fn df) in
  let ok := product_succeeds fit predict env user_id in
  dict_get pid cleaned = None /\
  length cleaned =
    length (filter (fun g => (2 <=? length (prepare (snd g)))%nat) (groupby df)) /\
  (length cleaned < length (groupby df))%nat /\
  exists w' ms,
    run_forecasting_for_user sqrt_fn fit predict env user_id w = (Ok tt, w') /\
    log w' = log w ++ ms /\
    stored_for user_id pid (committed w') = stored_for user_id pid (committed w) /\
    (cleaned <> [] ->
     exists before,
       ms = before ++ [MsgCompleted (length (filter ok cleaned)) (length cleaned)] /\
       (length (filter ok cleaned) <= length cleaned)%nat).
Proof.
  intros HC HF Ip Short. simpl.
  assert (dict_get pid (fst (clean_and_prepare_data sqrt_fn df)) = None) as Gone.
  { destruct (dict_get pid (fst (clean_and_prepare_data sqrt_fn df))) as [info|] eqn:E;
      [|reflexivity].
    apply clean_and_prepare_data_lookup in E. destruct E as [E _]. lia. }
  split; [exact Gone|].
  rewrite clean_and_prepare_data_kept at 1 2.
  rewrite kept_groups_length.
  split; [reflexivity|]. split.
  { apply in_map_iff in Ip. destruct Ip as [[k g] [Ek Ig]]. simpl in Ek. subst k.
    eapply filter_length_lt; [exact Ig|]. cbv beta. cbn [snd].
    rewrite (groupby_In _ _ _ Ig). apply Nat.leb_gt. exact Short. }
  destruct (@run_forecasting_for_user_spec sqrt_fn Model fit predict env user_id df w
              HC HF) as [w' [ms [R [_ [L [St Sum]]]]]].
  exists w', ms. split; [exact R|]. split; [exact L|].
  split; [apply St; now apply dict_get_None|].
  intro NE. destruct (Sum NE) as [before [during [Ems _]]].
  exists (before ++ during). split; [now rewrite <- app_assoc|].
  apply filter_length_le.
Qed.
End OrchestratorClaims.

Lemma C1_witness :
  let cleaned := fst (clean_and_prepare_data sqrt_micro three_df) in
  let ok := product_succeeds flaky_fit stub_predict (quiet_env three_df) "u" in
  exists w',
    main sqrt_micro flaky_fit stub_predict (quiet_env three_df)
      ["prophet_forecast_script.py"; "u"]%string empty_world = (Ok 0%Z, w') /\
    stdout w' = stdout empty_world ++ [OutCompleted "u"] /\
    (forall pid info,
       ok (pid, info) = true <->
       (exists r, fst (train_and_forecast flaky_fit stub_predict (data info)
                         default_periods empty_world) = Ok r) /\
       save_fault (quiet_env three_df) pid = NoFault) /\
    (cleaned <> [] ->
     exists before during,
       log w' = log empty_world ++ before ++ during ++
                [MsgCompleted (length (filter ok cleaned)) (length cleaned)] /\
       (forall pid info, In (pid, info) cleaned ->
          In (MsgGenerating (info_product_name info)) during /\
          (ok (pid, info) = true -> In (MsgSaved pid) during) /\
          (ok (pid, info) = false -> exists e, In (MsgProductFailed pid e) during)) /\
       (length cleaned = 3%nat ->
        (exists pid info e,
           In (pid, info) cleaned /\
           flaky_fit (model_config (data info)) (data info) = Raise e /\
           forall pid' info', In (pid', info') cleaned -> pid' <> pid ->
                              ok (pid', info') = true) ->
        length (filter ok cleaned) = 2%nat)).
Proof.
  apply (@C1_product_failures_are_isolated sqrt_micro unit flaky_fit stub_predict
           (quiet_env three_df) "prophet_forecast_script.py" "u" three_df empty_world);
    reflexivity.
Defined.

(** The scenario of the specification: three products, the fit of the
    second fails; exit code 0 and a summary of 2 out of 3. *)
Example three_products_one_fit_failure :
  let out := main sqrt_micro flaky_fit stub_predict (quiet_env three_df)
               ["prophet_forecast_script.py"; "u"]%string empty_world in
  fst out = Ok 0%Z /\
  last (log (snd out)) MsgTraining = MsgCompleted 2 3 /\
  In (MsgProductFailed "b" ProphetError) (log (snd out)) /\
  map row_product_id (committed (snd out)) = ["a"; "c"]%string.
Proof.
  vm_compute. split; [reflexivity|]. split; [reflexivity|]. split; [|reflexivity].
  repeat (try (left; reflexivity); right).
Qed.

(** A failing save of one product leaves the others stored. *)
Example three_products_one_save_failure :
  let env := mkEnv steady_clock (Ok tt) (fun _ => Ok three_df)
               (fun pid => if String.eqb pid "a" then InsertFails else NoFault) in
  let out := main sqrt_micro stub_fit stub_predict env
               ["prophet_forecast_script.py"; "u"]%string empty_world in
  fst out = Ok 0%Z /\
  last (log (snd out)) MsgTraining = MsgCompleted 2 3 /\
  map row_product_id (committed (snd out)) = ["b"; "c"]%string.
Proof. vm_compute. repeat split. Qed.

Lemma C2_witness :
  let cleaned := fst (clean_and_prepare_data sqrt_micro one_day_df) in
  let ok := product_succeeds stub_fit stub_predict (quiet_env one_day_df) "u" in
  dict_get "a" cleaned = None /\
  length cleaned =
    length (filter (fun g => (2 <=? length (prepare (snd g)))%nat) (groupby one_day_df)) /\
  (length cleaned < length (groupby one_day_df))%nat /\
  exists w' ms,
    run_forecasting_for_user sqrt_micro stub_fit stub_predict (quiet_env one_day_df)
      "u" empty_world = (Ok tt, w') /\
    log w' = log empty_world ++ ms /\
    stored_for "u" "a" (committed w') = stored_for "u" "a" (committed empty_world) /\
    (cleaned <> [] ->
     exists before,
       ms = before ++ [MsgCompleted (length (filter ok cleaned)) (length cleaned)] /\
       (length (filter ok cleaned) <= length cleaned)%nat).
Proof.
  apply (@C2_short_series_are_left_out_of_both_counts sqrt_micro unit stub_fit
           stub_predict (quiet_env one_day_df) "u" "a" one_day_df empty_world).
  - reflexivity.
  - reflexivity.
  - vm_compute. tauto.
  - vm_compute. lia.
Defined.

(** C2 as stated fails: of two products, the one with a single day of
    sales is skipped, and the run summary counts 1 product in total, not 2. *)
Lemma C2_counterexample :
  let out := run_forecasting_for_user sqrt_micro stub_fit stub_predict
               (quiet_env one_day_df) "u" empty_world in
  map fst (groupby one_day_df) = ["a"; "b"]%string /\
  length (prepare (group_of "a" one_day_df)) = 1%nat /\
  fst out = Ok tt /\
  last (log (snd out)) MsgTraining = MsgCompleted 1 1 /\
  In (MsgInsufficient "Anvil") (log (snd out)).
Proof.
  vm_compute. split; [reflexivity|]. split; [reflexivity|]. split; [reflexivity|].
  split; [reflexivity|]. repeat (try (left; reflexivity); right).
Qed.

(* ================================================================== *)
(** * The command boundary and the fatal paths of a run *)

Section BoundaryFacts.
Variable sqrt_fn : Q -> Q.
Variable Model : Type.
Variable fit : ProphetConfig -> list (Row Q) -> result Model.
Variable predict : Model -> list Z -> result (list PredRow).
Variable env : Env.

(** X1.  [main] called with anything but one argument prints the usage line
    and exits with code 1 without touching the forecaster. *)
Theorem main_wrong_arity_exits_1 (argv : list string) (w : World) :
  length argv <> 2%nat ->
  main sqrt_fn fit predict env argv w =
  (Ok 1%Z, mkWorld (committed w) (working w) (connection w) (closed w) (ticks w)
             (log w) (stdout w ++ [OutUsage])).
Proof.
  intro H. destruct argv as [|a [|b [|c l]]]; try reflexivity.
  simpl in H. congruence.
Qed.

Lemma fetch_sales_data_Raise user_id e w :
  fetch_result env user_id = Raise e ->
  fetch_sales_data env user_id w = (Raise e, add_log w [MsgFetchError e]).
Proof.
  intro H. unfold fetch_sales_data, try_except, bind, lift. rewrite H. reflexivity.
Qed.

(** X2.  A failing connect is fatal: it is logged twice (by the connect and by
    the pipeline), no connection is kept and none is closed, nothing is
    fetched or stored, and the command prints the failure and exits with
    code 1. *)
Theorem connect_failure_is_fatal (prog user_id : string) (e : Exn) (w : World) :
  connect_result env = Raise e ->
  main sqrt_fn fit predict env [prog; user_id] w =
  (Ok 1%Z, mkWorld (committed w) (working w) false false (ticks w)
             (log w ++ [MsgStart user_id; MsgConnectFailed e; MsgPipelineError e])
             (stdout w ++ [OutFailed e])).
Proof.
  intro H.
  unfold main, run_forecasting_for_user, try_finally, try_except, bind,
    connect_to_database, try_except, bind, lift.
  cbn. rewrite H. cbn. rewrite <- !app_assoc. reflexivity.
Qed.

(** X3.  A failing fetch is fatal too, but the connection made before it is
    closed on the way out; the table is as committed before. *)
Theorem fetch_failure_is_fatal (prog user_id : string) (e : Exn) (w : World) :
  connect_result env = Ok tt ->
  fetch_result env user_id = Raise e ->
  main sqrt_fn fit predict env [prog; user_id] w =
  (Ok 1%Z, mkWorld (committed w) (committed w) true true (ticks w)
             (log w ++ [MsgStart user_id; MsgConnected; MsgFetchError e;
                        MsgPipelineError e])
             (stdout w ++ [OutFailed e])).
Proof.
  intros HC HF.
  unfold main, run_forecasting_for_user, try_finally, try_except.
  unfold bind at 1. unfold set_connection at 1. unfold bind at 1.
  unfold bind at 1. unfold logger at 1. unfold bind at 1.
  rewrite (connect_to_database_Ok _ _ HC).
  unfold bind at 1. rewrite (fetch_sales_data_Raise _ _ HF).
  cbn. rewrite <- !app_assoc. reflexivity.
Qed.

Lemma run_without_series (user_id : string) (df : DataFrame) (w : World) :
  connect_result env = Ok tt ->
  fetch_result env user_id = Ok df ->
  fst (clean_and_prepare_data sqrt_fn df) = [] ->
  run_forecasting_for_user sqrt_fn fit predict env user_id w =
  (Ok tt, mkWorld (committed w) (committed w) true true (ticks w)
            (log w ++ [MsgStart user_id; MsgConnected; MsgFetched (length df) user_id]
                   ++ match df with
                      | [] => [MsgNoSales user_id]
                      | _ => snd (clean_and_prepare_data sqrt_fn df)
                             ++ [MsgNoValid user_id]
                      end)
            (stdout w)).
Proof.
  intros HC HF E0.
  unfold run_forecasting_for_user, try_finally, try_except.
  unfold bind at 1. unfold logger at 1. unfold bind at 1.
  rewrite (connect_to_database_Ok _ _ HC).
  unfold bind at 1. rewrite (fetch_sales_data_Ok _ _ _ HF).
  destruct df as [|rec rest].
  - cbn. rewrite <- !app_assoc. reflexivity.
  - cbv beta iota. rewrite E0. cbn. rewrite <- !app_assoc. reflexivity.
Qed.

(** X4.  When the cleaner keeps no series (no record at all, or every product
    with fewer than 2 dates) the run returns early with a warning: no model
    is trained, the clock is not read, the table is as committed before,
    and the connection is closed. *)
Theorem no_cleaned_series_returns_early (user_id : string) (df : DataFrame) (w : World) :
  connect_result env = Ok tt ->
  fetch_result env user_id = Ok df ->
  fst (clean_and_prepare_data sqrt_fn df) = [] ->
  run_forecasting_for_user sqrt_fn fit predict env user_id w =
  (Ok tt, mkWorld (committed w) (committed w) true true (ticks w)
            (log w ++ [MsgStart user_id; MsgConnected; MsgFetched (length df) user_id]
                   ++ match df with
                      | [] => [MsgNoSales user_id]
                      | _ => snd (clean_and_prepare_data sqrt_fn df)
                             ++ [MsgNoValid user_id]
                      end)
            (stdout w)).
Proof.
  exact (@run_without_series user_id df w).
Qed.

(** X5.  With nothing to forecast the command still reports success: it
    prints the completion line and exits with code 0, having written
    nothing to the store. *)
Theorem nothing_to_forecast_still_reports_success
  (prog user_id : string) (df : DataFrame) (w : World) :
  connect_result env = Ok tt ->
  fetch_result env user_id = Ok df ->
  fst (clean_and_prepare_data sqrt_fn df) = [] ->
  main sqrt_fn fit predict env [prog; user_id] w =
  (Ok 0%Z, mkWorld (committed w) (committed w) true true (ticks w)
             (log w ++ [MsgStart user_id; MsgConnected; MsgFetched (length df) user_id]
                    ++ match df with
                       | [] => [MsgNoSales user_id]
                       | _ => snd (clean_and_prepare_data sqrt_fn df)
                              ++ [MsgNoValid user_id]
                       end)
             (stdout w ++ [OutCompleted user_id])).
Proof.
  intros HC HF E0. unfold main, try_except.
  unfold bind at 1. unfold set_connection at 1. unfold bind at 1.
  rewrite (@run_without_series user_id df _ HC HF E0).
  reflexivity.
Qed.

(** X6.  Once the connect has succeeded, the connection is closed at the end
    of the run on every path, and no uncommitted change is left behind. *)
Theorem run_closes_the_connection (user_id : string) (w : World) :
  connect_result env = Ok tt ->
  exists r w',
    run_forecasting_for_user sqrt_fn fit predict env user_id w = (r, w') /\
    connection w' = true /\ closed w' = true /\ working w' = committed w' /\
    stdout w' = stdout w.
Proof.
  intro HC.
  unfold run_forecasting_for_user, try_finally, try_except.
  unfold bind at 1. unfold logger at 1. unfold bind at 1.
  rewrite (connect_to_database_Ok _ _ HC).
  unfold bind at 1.
  destruct (fetch_result env user_id) as [df|e] eqn:HF.
  - rewrite (fetch_sales_data_Ok _ _ _ HF).
    destruct df as [|rec rest].
    { cbn. eexists. eexists. split; [reflexivity|]. cbn. repeat split. }
    cbv beta iota. unfold bind at 1. unfold logger_all at 1.
    destruct (fst (clean_and_prepare_data sqrt_fn (rec :: rest))) as [|c cs].
    { cbn. eexists. eexists. split; [reflexivity|]. cbn. repeat split. }
    cbv beta iota zeta. unfold bind at 1.
    match goal with |- context [product_loop fit predict env user_id (c :: cs) 0 ?x] =>
      set (w3 := x) end.
    destruct (@product_loop_spec Model fit predict env user_id (c :: cs) 0%nat w3
                eq_refl)
      as [w4 [lms [P [WC [So [Sc [Sl _]]]]]]].
    rewrite P. unfold logger, close_connection, set_connection.
    cbn [fst snd connection committed working closed ticks log stdout].
    rewrite Sc. subst w3. unfold add_log in *.
    cbn [fst snd connection committed working closed ticks log stdout] in *.
    eexists. eexists. split; [reflexivity|].
    cbn [fst snd connection committed working closed ticks log stdout].
    repeat split; assumption.
  - rewrite (fetch_sales_data_Raise _ _ HF). cbn.
    eexists. eexists. split; [reflexivity|]. cbn. repeat split.
Qed.
End BoundaryFacts.

(* ================================================================== *)
(** * More about the cleaner *)

Lemma ascending_dates (A : Type) (rows : list (Row A)) :
  ascending rows -> StronglySorted Z.le (map (@ds A) rows).
Proof.
  unfold ascending. induction 1 as [|r l S IH F]; simpl; constructor; [exact IH|].
  apply Forall_map. exact F.
Qed.

Lemma strict_of_NoDup (l : list Z) :
  StronglySorted Z.le l -> NoDup l -> StronglySorted Z.lt l.
Proof.
  induction 1 as [|a l S IH F]; intro ND; constructor.
  - apply IH. now inversion ND.
  - inversion ND as [|? ? N _]; subst.
    apply Forall_forall. intros x I.
    pose proof (proj1 (Forall_forall _ _) F x I) as L.
    assert (a <> x) by (intro E; subst; contradiction). lia.
Qed.

(** X7.  The dates of every cleaned series are strictly ascending. *)
Theorem cleaned_series_dates_strictly_ascending
  (sqrt_fn : Q -> Q) (df : DataFrame) (pid : string) (info : ProductInfo) :
  dict_get pid (fst (clean_and_prepare_data sqrt_fn df)) = Some info ->
  StronglySorted Z.lt (map (@ds Q) (data info)).
Proof.
  intro H. apply clean_and_prepare_data_lookup in H. destruct H as [_ ->].
  rewrite cap_outliers_ds. unfold prepare. rewrite fillna_ds.
  pose proof (dedup_sorted_spec (to_rows (group_of pid df))) as [ND [Asc _]].
  apply strict_of_NoDup; [now apply ascending_dates | exact ND].
Qed.

Section DedupFacts.
Variable A : Type.
Implicit Types (r : Row A) (rows : list (Row A)).

Lemma first_of_date_Some d rows r :
  first_of_date d rows = Some r -> In r rows /\ ds r = d.
Proof.
  unfold first_of_date. intro H. apply find_some in H.
  destruct H as [I E]. apply Z.eqb_eq in E. now split.
Qed.

Lemma first_of_date_exists rows r :
  In r rows -> exists r0, first_of_date (ds r) rows = Some r0.
Proof.
  unfold first_of_date. intro I.
  destruct (find (fun x => (ds x =? ds r)%Z) rows) as [r0|] eqn:F; [eauto|].
  exfalso. pose proof (find_none _ _ F r I) as N. simpl in N.
  rewrite Z.eqb_refl in N. discriminate.
Qed.

Lemma drop_duplicates_from_complete rows : forall seen d r,
  first_of_date d rows = Some r -> ~ In d seen ->
  In r (drop_duplicates_from seen rows).
Proof.
  unfold first_of_date.
  induction rows as [|r1 rs IH]; simpl; intros seen d r F N; [discriminate|].
  destruct (Z.eqb_spec (ds r1) d) as [E|NE].
  - injection F as <-. destruct (existsb (Z.eqb (ds r1)) seen) eqn:X; [|now left].
    apply existsb_exists in X. destruct X as [x [Ix Ex]].
    apply Z.eqb_eq in Ex. subst. contradiction.
  - destruct (existsb (Z.eqb (ds r1)) seen).
    + eapply IH; eassumption.
    + right. eapply IH; [exact F|]. simpl. intros [E|I]; [congruence | contradiction].
Qed.

(** A row survives [drop_duplicates] exactly when it is the first row of
    its date. *)
Lemma drop_duplicates_In rows r :
  In r (drop_duplicates rows) <-> first_of_date (ds r) rows = Some r.
Proof.
  split.
  - apply drop_duplicates_from_first.
  - intro F. eapply drop_duplicates_from_complete; [exact F | intros []].
Qed.

Lemma drop_duplicates_from_ascending seen rows :
  ascending rows -> ascending (drop_duplicates_from seen rows).
Proof.
  unfold ascending. revert seen.
  induction rows as [|r1 rs IH]; simpl; intros seen S; [constructor|].
  inversion S as [|? ? S' F]; subst.
  destruct (existsb (Z.eqb (ds r1)) seen); [now apply IH|].
  constructor; [now apply IH|].
  apply Forall_forall. intros x I. apply drop_duplicates_from_In in I.
  destruct I as [I _]. exact (proj1 (Forall_forall _ _) F x I).
Qed.

Lemma strictly_ascending_ext (l1 l2 : list (Row A)) :
  StronglySorted (fun r r' => (ds r < ds r')%Z) l1 ->
  StronglySorted (fun r r' => (ds r < ds r')%Z) l2 ->
  (forall r, In r l1 <-> In r l2) -> l1 = l2.
Proof.
  intro S1. revert l2. induction S1 as [|a l1 S1 IH F1]; intros l2 S2 E.
  - destruct l2 as [|b l2]; [reflexivity|].
    exfalso. apply (proj2 (E b)). now left.
  - destruct S2 as [|b l2 S2 F2].
    + exfalso. apply (proj1 (E a)). now left.
    + pose proof (proj1 (Forall_forall _ _) F1) as G1.
      pose proof (proj1 (Forall_forall _ _) F2) as G2.
      assert (a = b) as ->.
      { destruct (proj1 (E a) (or_introl eq_refl)) as [Eb|Ia]; [now symmetry|].
        destruct (proj2 (E b) (or_introl eq_refl)) as [Ea|Ib]; [exact Ea|].
        pose proof (G1 b Ib). pose proof (G2 a Ia). cbv beta in *; lia. }
      f_equal. apply IH; [exact S2|].
      intro r. split; intro I.
      * destruct (proj1 (E r) (or_intror I)) as [Eb|I2]; [|exact I2].
        subst r. pose proof (G1 b I). cbv beta in *; lia.
      * destruct (proj2 (E r) (or_intror I)) as [Eb|I1]; [|exact I1].
        subst r. pose proof (G2 b I). cbv beta in *; lia.
Qed.

Lemma strictly_ascending_of rows :
  ascending rows -> NoDup (map (@ds A) rows) ->
  StronglySorted (fun r r' => (ds r < ds r')%Z) rows.
Proof.
  unfold ascending. induction 1 as [|a l S IH F]; simpl; intro ND; constructor.
  - apply IH. now inversion ND.
  - inversion ND as [|? ? N _]; subst.
    apply Forall_forall. intros x I.
    pose proof (proj1 (Forall_forall _ _) F x I) as L.
    assert (ds a <> ds x).
    { intro E. apply N. rewrite E. now apply in_map. }
    cbv beta in *; lia.
Qed.

(** X8.  The order the code uses, drop duplicates and then sort, gives the
    same rows as sorting by date (rows of equal date kept in their
    order) and then dropping duplicates. *)
Theorem drop_then_sort_is_sort_then_drop rows :
  sort_values (drop_duplicates rows) = drop_duplicates (sort_values rows).
Proof.
  apply strictly_ascending_ext.
  - apply strictly_ascending_of; [apply sort_values_ascending|].
    eapply Permutation_NoDup.
    + apply Permutation_map. symmetry. apply sort_values_perm.
    + apply drop_duplicates_from_NoDup.
  - apply strictly_ascending_of.
    + apply drop_duplicates_from_ascending, sort_values_ascending.
    + apply drop_duplicates_from_NoDup.
  - intro r. rewrite drop_duplicates_In, sort_values_first, <- drop_duplicates_In.
    split; intro I.
    + eapply Permutation_in; [apply sort_values_perm | exact I].
    + eapply Permutation_in; [symmetry; apply sort_values_perm | exact I].
Qed.

Lemma two_distinct_members (X : Type) (l : list X) (a b : X) :
  In a l -> In b l -> a <> b -> (2 <= length l)%nat.
Proof.
  destruct l as [|x [|x' l]]; simpl; intros Ia Ib N; try tauto; try lia.
  destruct Ia as [<-|[]]; destruct Ib as [<-|[]]. congruence.
Qed.

(** [drop_duplicates] leaves at least two rows exactly when the rows
    carry at least two different dates. *)
Lemma drop_duplicates_two rows :
  (2 <= length (drop_duplicates rows))%nat <->
  exists r1 r2, In r1 rows /\ In r2 rows /\ ds r1 <> ds r2.
Proof.
  split.
  - intro L. pose proof (drop_duplicates_from_NoDup [] rows) as ND.
    fold (drop_duplicates rows) in ND.
    assert (forall x, In x (drop_duplicates rows) -> In x rows) as Sub.
    { intros x I. now apply drop_duplicates_from_In in I. }
    destruct (drop_duplicates rows) as [|a [|b l]]; simpl in L; try lia.
    exists a, b. split; [apply Sub; now left|]. split; [apply Sub; right; now left|].
    simpl in ND. inversion ND as [|? ? N _]; subst. simpl in N.
    intro E. apply N. left. now symmetry.
  - intros [r1 [r2 [I1 [I2 N]]]].
    destruct (first_of_date_exists _ _ I1) as [a Fa].
    destruct (first_of_date_exists _ _ I2) as [b Fb].
    pose proof (first_of_date_Some _ _ Fa) as [_ Ea].
    pose proof (first_of_date_Some _ _ Fb) as [_ Eb].
    apply (@two_distinct_members _ _ a b).
    + apply drop_duplicates_In. now rewrite Ea.
    + apply drop_duplicates_In. now rewrite Eb.
    + intro E. subst. congruence.
Qed.
End DedupFacts.

Section KeptFacts.
Variable sqrt_fn : Q -> Q.

Lemma unique_keys_complete df : forall seen rec,
  In rec df -> ~ In (product_id rec) seen -> In (product_id rec) (unique_keys seen df).
Proof.
  induction df as [|r rs IH]; simpl; intros seen rec I N; [tauto|].
  destruct (existsb (String.eqb (product_id r)) seen) eqn:X.
  - destruct I as [->|I]; [|now apply IH].
    apply existsb_exists in X. destruct X as [k [Ik Ek]].
    apply String.eqb_eq in Ek. subst k. contradiction.
  - destruct (string_dec (product_id r) (product_id rec)) as [E|NE]; [now left|].
    right. destruct I as [->|I]; [congruence|].
    apply IH; [exact I|]. simpl. intros [E|I']; [congruence | contradiction].
Qed.

(** The groups are those of the product ids that occur in the frame. *)
Lemma groupby_keys_spec df pid :
  In pid (map fst (groupby df)) <-> exists rec, In rec df /\ product_id rec = pid.
Proof.
  rewrite groupby_keys. split.
  - intro I. eapply Permutation_in in I; [|apply sort_keys_perm].
    apply unique_keys_In in I. tauto.
  - intros [rec [I <-]]. eapply Permutation_in; [symmetry; apply sort_keys_perm|].
    apply unique_keys_complete; [exact I | intros []].
Qed.

Lemma combine_seq_In (X : Type) (l : list X) : forall start x,
  In x l -> exists i, In (i, x) (combine (seq start (length l)) l).
Proof.
  induction l as [|a l IH]; simpl; intros start x I; [tauto|].
  destruct I as [->|I]; [exists start; now left|].
  destruct (IH (S start) x I) as [i Hi]. exists i. now right.
Qed.

Lemma group_of_complete df rec :
  In rec df -> exists i, In (i, rec) (group_of (product_id rec) df).
Proof.
  intro I. destruct (combine_seq_In df 0 rec I) as [i Hi]. exists i.
  unfold group_of, labelled. apply filter_In. split; [exact Hi|].
  simpl. apply String.eqb_refl.
Qed.

Lemma prepare_length group :
  length (prepare group) = length (drop_duplicates (to_rows group)).
Proof.
  unfold prepare, fillna. rewrite length_map.
  apply Permutation_length, sort_values_perm.
Qed.

Lemma groupby_member df pid :
  In pid (map fst (groupby df)) -> In (pid, group_of pid df) (groupby df).
Proof.
  rewrite groupby_keys. intro I. unfold groupby.
  apply in_map_iff. exists pid. split; [reflexivity | exact I].
Qed.

Lemma kept_groups_member groups pid group info :
  In (pid, group) groups ->
  fst (clean_group sqrt_fn pid group) = Some info ->
  In (pid, info) (kept_groups sqrt_fn groups).
Proof.
  intros I E. unfold kept_groups. apply in_flat_map.
  exists (pid, group). split; [exact I|]. simpl. rewrite E. now left.
Qed.

(** X9.  A product is kept by the cleaner exactly when its records carry at
    least two different dates. *)
Theorem product_kept_iff_two_dates (df : DataFrame) (pid : string) :
  In pid (dict_keys (fst (clean_and_prepare_data sqrt_fn df))) <->
  exists rec1 rec2,
    In rec1 df /\ In rec2 df /\
    product_id rec1 = pid /\ product_id rec2 = pid /\
    date rec1 <> date rec2.
Proof.
  split.
  - intro I. apply dict_get_In in I. destruct I as [info G].
    apply clean_and_prepare_data_lookup in G. destruct G as [L _].
    rewrite prepare_length in L. apply drop_duplicates_two in L.
    destruct L as [r1 [r2 [I1 [I2 N]]]].
    unfold to_rows in I1, I2.
    apply in_map_iff in I1. destruct I1 as [[i1 rec1] [<- I1]].
    apply in_map_iff in I2. destruct I2 as [[i2 rec2] [<- I2]].
    apply group_of_In in I1. apply group_of_In in I2. simpl in N.
    exists rec1, rec2. tauto.
  - intros [rec1 [rec2 [I1 [I2 [E1 [E2 N]]]]]].
    assert (In pid (map fst (groupby df))) as Ik.
    { apply groupby_keys_spec. eauto. }
    destruct (group_of_complete df rec1 I1) as [i1 G1]. rewrite E1 in G1.
    destruct (group_of_complete df rec2 I2) as [i2 G2]. rewrite E2 in G2.
    assert (2 <= length (prepare (group_of pid df)))%nat as L.
    { rewrite prepare_length. apply drop_duplicates_two.
      exists (mkRow i1 (date rec1) (quantity_sold rec1)),
             (mkRow i2 (date rec2) (quantity_sold rec2)).
      split; [|split; [|exact N]]; unfold to_rows; apply in_map_iff;
        [exists (i1, rec1) | exists (i2, rec2)]; auto. }
    apply (clean_group_kept sqrt_fn pid) in L. destruct L as [info E].
    rewrite clean_and_prepare_data_kept.
    apply (in_map fst) with (x := (pid, info)).
    eapply kept_groups_member; [apply groupby_member; exact Ik | exact E].
Qed.

Lemma filter_combine_head (df : DataFrame) pid : forall start,
  match filter (fun ir => String.eqb (product_id (snd ir)) pid)
          (combine (seq start (length df)) df) with
  | [] => find (fun r => String.eqb (product_id r) pid) df = None
  | first :: _ => find (fun r => String.eqb (product_id r) pid) df = Some (snd first)
  end.
Proof.
  induction df as [|r rs IH]; intro start; simpl; [reflexivity|].
  destruct (String.eqb (product_id r) pid); [reflexivity | apply IH].
Qed.

(** X10.  The name stored with a cleaned series is the product name of the
    first record of that product in the frame. *)
Theorem product_name_is_from_first_record
  (df : DataFrame) (pid : string) (info : ProductInfo) :
  dict_get pid (fst (clean_and_prepare_data sqrt_fn df)) = Some info ->
  exists rec,
    find (fun r => String.eqb (product_id r) pid) df = Some rec /\
    info_product_name info = product_name rec.
Proof.
  unfold clean_and_prepare_data. intro H.
  apply clean_groups_lookup in H. destruct H as [H | [group [I F]]]; [discriminate|].
  apply groupby_In in I. subst group.
  pose proof (filter_combine_head df pid 0) as Hd.
  fold (labelled df) in Hd. fold (group_of pid df) in Hd.
  unfold clean_group in F.
  destruct (group_of pid df) as [|first rest]; [discriminate|].
  exists (snd first). split; [exact Hd|].
  destruct (length (prepare (first :: rest)) <? 2)%nat; [discriminate|].
  simpl in F. injection F as <-. reflexivity.
Qed.

Lemma outlier_cap_le_self series v : outlier_cap sqrt_fn series v <= v.
Proof.
  unfold outlier_cap. destruct (Qgtb (std sqrt_fn series) 0); [|apply Qle_refl].
  destruct (Qgtb v _) eqn:E; [|apply Qle_refl].
  apply Qgtb_true in E. now apply Qlt_le_weak.
Qed.

Lemma outlier_cap_unchanged series v :
  v <= mean series + 3 * std sqrt_fn series -> outlier_cap sqrt_fn series v = v.
Proof.
  intro L. unfold outlier_cap. destruct (Qgtb (std sqrt_fn series) 0); [|reflexivity].
  apply Qgtb_false in L. now rewrite L.
Qed.

(** X11.  The outlier step changes quantities only downwards: row by row, the
    cleaned series keeps label and date, never raises a quantity, and
    leaves every quantity at or below the threshold exactly as it was. *)
Theorem outlier_step_only_lowers
  (df : DataFrame) (pid : string) (info : ProductInfo) :
  dict_get pid (fst (clean_and_prepare_data sqrt_fn df)) = Some info ->
  let before := prepare (group_of pid df) in
  let threshold := mean (ys before) + 3 * std sqrt_fn (ys before) in
  Forall2 (fun a b => idx a = idx b /\ ds a = ds b /\ y a <= y b /\
                      (y b <= threshold -> y a = y b))
    (data info) before.
Proof.
  intro H. apply clean_and_prepare_data_lookup in H. destruct H as [_ ->].
  simpl. rewrite cap_outliers_map.
  generalize (ys (prepare (group_of pid df))). intro series.
  induction (prepare (group_of pid df)) as [|r l IH]; simpl; constructor; [|exact IH].
  simpl. split; [reflexivity|]. split; [reflexivity|].
  split; [apply outlier_cap_le_self | apply outlier_cap_unchanged].
Qed.
End KeptFacts.

(* ================================================================== *)
(** * More about the forecast engine *)

Lemma py_round_cases x : py_round x = Qfloor x \/ py_round x = (Qfloor x + 1)%Z.
Proof.
  unfold py_round. destruct (Qcompare _ _); [destruct (Z.even _)|..]; auto.
Qed.

Lemma py_round_monotone x y : x <= y -> (py_round x <= py_round y)%Z.
Proof.
  intro L. pose proof (Qfloor_resp_le _ _ L) as F.
  destruct (Z.eq_dec (Qfloor x) (Qfloor y)) as [E|N].
  - unfold py_round. rewrite E.
    destruct (Qcompare_spec (x - inject_Z (Qfloor y)) (1 # 2)) as [Cx|Cx|Cx];
      destruct (Qcompare_spec (y - inject_Z (Qfloor y)) (1 # 2)) as [Cy|Cy|Cy];
      try (destruct (Z.even (Qfloor y))); try lia; exfalso; lra.
  - destruct (py_round_cases x) as [-> | ->]; destruct (py_round_cases y) as [-> | ->];
      lia.
Qed.

Lemma max0_monotone x y : x <= y -> max0 x <= max0 y.
Proof.
  intro L. unfold max0.
  destruct (Qgtb x 0) eqn:X; destruct (Qgtb y 0) eqn:Y;
    try apply Qgtb_true in X; try apply Qgtb_false in X;
    try apply Qgtb_true in Y; try apply Qgtb_false in Y; lra.
Qed.

Lemma py_round_max0 (x : Q) : py_round (max0 x) = Z.max 0 (py_round x).
Proof.
  unfold max0. destruct (Qgtb x 0) eqn:E.
  - apply Qgtb_true in E.
    assert (0 <= py_round x)%Z by (apply py_round_nonneg; lra). lia.
  - apply Qgtb_false in E.
    pose proof (py_round_monotone E) as M.
    change (py_round 0) with 0%Z in *. lia.
Qed.

(** X12.  The point total is clipped at 0 and then rounded, the lower bound is
    rounded and then clipped at 0: both orders give the same integer. *)
Theorem clip_then_round_is_round_then_clip (x : Q) :
  py_round (max0 x) = Z.max 0 (py_round x).
Proof.
  exact (py_round_max0 x).
Qed.

Lemma Qsum_monotone (X : Type) (f g : X -> Q) (l : list X) :
  (forall x, In x l -> f x <= g x) -> Qsum (map f l) <= Qsum (map g l).
Proof.
  induction l as [|a l IH]; simpl; intro H; [apply Qle_refl|].
  assert (f a <= g a) by (apply H; now left).
  assert (Qsum (map f l) <= Qsum (map g l)) by (apply IH; intros; apply H; now right).
  lra.
Qed.

(** X13.  When every predicted row has its lower estimate at or below its
    point estimate and that at or below its upper estimate, the lower bound
    of a horizon is at or below its point total; the point total is at or
    below the upper bound provided the summed upper estimates are not
    negative (the upper bound is not clipped at 0). *)
Theorem horizon_interval_is_ordered (forecast : list PredRow) (period : nat) :
  (forall row, In row forecast ->
     yhat_lower row <= yhat row /\ yhat row <= yhat_upper row) ->
  let entry := horizon_entry forecast period in
  (lower_bound entry <= value entry)%Z /\
  (0 <= Qsum (map yhat_upper (tail period forecast)) ->
   (value entry <= upper_bound entry)%Z).
Proof.
  intro H. cbv zeta. unfold horizon_entry. cbn [lower_bound value upper_bound].
  assert (forall row, In row (tail period forecast) -> In row forecast) as Sub.
  { intros row I. unfold tail in I.
    rewrite <- (firstn_skipn (length forecast - period) forecast).
    apply in_or_app. now right. }
  split.
  - rewrite <- py_round_max0.
    apply py_round_monotone, max0_monotone, Qsum_monotone.
    intros row I. apply H, Sub, I.
  - intro P. apply py_round_monotone.
    assert (Qsum (map yhat (tail period forecast))
            <= Qsum (map yhat_upper (tail period forecast))) as L.
    { apply Qsum_monotone. intros row I. apply H, Sub, I. }
    unfold max0. destruct (Qgtb _ 0); [exact L | exact P].
Qed.

Lemma classify_trend_short (forecast : list PredRow) :
  (length forecast <= 30)%nat -> classify_trend forecast = stable.
Proof.
  intro L. unfold classify_trend, tail, head.
  replace (length forecast - 30)%nat with 0%nat by lia.
  rewrite firstn_all2 by exact L. cbn [skipn].
  destruct (series_mean (map trend forecast)) as [m|]; [|reflexivity].
  assert (Qgtb (m - m) (1 # 10) = false) as G1 by (apply Qgtb_false; lra).
  assert (Qgtb (- (1 # 10)) (m - m) = false) as G2 by (apply Qgtb_false; lra).
  now rewrite G1, G2.
Qed.

Lemma aligned_nonneg f pd ins :
  (forall a b, 0 <= f a b) -> Forall (fun v => 0 <= v) (aligned f pd ins).
Proof.
  intro H. unfold aligned. apply Forall_forall. intros v I.
  apply in_flat_map in I. destruct I as [r [_ I]].
  destruct (nth_error ins (idx r)); [|destruct I].
  destruct I as [<-|[]]. apply H.
Qed.

Lemma series_mean_nonneg l m :
  Forall (fun v => 0 <= v) l -> series_mean l = Some m -> 0 <= m.
Proof.
  intros F E. destruct l as [|a l]; [discriminate|].
  injection E as <-. now apply mean_nonneg.
Qed.

Lemma aligned_unmatched f pd ins :
  (forall row, In row pd -> (length ins <= idx row)%nat) -> aligned f pd ins = [].
Proof.
  intro H. unfold aligned. induction pd as [|r l IH]; simpl; [reflexivity|].
  assert (nth_error ins (idx r) = None) as ->.
  { apply nth_error_None. apply H. now left. }
  simpl. apply IH. intros row I. apply H. now right.
Qed.

Section EngineMore.
Variable Model : Type.
Variable fit : ProphetConfig -> list (Row Q) -> result Model.
Variable predict : Model -> list Z -> result (list PredRow).

(** X14.  With an empty list of horizons the loop never binds [forecast]: once
    the fit and the in-sample prediction have succeeded, the trend step
    raises [UnboundLocalError], which is logged and re-raised. *)
Theorem empty_horizon_list_raises
  (pd : list (Row Q)) (w : World) (model : Model) (ins : list PredRow) :
  fit (model_config pd) pd = Ok model ->
  predict model (map (@ds Q) pd) = Ok ins ->
  train_and_forecast fit predict pd [] w =
  (Raise (UnboundLocalError "forecast"),
   add_log w [MsgTraining; MsgTrainError (UnboundLocalError "forecast")]).
Proof.
  intros F P. unfold train_and_forecast, try_except, bind, logger, lift.
  rewrite F. simpl. rewrite P. simpl. unfold add_log. simpl.
  rewrite <- app_assoc. reflexivity.
Qed.

(** X15.  Whatever [train_and_forecast] raises has been logged as its last
    message, and is raised unchanged; nothing but the log has changed. *)
Theorem engine_failure_is_logged_and_reraised
  (pd : list (Row Q)) (periods : list nat) (w w' : World) (e : Exn) :
  train_and_forecast fit predict pd periods w = (Raise e, w') ->
  exists ms, w' = add_log w (MsgTraining :: ms ++ [MsgTrainError e]).
Proof.
  unfold train_and_forecast, try_except.
  unfold bind at 1. unfold logger at 1. unfold bind at 1. unfold lift at 1.
  destruct (fit (model_config pd) pd) as [model|e0].
  - unfold bind at 1.
    destruct (forecast_loop_logs_only predict model (map (@ds Q) pd) periods [] None)
      as [rl [ml Hl]].
    rewrite Hl. destruct rl as [[fs fc]|e1].
    + unfold bind at 1. unfold lift at 1.
      destruct (predict model (map (@ds Q) pd)) as [ins|e2].
      * cbn [snd fst]. destruct fc as [forecast|].
        -- unfold bind, logger, ret. discriminate.
        -- unfold raise, bind, logger. intro E. injection E as <- <-.
           exists ml. unfold add_log. cbn. rewrite <- !app_assoc. reflexivity.
      * unfold bind, logger, raise. intro E. injection E as <- <-.
        exists ml. unfold add_log. cbn. rewrite <- !app_assoc. reflexivity.
    + unfold bind, logger, raise. intro E. injection E as <- <-.
      exists ml. unfold add_log. cbn. rewrite <- !app_assoc. reflexivity.
  - unfold bind, logger, raise. intro E. injection E as <- <-.
    exists []. unfold add_log. cbn. rewrite <- !app_assoc. reflexivity.
Qed.

Lemma period_key_dec (periods : list nat) (k : string) :
  (exists p, In p periods /\ k = forecast_key p) \/
  (forall p, In p periods -> forecast_key p <> k).
Proof.
  induction periods as [|p l IH]; [right; intros ? []|].
  destruct (string_dec (forecast_key p) k) as [E|N].
  - left. exists p. split; [now left | now symmetry].
  - destruct IH as [[q [I E]]|IH].
    + left. exists q. split; [now right | exact E].
    + right. intros q [<-|I]; [exact N | now apply IH].
Qed.

(** X16.  The result holds one entry per distinct horizon asked for, under the
    key [forecast_<H>d], and no other entry. *)
Theorem result_keys_are_the_horizons
  (pd : list (Row Q)) (periods : list nat) (w w' : World) (r : ForecastResult) :
  train_and_forecast fit predict pd periods w = (Ok r, w') ->
  forall k, In k (dict_keys (forecasts r)) <->
            exists p, In p periods /\ k = forecast_key p.
Proof.
  intros T k. apply train_and_forecast_Ok in T.
  destruct T as [model [fs [fc [ins [w1 [w2 [_ [L [_ ->]]]]]]]]]. simpl.
  apply forecast_loop_Ok in L. destruct L as [L1 [L2 _]].
  rewrite <- dict_get_In. split.
  - intros [h G]. destruct (period_key_dec periods k) as [Y|N]; [exact Y|].
    rewrite (L2 k N) in G. discriminate.
  - intros [p [I ->]]. destruct (L1 p I) as [f [_ G]]. eauto.
Qed.

(** X17.  When the last prediction has at most 30 rows, its first 30 and last
    30 rows are the same rows and the trend status is always stable. *)
Theorem short_prediction_is_always_stable
  (pd : list (Row Q)) (periods : list nat) (w w' : World) (r : ForecastResult) :
  (forall m l f, predict m l = Ok f -> map pred_ds f = l) ->
  periods <> [] ->
  (length pd + last periods 0 <= 30)%nat ->
  train_and_forecast fit predict pd periods w = (Ok r, w') ->
  trend_status r = stable.
Proof.
  intros Contract NE Len T. apply train_and_forecast_Ok in T.
  destruct T as [model [fs [fc [ins [w1 [w2 [_ [L [_ ->]]]]]]]]]. simpl.
  apply forecast_loop_Ok in L. destruct L as [_ [_ L3]].
  destruct periods as [|p0 rest]; [congruence|].
  destruct L3 as [forecast [P E]]. injection E as ->.
  apply classify_trend_short.
  apply Contract in P. apply (f_equal (@length Z)) in P.
  unfold make_future_dataframe in P.
  rewrite length_map, length_app, !length_map, length_seq in P. lia.
Qed.

(** X18.  The in-sample errors are non-negative whenever they are numbers. *)
Theorem in_sample_errors_nonneg
  (pd : list (Row Q)) (periods : list nat) (w w' : World) (r : ForecastResult) :
  train_and_forecast fit predict pd periods w = (Ok r, w') ->
  (forall m, mae r = Some m -> 0 <= m) /\ (forall m, mape r = Some m -> 0 <= m).
Proof.
  intro T. apply train_and_forecast_Ok in T.
  destruct T as [model [fs [fc [ins [w1 [w2 [_ [_ [_ ->]]]]]]]]]. simpl. split.
  - intros m E. unfold in_sample_mae in E.
    eapply series_mean_nonneg; [|exact E].
    apply aligned_nonneg. intros a b. apply Qabs_nonneg.
  - intros m E. unfold in_sample_mape in E.
    destruct (series_mean (aligned abs_pct_error pd ins)) as [m0|] eqn:S;
      [|discriminate].
    injection E as <-.
    assert (0 <= m0).
    { eapply series_mean_nonneg; [|exact S].
      apply aligned_nonneg. intros a b. apply Qabs_nonneg. }
    lra.
Qed.

(** X19.  The errors pair actual and predicted values by index label.  For a
    series none of whose labels is below its length (a product that does
    not start the fetched frame) no pair exists: MAE and MAPE are NaN and
    the confidence score is 0.95. *)
Theorem unmatched_labels_give_full_confidence
  (pd : list (Row Q)) (periods : list nat) (w w' : World) (r : ForecastResult) :
  (forall m l f, predict m l = Ok f -> map pred_ds f = l) ->
  (forall row, In row pd -> (length pd <= idx row)%nat) ->
  train_and_forecast fit predict pd periods w = (Ok r, w') ->
  mae r = None /\ mape r = None /\ confidence_score r = 95 # 100.
Proof.
  intros Contract Lab T. apply train_and_forecast_Ok in T.
  destruct T as [model [fs [fc [ins [w1 [w2 [_ [_ [P ->]]]]]]]]]. simpl.
  assert (length ins = length pd) as Len.
  { apply Contract in P. apply (f_equal (@length Z)) in P.
    now rewrite !length_map in P. }
  unfold in_sample_mae, in_sample_mape.
  rewrite !aligned_unmatched by (intros row I; rewrite Len; now apply Lab).
  simpl. repeat split.
Qed.
End EngineMore.

(* ================================================================== *)
(** * More about the result store and what a run leaves in it *)

Lemma stored_for_other_key u p u' p' table row :
  u' <> u \/ p' <> p ->
  same_key u p row = true ->
  stored_for u' p' (filter (fun x => negb (same_key u p x)) table ++ [row])
  = stored_for u' p' table.
Proof.
  intros N K. unfold stored_for. rewrite filter_app. simpl.
  assert (forall x, same_key u p x = true -> same_key u' p' x = false) as D.
  { intros x Kx. destruct (same_key u' p' x) eqn:E; [|reflexivity].
    apply same_key_true in E. apply same_key_true in Kx.
    destruct E as [E1 E2]. destruct Kx as [K1 K2]. exfalso.
    destruct N as [N|N]; apply N; congruence. }
  rewrite (D row K), app_nil_r.
  induction table as [|x t IH]; simpl; [reflexivity|].
  destruct (same_key u p x) eqn:E; simpl.
  - rewrite (D x E). exact IH.
  - destruct (same_key u' p' x); [now rewrite IH | exact IH].
Qed.

Section StoreMore.
Variable Model : Type.
Variable fit : ProphetConfig -> list (Row Q) -> result Model.
Variable predict : Model -> list Z -> result (list PredRow).
Variable env : Env.

(** X20.  When the connection cannot give a cursor, the error that reaches the
    caller is the [UnboundLocalError] raised by [cursor.close()] in the
    [finally] clause; the server's error is the one logged.  The
    transaction is rolled back. *)
Theorem cursor_failure_masks_the_server_error
  (user_id product_id : string) (r : ForecastResult) (w : World) :
  save_fault env product_id = CursorFails ->
  save_forecasts_to_database env user_id product_id r w =
  (Raise (UnboundLocalError "cursor"),
   mkWorld (committed w) (committed w) (connection w) (closed w) (ticks w)
     (log w ++ [MsgSaveError (OperationalError "cursor")]) (stdout w)).
Proof.
  intro F. unfold save_forecasts_to_database, try_finally, try_except, bind.
  rewrite F. reflexivity.
Qed.

(** A save, whether it succeeds or fails, changes no stored row of
    another tenant or another product. *)
Theorem save_touches_only_its_key
  (user_id product_id other_user other_product : string)
  (r : ForecastResult) (w : World) :
  working w = committed w ->
  other_user <> user_id \/ other_product <> product_id ->
  stored_for other_user other_product
    (committed (snd (save_forecasts_to_database env user_id product_id r w)))
  = stored_for other_user other_product (committed w).
Proof.
  intros WC N.
  destruct (fault_dec (save_fault env product_id)) as [F|F].
  - destruct (persisted_keys_dec r)
      as [[h7 [h30 [h90 [h365 [H7 [H30 [H90 H365]]]]]]] | K].
    + rewrite (@save_success env user_id product_id r w h7 h30 h90 h365 F H7 H30 H90 H365).
      cbn [snd committed]. rewrite WC.
      apply stored_for_other_key; [exact N | apply same_key_stored_row].
    + destruct (@save_failure env user_id product_id r w (or_intror K))
        as [e [e' [w0 [S [C _]]]]]. rewrite S. cbn [snd]. now rewrite C.
  - destruct (@save_failure env user_id product_id r w (or_introl F))
      as [e [e' [w0 [S [C _]]]]]. rewrite S. cbn [snd]. now rewrite C.
Qed.

(** The table after one turn of the product loop: unchanged when the
    product fails, the product's rows replaced by one row when it succeeds. *)
Lemma attempt_product_tables user_id pid info n w :
  working w = committed w ->
  exists n' w',
    attempt_product fit predict env user_id pid info n w = (Ok n', w') /\
    working w' = committed w' /\
    ((product_succeeds fit predict env user_id (pid, info) = false /\
      committed w' = committed w) \/
     (product_succeeds fit predict env user_id (pid, info) = true /\
      exists row, same_key user_id pid row = true /\
                  committed w' =
                  filter (fun x => negb (same_key user_id pid x)) (committed w) ++ [row])).
Proof.
  intro WC.
  destruct (train_and_forecast_logs_only fit predict (data info) default_periods)
    as [rt [mst Ht]].
  unfold product_succeeds, attempt_product, try_except. simpl fst. simpl snd.
  unfold bind at 1. unfold logger at 1. unfold bind at 1.
  rewrite !Ht. cbn [fst].
  destruct rt as [r|e].
  - assert (exists w0, train_and_forecast fit predict (data info) default_periods
                         empty_world = (Ok r, w0)) as [w0 T] by (rewrite Ht; eauto).
    destruct (@default_result_has_keys _ _ _ _ _ _ _ T)
      as [h7 [h30 [h90 [h365 [H7 [H30 [H90 H365]]]]]]].
    unfold bind at 1.
    match goal with |- context [save_forecasts_to_database env user_id pid r ?x] =>
      set (w2 := x) end.
    destruct (fault_dec (save_fault env pid)) as [F|F].
    + rewrite (@save_success env user_id pid r w2 h7 h30 h90 h365 F H7 H30 H90 H365).
      rewrite (@save_success env user_id pid r empty_world h7 h30 h90 h365 F H7 H30 H90 H365).
      cbn [fst]. unfold ret. eexists. eexists. split; [reflexivity|].
      cbn [working committed]. split; [reflexivity|]. right. split; [reflexivity|].
      eexists. split; [apply same_key_stored_row|].
      subst w2. cbn [working add_log]. rewrite WC. reflexivity.
    + destruct (@save_failure env user_id pid r w2 (or_introl F))
        as [e [e' [w3 [S [C [W _]]]]]].
      destruct (@save_failure env user_id pid r empty_world (or_introl F))
        as [e0 [e0' [w4 [S0 _]]]].
      rewrite S, S0. cbn [fst]. unfold bind, logger, ret.
      eexists. eexists. split; [reflexivity|]. cbn [working committed].
      split; [congruence|]. left. split; [reflexivity|].
      rewrite C. reflexivity.
  - unfold bind, logger, ret. eexists. eexists. split; [reflexivity|].
    cbn [working committed add_log]. split; [exact WC|]. left. split; reflexivity.
Qed.

Lemma product_loop_tables user_id items : forall n w,
  NoDup (dict_keys items) ->
  working w = committed w ->
  exists n' w',
    product_loop fit predict env user_id items n w = (Ok n', w') /\
    working w' = committed w' /\
    (forall other_user other_product,
       other_user <> user_id \/ ~ In other_product (dict_keys items) ->
       stored_for other_user other_product (committed w')
       = stored_for other_user other_product (committed w)) /\
    (forall pid info, In (pid, info) items ->
       (product_succeeds fit predict env user_id (pid, info) = true ->
        exists row, stored_for user_id pid (committed w') = [row]) /\
       (product_succeeds fit predict env user_id (pid, info) = false ->
        stored_for user_id pid (committed w') = stored_for user_id pid (committed w))).
Proof.
  induction items as [|[pid info] rest IH]; intros n w ND WC.
  - exists n, w. split; [reflexivity|]. split; [exact WC|].
    split; [reflexivity | intros ? ? []].
  - simpl in ND. inversion ND as [|? ? Nk ND']; subst.
    destruct (@attempt_product_tables user_id pid info n w WC)
      as [n1 [w1 [A [WC1 Tab]]]].
    destruct (IH n1 w1 ND' WC1) as [n2 [w2 [B [WC2 [Oth Each]]]]].
    exists n2, w2. split; [cbn [product_loop]; unfold bind; now rewrite A|].
    split; [exact WC2|].
    assert (forall u p, u <> user_id \/ p <> pid ->
              stored_for u p (committed w1) = stored_for u p (committed w)) as Step.
    { intros u p N. destruct Tab as [[_ ->] | [_ [row [K ->]]]]; [reflexivity|].
      now apply stored_for_other_key. }
    split.
    + intros u p N. rewrite Oth.
      * apply Step. destruct N as [N|N]; [now left|].
        right. intro E. apply N. left. now symmetry.
      * destruct N as [N|N]; [now left|]. right. intro I. apply N. now right.
    + intros p i [E|I].
      * injection E as <- <-.
        rewrite (Oth user_id pid (or_intror Nk)).
        destruct Tab as [[Bad ->] | [Good [row [K ->]]]].
        -- split; [congruence | reflexivity].
        -- split; [|congruence]. intros _. exists row.
           now apply stored_for_after_write.
      * destruct (Each p i I) as [Y N]. split; [exact Y|].
        intro Bad. rewrite (N Bad). apply Step. right.
        intro E. subst p. apply Nk. apply (in_map fst) in I. exact I.
Qed.
End StoreMore.

Section RunTables.
Variable sqrt_fn : Q -> Q.
Variable Model : Type.
Variable fit : ProphetConfig -> list (Row Q) -> result Model.
Variable predict : Model -> list Z -> result (list PredRow).
Variable env : Env.

(** The table a run commits is the one its product loop leaves, started
    on the table committed before the run. *)
Lemma run_committed_table user_id df w :
  connect_result env = Ok tt ->
  fetch_result env user_id = Ok df ->
  exists w0 n w1 w',
    committed w0 = committed w /\ working w0 = committed w /\
    product_loop fit predict env user_id (fst (clean_and_prepare_data sqrt_fn df)) 0 w0
      = (Ok n, w1) /\
    run_forecasting_for_user sqrt_fn fit predict env user_id w = (Ok tt, w') /\
    committed w' = committed w1.
Proof.
  intros HC HF.
  unfold run_forecasting_for_user, try_finally, try_except.
  unfold bind at 1. unfold logger at 1. unfold bind at 1.
  rewrite (connect_to_database_Ok _ _ HC).
  unfold bind at 1. rewrite (fetch_sales_data_Ok _ _ _ HF).
  remember (clean_and_prepare_data sqrt_fn df) as cl eqn:Ecl.
  destruct df as [|rec rest].
  - assert (fst cl = []) as E0 by (subst cl; reflexivity). rewrite E0.
    exists (mkWorld (committed w) (committed w) true false (ticks w) (log w) (stdout w)).
    eexists. eexists. eexists. cbn. repeat split.
  - cbv beta iota. unfold bind at 1. unfold logger_all at 1.
    destruct (fst cl) as [|c cs] eqn:Efst.
    + exists (mkWorld (committed w) (committed w) true false (ticks w) (log w) (stdout w)).
      eexists. eexists. eexists. cbn. repeat split.
    + cbv beta iota zeta. unfold bind at 1.
      match goal with |- context [product_loop fit predict env user_id (c :: cs) 0 ?x] =>
        set (w3 := x) end.
      destruct (@product_loop_spec Model fit predict env user_id (c :: cs) 0%nat w3
                  eq_refl)
        as [w4 [lms [P [WC [So [Sc _]]]]]].
      exists w3. eexists. exists w4. eexists.
      split; [reflexivity|]. split; [reflexivity|]. split; [exact P|].
      rewrite P. unfold logger, close_connection, set_connection.
      cbn [fst snd connection committed working closed ticks log stdout].
      rewrite Sc. subst w3. unfold add_log.
      cbn [fst snd connection committed working closed ticks log stdout].
      split; reflexivity.
Qed.

(** X21.  A run for one tenant changes no stored row of another tenant, nor of
    a product it did not clean. *)
Theorem run_touches_only_its_products
  (user_id other_user other_product : string) (df : DataFrame) (w : World) :
  connect_result env = Ok tt ->
  fetch_result env user_id = Ok df ->
  other_user <> user_id \/
  ~ In other_product (dict_keys (fst (clean_and_prepare_data sqrt_fn df))) ->
  exists w',
    run_forecasting_for_user sqrt_fn fit predict env user_id w = (Ok tt, w') /\
    stored_for other_user other_product (committed w')
    = stored_for other_user other_product (committed w).
Proof.
  intros HC HF N.
  destruct (@run_committed_table user_id df w HC HF)
    as [w0 [n [w1 [w' [C0 [W0 [P [R C']]]]]]]].
  exists w'. split; [exact R|].
  assert (working w0 = committed w0) as WC by congruence.
  destruct (@product_loop_tables Model fit predict env user_id
              (fst (clean_and_prepare_data sqrt_fn df)) 0%nat w0)
    as [n2 [w2 [P2 [_ [Oth _]]]]]; [|exact WC|].
  { rewrite clean_and_prepare_data_kept. apply kept_groups_NoDup, groupby_NoDup. }
  rewrite P in P2. injection P2 as _ <-.
  rewrite C', (Oth _ _ N). now rewrite C0.
Qed.

(** X22.  After a run, every cleaned product whose forecast and save succeeded
    has exactly one stored summary; a product that failed keeps exactly
    the rows it had before the run. *)
Theorem run_stores_one_summary_per_success
  (user_id : string) (df : DataFrame) (w : World) :
  connect_result env = Ok tt ->
  fetch_result env user_id = Ok df ->
  exists w',
    run_forecasting_for_user sqrt_fn fit predict env user_id w = (Ok tt, w') /\
    forall pid info,
      In (pid, info) (fst (clean_and_prepare_data sqrt_fn df)) ->
      (product_succeeds fit predict env user_id (pid, info) = true ->
       exists row, stored_for user_id pid (committed w') = [row]) /\
      (product_succeeds fit predict env user_id (pid, info) = false ->
       stored_for user_id pid (committed w') = stored_for user_id pid (committed w)).
Proof.
  intros HC HF.
  destruct (@run_committed_table user_id df w HC HF)
    as [w0 [n [w1 [w' [C0 [W0 [P [R C']]]]]]]].
  exists w'. split; [exact R|].
  assert (working w0 = committed w0) as WC by congruence.
  destruct (@product_loop_tables Model fit predict env user_id
              (fst (clean_and_prepare_data sqrt_fn df)) 0%nat w0)
    as [n2 [w2 [P2 [_ [_ Each]]]]]; [|exact WC|].
  { rewrite clean_and_prepare_data_kept. apply kept_groups_NoDup, groupby_NoDup. }
  rewrite P in P2. injection P2 as _ <-.
  intros pid info I. destruct (Each pid info I) as [Y N].
  rewrite C'. split; [exact Y|]. intro Bad. rewrite (N Bad). now rewrite C0.
Qed.
End RunTables.

(* ================================================================== *)
(** * The order of the cleaned products *)

Lemma ascii_compare_refl (c : ascii) : Ascii.compare c c = Eq.
Proof. unfold Ascii.compare. apply N.compare_refl. Qed.

Lemma ascii_compare_lt_trans (a b c : ascii) :
  Ascii.compare a b = Lt -> Ascii.compare b c = Lt -> Ascii.compare a c = Lt.
Proof.
  unfold Ascii.compare. rewrite !N.compare_lt_iff. apply N.lt_trans.
Qed.

Lemma string_compare_trans (s1 : string) : forall s2 s3,
  String.compare s1 s2 <> Gt -> String.compare s2 s3 <> Gt ->
  String.compare s1 s3 <> Gt.
Proof.
  induction s1 as [|a s1 IH]; intros [|b s2] [|c s3]; simpl; try congruence.
  destruct (Ascii.compare a b) eqn:AB; try congruence;
    destruct (Ascii.compare b c) eqn:BC; try congruence.
  - apply Ascii.compare_eq_iff in AB, BC. subst. rewrite ascii_compare_refl. apply IH.
  - apply Ascii.compare_eq_iff in AB. subst. rewrite BC. congruence.
  - apply Ascii.compare_eq_iff in BC. subst. rewrite AB. congruence.
  - rewrite (ascii_compare_lt_trans _ _ _ AB BC). congruence.
Qed.

Lemma string_leb_trans (s1 s2 s3 : string) :
  String.leb s1 s2 = true -> String.leb s2 s3 = true -> String.leb s1 s3 = true.
Proof.
  unfold String.leb. intros A B.
  pose proof (string_compare_trans s1 s2 s3) as T.
  destruct (String.compare s1 s2); destruct (String.compare s2 s3);
    destruct (String.compare s1 s3); try reflexivity; try discriminate;
    exfalso; apply T; congruence.
Qed.

Lemma insert_key_In k ks x : In x (insert_key k ks) -> x = k \/ In x ks.
Proof.
  induction ks as [|k' ks IH]; simpl; [intuition congruence|].
  destruct (String.leb k k'); simpl; intuition congruence.
Qed.

Lemma insert_key_sorted k ks :
  StronglySorted (fun a b => String.leb a b = true) ks ->
  StronglySorted (fun a b => String.leb a b = true) (insert_key k ks).
Proof.
  induction ks as [|k' ks IH]; simpl; intro S.
  - constructor; constructor.
  - inversion S as [|? ? S' F]; subst.
    destruct (String.leb k k') eqn:E.
    + constructor; [exact S|]. constructor; [exact E|].
      rewrite Forall_forall in *. intros x I. eapply string_leb_trans; eauto.
    + constructor; [now apply IH|].
      rewrite Forall_forall in *. intros x I.
      destruct (insert_key_In _ _ _ I) as [-> | I']; [|now apply F].
      destruct (String.leb_total k k') as [L|L]; congruence.
Qed.

Lemma sort_keys_sorted ks :
  StronglySorted (fun a b => String.leb a b = true) (sort_keys ks).
Proof.
  induction ks as [|k ks IH]; simpl; [constructor|].
  now apply insert_key_sorted.
Qed.

Lemma kept_groups_sorted sqrt_fn (R : string -> string -> Prop) groups :
  StronglySorted R (map fst groups) ->
  StronglySorted R (dict_keys (kept_groups sqrt_fn groups)).
Proof.
  induction groups as [|[pid g] rest IH]; simpl; intro S; [constructor|].
  inversion S as [|? ? S' F]; subst.
  unfold dict_keys. rewrite map_app.
  destruct (fst (clean_group sqrt_fn pid g)); simpl; [|now apply IH].
  constructor; [now apply IH|].
  rewrite Forall_forall in *. intros x I. apply F.
  eapply kept_groups_keys. exact I.
Qed.

(** X23.  The cleaned products come in ascending order of [product_id],
    each once, whatever the order of the fetched records: this is the
    order in which the run forecasts them. *)
Theorem cleaned_products_in_key_order (sqrt_fn : Q -> Q) (df : DataFrame) :
  let keys := dict_keys (fst (clean_and_prepare_data sqrt_fn df)) in
  StronglySorted (fun a b => String.leb a b = true) keys /\ NoDup keys.
Proof.
  cbv zeta. rewrite clean_and_prepare_data_kept. split.
  - apply kept_groups_sorted. rewrite groupby_keys. apply sort_keys_sorted.
  - apply kept_groups_NoDup, groupby_NoDup.
Qed.

(* ================================================================== *)
(** * The facts above on the example inputs *)

Lemma main_wrong_arity_exits_1_witness :
  main sqrt_micro stub_fit stub_predict (quiet_env three_df)
    ["prophet_forecast_script.py"]%string empty_world =
  (Ok 1%Z, mkWorld (committed empty_world) (working empty_world)
             (connection empty_world) (closed empty_world) (ticks empty_world)
             (log empty_world) (stdout empty_world ++ [OutUsage])).
Proof.
  apply (@main_wrong_arity_exits_1 sqrt_micro unit stub_fit stub_predict
           (quiet_env three_df) ["prophet_forecast_script.py"]%string empty_world).
  simpl. lia.
Defined.

Lemma connect_failure_is_fatal_witness :
  main sqrt_micro stub_fit stub_predict down_env
    ["prophet_forecast_script.py"; "u"]%string busy_world =
  (Ok 1%Z, mkWorld busy_table busy_table false false 0
             [MsgStart "u"; MsgConnectFailed (OperationalError "connection refused");
              MsgPipelineError (OperationalError "connection refused")]
             [OutFailed (OperationalError "connection refused")]).
Proof.
  apply (@connect_failure_is_fatal sqrt_micro unit stub_fit stub_predict down_env
           "prophet_forecast_script.py" "u" (OperationalError "connection refused")
           busy_world).
  reflexivity.
Defined.

Lemma fetch_failure_is_fatal_witness :
  main sqrt_micro stub_fit stub_predict unreadable_env
    ["prophet_forecast_script.py"; "u"]%string busy_world =
  (Ok 1%Z, mkWorld busy_table busy_table true true 0
             [MsgStart "u"; MsgConnected; MsgFetchError (OperationalError "sales_data");
              MsgPipelineError (OperationalError "sales_data")]
             [OutFailed (OperationalError "sales_data")]).
Proof.
  apply (@fetch_failure_is_fatal sqrt_micro unit stub_fit stub_predict unreadable_env
           "prophet_forecast_script.py" "u" (OperationalError "sales_data") busy_world);
    reflexivity.
Defined.

Lemma no_cleaned_series_returns_early_witness :
  run_forecasting_for_user sqrt_micro stub_fit stub_predict (quiet_env lone_df) "u"
    busy_world =
  (Ok tt, mkWorld busy_table busy_table true true 0
            [MsgStart "u"; MsgConnected; MsgFetched 1 "u"; MsgCleaning "Anvil" "a";
             MsgInsufficient "Anvil"; MsgNoValid "u"]
            []).
Proof.
  apply (@no_cleaned_series_returns_early sqrt_micro unit stub_fit stub_predict
           (quiet_env lone_df) "u" lone_df busy_world).
  - reflexivity.
  - reflexivity.
  - vm_compute. reflexivity.
Defined.

Lemma run_closes_the_connection_witness :
  exists r w',
    run_forecasting_for_user sqrt_micro flaky_fit stub_predict (quiet_env three_df) "u"
      busy_world = (r, w') /\
    connection w' = true /\ closed w' = true /\ working w' = committed w' /\
    stdout w' = stdout busy_world.
Proof.
  apply (@run_closes_the_connection sqrt_micro unit flaky_fit stub_predict
           (quiet_env three_df) "u" busy_world).
  reflexivity.
Defined.

Lemma cleaned_series_dates_strictly_ascending_witness :
  StronglySorted Z.lt (map (@ds Q) (data dup_info)).
Proof.
  apply (@cleaned_series_dates_strictly_ascending sqrt_micro dup_df "p" dup_info).
  vm_compute. reflexivity.
Defined.

Lemma product_name_is_from_first_record_witness :
  exists rec,
    find (fun r => String.eqb (product_id r) "p") dup_df = Some rec /\
    info_product_name dup_info = product_name rec.
Proof.
  apply (@product_name_is_from_first_record sqrt_micro dup_df "p" dup_info).
  vm_compute. reflexivity.
Defined.

Lemma outlier_step_only_lowers_witness :
  let before := prepare (group_of "p" spike_df) in
  let threshold := mean (ys before) + 3 * std sqrt_micro (ys before) in
  Forall2 (fun a b => idx a = idx b /\ ds a = ds b /\ y a <= y b /\
                      (y b <= threshold -> y a = y b))
    (data spike_info) before.
Proof.
  apply (@outlier_step_only_lowers sqrt_micro spike_df "p" spike_info).
  vm_compute. reflexivity.
Defined.

Lemma horizon_interval_is_ordered_witness :
  let entry := horizon_entry two_days 2 in
  (lower_bound entry <= value entry)%Z /\
  (0 <= Qsum (map yhat_upper (tail 2 two_days)) ->
   (value entry <= upper_bound entry)%Z).
Proof.
  apply (@horizon_interval_is_ordered two_days 2%nat).
  simpl. intros row [<-|[<-|[]]]; vm_compute; split; discriminate.
Defined.

Lemma empty_horizon_list_raises_witness :
  train_and_forecast stub_fit stub_predict two_points [] empty_world =
  (Raise (UnboundLocalError "forecast"),
   add_log empty_world [MsgTraining; MsgTrainError (UnboundLocalError "forecast")]).
Proof.
  apply (@empty_horizon_list_raises unit stub_fit stub_predict two_points empty_world tt
           (map (fun d => mkPred d 2 1 3 (inject_Z d)) (map (@ds Q) two_points)));
    reflexivity.
Defined.

Lemma engine_failure_is_logged_and_reraised_witness :
  exists ms,
    snd (train_and_forecast stub_fit failing_predict two_points default_periods
           empty_world)
    = add_log empty_world (MsgTraining :: ms ++ [MsgTrainError ProphetError]).
Proof.
  apply (@engine_failure_is_logged_and_reraised unit stub_fit failing_predict two_points
           default_periods empty_world _ ProphetError).
  vm_compute. reflexivity.
Defined.

Lemma result_keys_are_the_horizons_witness :
  dict_keys (forecasts stub_result) = map forecast_key default_periods /\
  forall k, In k (dict_keys (forecasts stub_result)) <->
            exists p, In p default_periods /\ k = forecast_key p.
Proof.
  split; [vm_compute; reflexivity|].
  apply (@result_keys_are_the_horizons unit stub_fit stub_predict two_points
           default_periods empty_world stub_world stub_result).
  vm_compute. reflexivity.
Defined.

Lemma short_prediction_is_always_stable_witness :
  trend_status week_result = stable.
Proof.
  apply (@short_prediction_is_always_stable unit stub_fit stub_predict two_points
           [7]%nat empty_world week_world week_result).
  - exact stub_predict_dates.
  - discriminate.
  - simpl. lia.
  - vm_compute. reflexivity.
Defined.

Lemma in_sample_errors_nonneg_witness :
  (forall m, mae stub_result = Some m -> 0 <= m) /\
  (forall m, mape stub_result = Some m -> 0 <= m).
Proof.
  apply (@in_sample_errors_nonneg unit stub_fit stub_predict two_points default_periods
           empty_world stub_world stub_result).
  vm_compute. reflexivity.
Defined.

Lemma unmatched_labels_give_full_confidence_witness :
  mae late_result = None /\ mape late_result = None /\
  confidence_score late_result = 95 # 100.
Proof.
  apply (@unmatched_labels_give_full_confidence unit stub_fit stub_predict late_points
           default_periods empty_world late_world late_result).
  - exact stub_predict_dates.
  - simpl. intros row [<-|[<-|[]]]; simpl; lia.
  - vm_compute. reflexivity.
Defined.

Lemma cursor_failure_masks_the_server_error_witness :
  save_forecasts_to_database (faulty_env CursorFails) "u" "b" sample_result busy_world =
  (Raise (UnboundLocalError "cursor"),
   mkWorld busy_table busy_table false false 0
     [MsgSaveError (OperationalError "cursor")] []).
Proof.
  apply (@cursor_failure_masks_the_server_error (faulty_env CursorFails) "u" "b"
           sample_result busy_world).
  reflexivity.
Defined.

Lemma save_touches_only_its_key_witness :
  stored_for "v" "a"
    (committed (snd (save_forecasts_to_database (quiet_env []) "u" "a" sample_result
                       busy_world)))
  = stored_for "v" "a" (committed busy_world).
Proof.
  apply (@save_touches_only_its_key (quiet_env []) "u" "a" "v" "a" sample_result
           busy_world).
  - reflexivity.
  - left. discriminate.
Defined.

Lemma run_touches_only_its_products_witness :
  exists w',
    run_forecasting_for_user sqrt_micro flaky_fit stub_predict (quiet_env three_df) "u"
      busy_world = (Ok tt, w') /\
    stored_for "v" "a" (committed w') = stored_for "v" "a" (committed busy_world).
Proof.
  apply (@run_touches_only_its_products sqrt_micro unit flaky_fit stub_predict
           (quiet_env three_df) "u" "v" "a" three_df busy_world).
  - reflexivity.
  - reflexivity.
  - left. discriminate.
Defined.

Lemma run_stores_one_summary_per_success_witness :
  exists w',
    run_forecasting_for_user sqrt_micro flaky_fit stub_predict (quiet_env three_df) "u"
      busy_world = (Ok tt, w') /\
    forall pid info,
      In (pid, info) (fst (clean_and_prepare_data sqrt_micro three_df)) ->
      (product_succeeds flaky_fit stub_predict (quiet_env three_df) "u" (pid, info) = true ->
       exists row, stored_for "u" pid (committed w') = [row]) /\
      (product_succeeds flaky_fit stub_predict (quiet_env three_df) "u" (pid, info) = false ->
       stored_for "u" pid (committed w') = stored_for "u" pid (committed busy_world)).
Proof.
  apply (@run_stores_one_summary_per_success sqrt_micro unit flaky_fit stub_predict
           (quiet_env three_df) "u" three_df busy_world); reflexivity.
Defined.

Lemma nothing_to_forecast_still_reports_success_witness :
  main sqrt_micro stub_fit stub_predict (quiet_env lone_df)
    ["prophet_forecast_script.py"; "u"]%string busy_world =
  (Ok 0%Z, mkWorld busy_table busy_table true true 0
             [MsgStart "u"; MsgConnected; MsgFetched 1 "u"; MsgCleaning "Anvil" "a";
              MsgInsufficient "Anvil"; MsgNoValid "u"]
             [OutCompleted "u"]).
Proof.
  apply (@nothing_to_forecast_still_reports_success sqrt_micro unit stub_fit stub_predict
           (quiet_env lone_df) "prophet_forecast_script.py" "u" lone_df busy_world).
  - reflexivity.
  - reflexivity.
  - vm_compute. reflexivity.
Defined.
